(** * MiniVideo: the IDR filter, the bitstream map, the H.264 dispatcher

    A shallow embedding of the C functions of MiniVideo that the
    specification talks about:

    - [is_prime]                                   (utils.c)
    - [init_bitstream_map], [free_bitstream_map]   (bitstream_map.c)
    - [idr_filtering]                              (demuxer/filter.c)
    - [h264_decode], [checkDecodingContext],
      [computeNormAdjust]                          (decoder/h264/h264.c)

    C integers are integers of [Z]; a C pointer is an [option] (NULL is
    [None]); C arrays are lists read with [!!] and written with [<[_:=_]>];
    [double] values are IEEE 754 binary64 numbers ([spec_float] at precision
    53).  A C execution that the language leaves undefined (a null
    dereference, an access out of the bounds of an array, a division by
    zero, a conversion out of range) is the outcome [Undefined]. *)

From Stdlib Require Import ZArith Lia List Bool.
From Stdlib Require Import SpecFloat.
From stdpp Require Import base option list sorting.

Open Scope Z_scope.

(* ================================================================== *)
(** * Outcomes of a C execution *)

Inductive ub : Type :=
  | DivisionByZero
  | OutOfBounds
  | NullDereference
  | DanglingPointer
  | ConversionOutOfRange.

Inductive outcome (A : Type) : Type :=
  | Done (a : A)
  | Undefined (why : ub).

Arguments Done {A} a.
Arguments Undefined {A} why.

#[global] Instance outcome_ret : MRet outcome := fun A a => Done a.
#[global] Instance outcome_bind : MBind outcome := fun A B f c =>
  match c with
  | Done a => f a
  | Undefined why => Undefined why
  end.

Definition defined {A} (c : outcome A) : Prop :=
  match c with Done _ => True | Undefined _ => False end.

(** [typedef.h] is not among the sources; the documentation of every
    function reads "1 if succeed, 0 otherwise". *)
Definition SUCCESS : Z := 1.
Definition FAILURE : Z := 0.

(** [for (i = a; i < b; i++) body]: the body runs for [i = a], [a+1], ...
    as long as [i < b]; neither [i] nor [b] is written by a body. *)
Fixpoint for_loop {S : Type} (n : nat) (i : Z) (body : Z -> S -> outcome S)
    (s : S) : outcome S :=
  match n with
  | O => Done s
  | S n' => s' ← body i s; for_loop n' (i + 1) body s'
  end.

Definition for_range {S : Type} (a b : Z) (body : Z -> S -> outcome S)
    (s : S) : outcome S :=
  for_loop (Z.to_nat (b - a)) a body s.

(** Reading and writing [a[i]] for an array of [Z]. *)
Definition aget {A} (a : list A) (i : Z) : outcome A :=
  if i <? 0 then Undefined OutOfBounds
  else match a !! Z.to_nat i with
       | Some v => Done v
       | None => Undefined OutOfBounds
       end.

Definition aset {A} (a : list A) (i : Z) (v : A) : outcome (list A) :=
  if (0 <=? i) && (i <? Z.of_nat (length a)) then Done (<[Z.to_nat i := v]> a)
  else Undefined OutOfBounds.

(* ================================================================== *)
(** * IEEE 754 binary64 *)

Module Double.

Definition prec : Z := 53.
Definition emax : Z := 1024.

(** [(double)z] for an integer of at most 53 bits. *)
Definition of_int (z : Z) : spec_float := binary_normalize prec emax z 0 false.

Definition div : spec_float -> spec_float -> spec_float := SFdiv prec emax.
Definition mul : spec_float -> spec_float -> spec_float := SFmul prec emax.
Definition sqrt : spec_float -> spec_float := SFsqrt prec emax.
Definition ltb : spec_float -> spec_float -> bool := SFltb.

(** The literals [0.03] and [1.66]: the binary64 numbers nearest to
    3/100 and to 166/100. *)
Definition lit_0_03 : spec_float := S754_finite false 8646911284551352 (-58).
Definition lit_1_66 : spec_float := S754_finite false 7475975381435023 (-52).

(** The integer part of [m * 2^e], rounded towards zero and towards
    plus infinity, for [m > 0]. *)
Definition trunc_pos (m : positive) (e : Z) : Z :=
  if 0 <=? e then Z.pos m * 2 ^ e else Z.pos m / 2 ^ (- e).

Definition ceil_pos (m : positive) (e : Z) : Z :=
  if 0 <=? e then Z.pos m * 2 ^ e else - ((- Z.pos m) / 2 ^ (- e)).

Definition in_int (z : Z) : bool := (- 2 ^ 31 <=? z) && (z <? 2 ^ 31).

Definition checked (z : Z) : outcome Z :=
  if in_int z then Done z else Undefined ConversionOutOfRange.

(** [(int)x]: truncation; undefined when the result does not fit an
    [int], for an infinity and for a NaN. *)
Definition to_int (x : spec_float) : outcome Z :=
  match x with
  | S754_zero _ => Done 0
  | S754_finite s m e =>
      checked (if s then - trunc_pos m e else trunc_pos m e)
  | _ => Undefined ConversionOutOfRange
  end.

(** [(int)ceil(x)]. *)
Definition ceil_to_int (x : spec_float) : outcome Z :=
  match x with
  | S754_zero _ => Done 0
  | S754_finite s m e =>
      checked (if s then - trunc_pos m e else ceil_pos m e)
  | _ => Undefined ConversionOutOfRange
  end.

End Double.

(* ================================================================== *)
(** * utils.c: [is_prime] *)

(** [for (i = 2; i < sqrt(n); i += 2)]: [i] is converted to [double] for
    the comparison.  [fuel] bounds the number of iterations; [None] is a
    loop that has not finished within it. *)
Fixpoint is_prime_loop (fuel : nat) (n i : Z) : option Z :=
  match fuel with
  | O => None
  | S fuel' =>
      if Double.ltb (Double.of_int i) (Double.sqrt (Double.of_int n)) then
        if (Z.rem n i =? 0) && negb (i =? n) then Some 0
        else is_prime_loop fuel' n (i + 2)
      else Some 1
  end.

Definition is_prime (n : Z) : option Z :=
  if 9999 <? n then Some 0 else is_prime_loop 5000 n 2.

(** The candidate divisors for which [n % i] is evaluated. *)
Fixpoint is_prime_candidates (fuel : nat) (n i : Z) : list Z :=
  match fuel with
  | O => []
  | S fuel' =>
      if Double.ltb (Double.of_int i) (Double.sqrt (Double.of_int n)) then
        i :: (if (Z.rem n i =? 0) && negb (i =? n) then []
              else is_prime_candidates fuel' n (i + 2))
      else []
  end.

Definition composite (n : Z) : Prop :=
  exists a b, 1 < a /\ 1 < b /\ n = a * b.

(* ================================================================== *)
(** * Machine integers *)

(** The value an [int] holds after an assignment of [z] (two's
    complement, 32 bits), and the value of a conversion to [uint32_t]. *)
Definition int32 (z : Z) : Z := (z + 2 ^ 31) mod 2 ^ 32 - 2 ^ 31.
Definition uint32 (z : Z) : Z := z mod 2 ^ 32.

(** [*p] for a pointer to a structure or an array. *)
Definition deref {A} (p : option A) : outcome A :=
  match p with
  | Some a => Done a
  | None => Undefined NullDereference
  end.

(* ================================================================== *)
(** * decoder/h264/h264.c *)

Record nalu_t := { nal_unit_type : Z }.
Record sps_t := { sps_seq_parameter_set_id : Z }.
Record pps_t := { pic_parameter_set_id : Z; seq_parameter_set_id : Z }.
Record slice_t := { slice_pic_parameter_set_id : Z }.

(** The bit reader is opaque here: only its presence is tested. *)
Inductive Bitstream_t := bitstream_handle.

Abbreviation table3 := (list (list (list Z))).


(** The fields of [DecodingContext_t] that h264.c reads or writes.  The
    declaration (h264.h) is not among the sources; the run counters are
    unbounded integers here. *)
Record DecodingContext_t := {
  bitstr : option Bitstream_t;
  active_nalu : option nalu_t;
  sps_array : list (option sps_t);
  pps_array : list (option pps_t);
  active_sps : Z;
  active_pps : Z;
  active_slice : option slice_t;
  output_format : Z;
  picture_quality : Z;
  picture_number : Z;
  picture_extractionmode : Z;
  decoderRunning : bool;
  IdrPicFlag : bool;
  idrCounter : Z;
  frameCounter : Z;
  errorCounter : Z;
  normAdjust4x4 : table3;
  normAdjust8x8 : table3
}.

Definition set_normAdjust4x4 (t : table3) (dc : DecodingContext_t) :=
  {| bitstr := bitstr dc; active_nalu := active_nalu dc;
     sps_array := sps_array dc; pps_array := pps_array dc;
     active_sps := active_sps dc; active_pps := active_pps dc;
     active_slice := active_slice dc; output_format := output_format dc;
     picture_quality := picture_quality dc;
     picture_number := picture_number dc;
     picture_extractionmode := picture_extractionmode dc;
     decoderRunning := decoderRunning dc; IdrPicFlag := IdrPicFlag dc;
     idrCounter := idrCounter dc; frameCounter := frameCounter dc;
     errorCounter := errorCounter dc;
     normAdjust4x4 := t; normAdjust8x8 := normAdjust8x8 dc |}.

Definition set_normAdjust8x8 (t : table3) (dc : DecodingContext_t) :=
  {| bitstr := bitstr dc; active_nalu := active_nalu dc;
     sps_array := sps_array dc; pps_array := pps_array dc;
     active_sps := active_sps dc; active_pps := active_pps dc;
     active_slice := active_slice dc; output_format := output_format dc;
     picture_quality := picture_quality dc;
     picture_number := picture_number dc;
     picture_extractionmode := picture_extractionmode dc;
     decoderRunning := decoderRunning dc; IdrPicFlag := IdrPicFlag dc;
     idrCounter := idrCounter dc; frameCounter := frameCounter dc;
     errorCounter := errorCounter dc;
     normAdjust4x4 := normAdjust4x4 dc; normAdjust8x8 := t |}.

(** Export parameters, [decoderRunning], [IdrPicFlag] and the three run
    counters, the fields the dispatch loop writes. *)
Definition set_export (fmt quality number mode : Z) (dc : DecodingContext_t) :=
  {| bitstr := bitstr dc; active_nalu := active_nalu dc;
     sps_array := sps_array dc; pps_array := pps_array dc;
     active_sps := active_sps dc; active_pps := active_pps dc;
     active_slice := active_slice dc; output_format := fmt;
     picture_quality := quality; picture_number := number;
     picture_extractionmode := mode;
     decoderRunning := decoderRunning dc; IdrPicFlag := IdrPicFlag dc;
     idrCounter := idrCounter dc; frameCounter := frameCounter dc;
     errorCounter := errorCounter dc;
     normAdjust4x4 := normAdjust4x4 dc; normAdjust8x8 := normAdjust8x8 dc |}.

Definition set_run (running idrflag : bool) (idr frame err : Z)
    (dc : DecodingContext_t) :=
  {| bitstr := bitstr dc; active_nalu := active_nalu dc;
     sps_array := sps_array dc; pps_array := pps_array dc;
     active_sps := active_sps dc; active_pps := active_pps dc;
     active_slice := active_slice dc; output_format := output_format dc;
     picture_quality := picture_quality dc;
     picture_number := picture_number dc;
     picture_extractionmode := picture_extractionmode dc;
     decoderRunning := running; IdrPicFlag := idrflag;
     idrCounter := idr; frameCounter := frame; errorCounter := err;
     normAdjust4x4 := normAdjust4x4 dc; normAdjust8x8 := normAdjust8x8 dc |}.

Definition set_decoderRunning (b : bool) (dc : DecodingContext_t) :=
  set_run b (IdrPicFlag dc) (idrCounter dc) (frameCounter dc)
    (errorCounter dc) dc.

Definition set_IdrPicFlag (b : bool) (dc : DecodingContext_t) :=
  set_run (decoderRunning dc) b (idrCounter dc) (frameCounter dc)
    (errorCounter dc) dc.

Definition incr_errorCounter (dc : DecodingContext_t) :=
  set_run (decoderRunning dc) (IdrPicFlag dc) (idrCounter dc)
    (frameCounter dc) (errorCounter dc + 1) dc.

(** [dc->errorCounter = 0; dc->idrCounter++; dc->frameCounter++;] *)
Definition count_idr (dc : DecodingContext_t) :=
  set_run (decoderRunning dc) (IdrPicFlag dc) (idrCounter dc + 1)
    (frameCounter dc + 1) 0 dc.

(** ** [computeNormAdjust] *)

Definition v4x4 : list (list Z) :=
  [ [10; 16; 13];
    [11; 18; 14];
    [13; 20; 16];
    [14; 23; 18];
    [16; 25; 20];
    [18; 29; 23] ].

Definition v8x8 : list (list Z) :=
  [ [20; 18; 32; 19; 25; 24];
    [22; 19; 35; 21; 28; 26];
    [26; 23; 42; 24; 33; 31];
    [28; 25; 45; 26; 35; 33];
    [32; 28; 51; 30; 40; 38];
    [36; 32; 58; 34; 46; 43] ].

Definition aget2 (a : list (list Z)) (q k : Z) : outcome Z :=
  row ← aget a q; aget row k.

Definition aget3 (t : table3) (q i j : Z) : outcome Z :=
  plane ← aget t q; row ← aget plane i; aget row j.

Definition aset3 (t : table3) (q i j v : Z) : outcome table3 :=
  plane ← aget t q;
  row ← aget plane i;
  row' ← aset row j v;
  plane' ← aset plane i row';
  aset t q plane'.

(** The body of the innermost loop over the 4x4 table. *)
Definition normAdjust4x4_cell (q i j : Z) (dc : DecodingContext_t)
    : outcome DecodingContext_t :=
  v ← (if (Z.rem i 2 =? 0) && (Z.rem j 2 =? 0) then aget2 v4x4 q 0
       else if (Z.rem i 2 =? 1) && (Z.rem j 2 =? 1) then aget2 v4x4 q 1
       else aget2 v4x4 q 2);
  t ← aset3 (normAdjust4x4 dc) q i j v;
  Done (set_normAdjust4x4 t dc).

(** The body of the innermost loop over the 8x8 table. *)
Definition normAdjust8x8_cell (q i j : Z) (dc : DecodingContext_t)
    : outcome DecodingContext_t :=
  v ← (if (Z.rem i 4 =? 0) && (Z.rem j 4 =? 0) then aget2 v8x8 q 0
       else if (Z.rem i 2 =? 1) && (Z.rem j 2 =? 1) then aget2 v8x8 q 1
       else if (Z.rem i 4 =? 2) && (Z.rem j 4 =? 2) then aget2 v8x8 q 2
       else if ((Z.rem i 4 =? 0) && (Z.rem j 2 =? 1))
               || ((Z.rem i 2 =? 1) && (Z.rem j 4 =? 0)) then aget2 v8x8 q 3
       else if ((Z.rem i 4 =? 0) && (Z.rem j 4 =? 2))
               || ((Z.rem i 4 =? 2) && (Z.rem j 4 =? 0)) then aget2 v8x8 q 4
       else aget2 v8x8 q 5);
  t ← aset3 (normAdjust8x8 dc) q i j v;
  Done (set_normAdjust8x8 t dc).

(** [computeNormAdjust(dc)]: the return code and the context. *)
Definition computeNormAdjust (dc : option DecodingContext_t)
    : outcome (Z * option DecodingContext_t) :=
  match dc with
  | None => Done (FAILURE, None)
  | Some dc =>
      dc' ← for_range 0 6 (fun q dc =>
               dc ← for_range 0 4 (fun i dc =>
                      for_range 0 4 (fun j dc => normAdjust4x4_cell q i j dc) dc) dc;
               for_range 0 8 (fun i dc =>
                 for_range 0 8 (fun j dc => normAdjust8x8_cell q i j dc) dc) dc) dc;
      Done (SUCCESS, Some dc')
  end.

(** The rules of the two tables, as the specification words them. *)
Definition rule4x4 (q i j : Z) : option Z :=
  row ← v4x4 !! Z.to_nat q;
  if Z.even i && Z.even j then row !! 0%nat
  else if Z.odd i && Z.odd j then row !! 1%nat
  else row !! 2%nat.

Definition rule8x8 (q i j : Z) : option Z :=
  row ← v8x8 !! Z.to_nat q;
  if (i mod 4 =? 0) && (j mod 4 =? 0) then row !! 0%nat
  else if (i mod 2 =? 1) && (j mod 2 =? 1) then row !! 1%nat
  else if (i mod 4 =? 2) && (j mod 4 =? 2) then row !! 2%nat
  else if ((i mod 4 =? 0) && (j mod 2 =? 1))
          || ((i mod 2 =? 1) && (j mod 4 =? 0)) then row !! 3%nat
  else if ((i mod 4 =? 0) && (j mod 4 =? 2))
          || ((i mod 4 =? 2) && (j mod 4 =? 0)) then row !! 4%nat
  else row !! 5%nat.

(** A table of [a] planes of [b] rows of [c] entries. *)
Definition table_dims (a b c : nat) (t : table3) : Prop :=
  length t = a /\
  Forall (fun plane => length plane = b /\
                       Forall (fun row => length row = c) plane) t.

(** The list [f 0; ...; f (n-1)]. *)
Definition tabulate {A} (n : nat) (f : nat -> A) : list A := f <$> seq 0 n.

(** The entry [t[q][i][j]], if there is one. *)
Definition tlookup (t : table3) (q i j : nat) : option Z :=
  plane ← t !! q; row ← plane !! i; row !! j.

Definition filled4x4 : table3 :=
  Eval vm_compute in
    (fun q => (fun i => (fun j => default 0 (rule4x4 q i j)) <$> seqZ 0 4)
                <$> seqZ 0 4) <$> seqZ 0 6.

Definition filled8x8 : table3 :=
  Eval vm_compute in
    (fun q => (fun i => (fun j => default 0 (rule8x8 q i j)) <$> seqZ 0 8)
                <$> seqZ 0 8) <$> seqZ 0 6.

(** ** [checkDecodingContext] *)

Definition is_null {A} (p : option A) : bool :=
  match p with None => true | Some _ => false end.

Definition checkDecodingContext (dc : DecodingContext_t) : outcome Z :=
  let retcode := SUCCESS in
  let retcode := if is_null (bitstr dc) then FAILURE else retcode in
  let retcode := if is_null (active_nalu dc) then FAILURE else retcode in
  sps ← aget (sps_array dc) (active_sps dc);
  let retcode := if is_null sps then FAILURE else retcode in
  pps ← aget (pps_array dc) (active_pps dc);
  let retcode := if is_null pps then FAILURE else retcode in
  if is_null (active_slice dc) then Done FAILURE
  else
    slice ← deref (active_slice dc);
    pps ← aget (pps_array dc) (slice_pic_parameter_set_id slice);
    if is_null pps then Done FAILURE
    else
      p ← deref pps;
      sps ← aget (sps_array dc) (seq_parameter_set_id p);
      if is_null sps then Done FAILURE else Done retcode.

(** The parameter set in slot [i] of a cache: [None] for an empty slot
    and for an index outside the array. *)
Definition cached {A} (a : list (option A)) (i : Z) : option A :=
  if i <? 0 then None else a !! Z.to_nat i ≫= id.

(** The indices that [checkDecodingContext] uses are within the two
    arrays. *)
Definition indices_in_range (dc : DecodingContext_t) : Prop :=
  0 <= active_sps dc < Z.of_nat (length (sps_array dc)) /\
  0 <= active_pps dc < Z.of_nat (length (pps_array dc)) /\
  forall slice, active_slice dc = Some slice ->
    0 <= slice_pic_parameter_set_id slice < Z.of_nat (length (pps_array dc)) /\
    forall p, cached (pps_array dc) (slice_pic_parameter_set_id slice) = Some p ->
      0 <= seq_parameter_set_id p < Z.of_nat (length (sps_array dc)).

(** The seven conditions of the specification. *)
Definition context_complete (dc : DecodingContext_t) : Prop :=
  is_Some (bitstr dc) /\
  is_Some (active_nalu dc) /\
  is_Some (cached (sps_array dc) (active_sps dc)) /\
  is_Some (cached (pps_array dc) (active_pps dc)) /\
  exists slice, active_slice dc = Some slice /\
  exists p, cached (pps_array dc) (slice_pic_parameter_set_id slice) = Some p /\
  is_Some (cached (sps_array dc) (seq_parameter_set_id p)).

(** ** [initDecodingContext] *)

(** Modelled from the spec: [MAX_SPS] and [MAX_PPS] (h264_parameterset.h
    is not among the sources) are "32 each". *)
Definition MAX_SPS : nat := 32.
Definition MAX_PPS : nat := 32.

Definition zero_table (a b c : nat) : table3 :=
  replicate a (replicate b (replicate c 0)).

(** [video] is the argument ([None] for NULL); [calloc_ok], [bs] and
    [nalu] are the results of [calloc], [init_bitstream] and [initNALU]. *)
Definition initDecodingContext {V : Type} (video : option V) (calloc_ok : bool)
    (bs : option Bitstream_t) (nalu : option nalu_t)
    : option DecodingContext_t :=
  match video with
  | None => None
  | Some _ =>
      if negb calloc_ok then None
      else match bs with
           | None => None
           | Some b =>
               match nalu with
               | None => None
               | Some n =>
                   Some {| bitstr := Some b; active_nalu := Some n;
                           sps_array := replicate MAX_SPS None;
                           pps_array := replicate MAX_PPS None;
                           active_sps := 0; active_pps := 0;
                           active_slice := None; output_format := 0;
                           picture_quality := 75; picture_number := 1;
                           picture_extractionmode := 0;
                           decoderRunning := false; IdrPicFlag := false;
                           idrCounter := 0; frameCounter := 0;
                           errorCounter := 0;
                           normAdjust4x4 := zero_table 6 4 4;
                           normAdjust8x8 := zero_table 6 8 8 |}
               end
           end
  end.

(** ** [h264_decode] *)

Definition NALU_TYPE_SLICE : Z := 1.
Definition NALU_TYPE_IDR : Z := 5.
Definition NALU_TYPE_SEI : Z := 6.
Definition NALU_TYPE_SPS : Z := 7.
Definition NALU_TYPE_PPS : Z := 8.

(** What the helpers of one iteration return.  [buffer_feed_next_sample],
    [nalu_parse_header], [decode_slice], [decodeSEI], [decodeSPS] and
    [decodePPS] are not among the sources: their results come from the
    environment, and they are taken not to write the run counters nor
    [decoderRunning]. *)
Record Event := {
  ev_feed : Z;        (* buffer_feed_next_sample(dc->bitstr) *)
  ev_header : bool;   (* nalu_parse_header(dc->bitstr, dc->active_nalu) *)
  ev_type : Z;        (* dc->active_nalu->nal_unit_type *)
  ev_handler : bool   (* decode_slice, decodeSEI, decodeSPS or decodePPS *)
}.

(** The [switch] on [nal_unit_type]. *)
Definition dispatch (ev : Event) (retcode : Z) (dc : DecodingContext_t)
    : DecodingContext_t * Z :=
  if ev_type ev =? NALU_TYPE_SLICE then (dc, retcode)
  else if ev_type ev =? NALU_TYPE_IDR then
    let dc := set_IdrPicFlag true dc in
    let '(dc, retcode) :=
      if ev_handler ev then (count_idr dc, SUCCESS)
      else (incr_errorCounter dc, retcode) in
    (set_IdrPicFlag false dc, retcode)
  else if (ev_type ev =? NALU_TYPE_SEI) || (ev_type ev =? NALU_TYPE_SPS)
          || (ev_type ev =? NALU_TYPE_PPS) then
    if ev_handler ev then (dc, SUCCESS) else (incr_errorCounter dc, retcode)
  else (incr_errorCounter dc, retcode).

(** From the top of the loop body to the end of the [if] on the header:
    the context and [retcode] before the two closing tests. *)
Definition load_and_dispatch (ev : Event) (dc : DecodingContext_t)
    : DecodingContext_t * Z :=
  let retcode := ev_feed ev in
  if ev_header ev then dispatch ev retcode dc
  else (incr_errorCounter dc, retcode).

(** The two closing tests of the loop body. *)
Definition closing_tests (number : Z) (s : DecodingContext_t * Z)
    : DecodingContext_t * Z :=
  let '(dc, retcode) := s in
  let '(dc, retcode) :=
    if idrCounter dc =? number then (set_decoderRunning false dc, SUCCESS)
    else (dc, retcode) in
  if (64 <? errorCounter dc) || (retcode =? FAILURE)
  then (set_decoderRunning false dc, FAILURE)
  else (dc, retcode).

Definition iteration (number : Z) (ev : Event) (dc : DecodingContext_t)
    : DecodingContext_t * Z :=
  closing_tests number (load_and_dispatch ev dc).

(** [while (dc->decoderRunning) { ... }]: [env k] is what the helpers
    return in iteration [k].  The result is the context and [retcode] at
    the exit and the number of iterations run; [None] when the loop is
    still running after [fuel] iterations. *)
Fixpoint decode_loop (fuel : nat) (number : Z) (env : nat -> Event) (k : nat)
    (dc : DecodingContext_t) (retcode : Z)
    : option (DecodingContext_t * Z * nat) :=
  if decoderRunning dc then
    match fuel with
    | O => None
    | S fuel' =>
        let '(dc', retcode') := iteration number (env k) dc in
        decode_loop fuel' number env (S k) dc' retcode'
    end
  else Some (dc, retcode, k).

(** [h264_decode]: [init] is the result of [initDecodingContext]. *)
Definition h264_decode (fuel : nat) (init : option DecodingContext_t)
    (picture_format quality number mode : Z) (env : nat -> Event)
    : outcome (option Z) :=
  match init with
  | None => Done (Some FAILURE)
  | Some dc =>
      '(_, dc) ← computeNormAdjust (Some dc);
      dc ← deref dc;
      let dc := set_export picture_format quality number mode dc in
      let dc := set_decoderRunning true dc in
      Done (match decode_loop fuel number env 0 dc FAILURE with
            | Some (_, retcode, _) => Some retcode
            | None => None
            end)
  end.

(** A finite input of at most [K] samples: from iteration [K] on the feed
    fails and no handler decodes anything. *)
Definition decodes (ev : Event) : bool :=
  ev_header ev && ev_handler ev &&
  ((ev_type ev =? NALU_TYPE_IDR) || (ev_type ev =? NALU_TYPE_SEI)
   || (ev_type ev =? NALU_TYPE_SPS) || (ev_type ev =? NALU_TYPE_PPS)).

Definition finite_input (K : nat) (env : nat -> Event) : Prop :=
  forall k, (K <= k)%nat -> ev_feed (env k) = FAILURE /\ decodes (env k) = false.

(* ================================================================== *)
(** * bitstream_map.c *)

(** [BitstreamMap_t] (bitstream.h is not among the sources): the fields
    that bitstream_map.c and filter.c read or write.  The five arrays are
    separate allocations; [None] is a NULL array pointer. *)
Record BitstreamMap_t := {
  stream_type : Z;
  stream_codec : Z;
  sample_alignment : Z;
  sample_count : Z;
  sample_count_idr : Z;
  sample_type : option (list Z);
  sample_size : option (list Z);
  sample_offset : option (list Z);
  sample_pts : option (list Z);
  sample_dts : option (list Z)
}.

(** The memory: the [BitstreamMap_t] objects on the heap (a freed object
    is [None]), the variables of type [BitstreamMap_t *] (the caller's
    handles and the locals whose address is taken), and for each coming
    call of [calloc] whether it succeeds (it does once the list is
    used up). *)
Record memory := {
  maps : list (option BitstreamMap_t);
  handles : list (option nat);
  calloc_plan : list bool
}.

Definition set_maps (x : list (option BitstreamMap_t)) (m : memory) :=
  {| maps := x; handles := handles m; calloc_plan := calloc_plan m |}.
Definition set_handles (x : list (option nat)) (m : memory) :=
  {| maps := maps m; handles := x; calloc_plan := calloc_plan m |}.
Definition set_calloc_plan (x : list bool) (m : memory) :=
  {| maps := maps m; handles := handles m; calloc_plan := x |}.

(** [*h] and [*h = v] for a handle [h]. *)
Definition load_handle (h : nat) (m : memory) : outcome (option nat) :=
  match handles m !! h with
  | Some v => Done v
  | None => Undefined DanglingPointer
  end.

Definition store_handle (h : nat) (v : option nat) (m : memory)
    : outcome memory :=
  match handles m !! h with
  | Some _ => Done (set_handles (<[h := v]> (handles m)) m)
  | None => Undefined DanglingPointer
  end.

(** The object a non-null pointer points to. *)
Definition load_map (l : nat) (m : memory) : outcome BitstreamMap_t :=
  match maps m !! l with
  | Some (Some obj) => Done obj
  | _ => Undefined DanglingPointer
  end.

Definition store_map (l : nat) (obj : BitstreamMap_t) (m : memory)
    : outcome memory :=
  match maps m !! l with
  | Some (Some _) => Done (set_maps (<[l := Some obj]> (maps m)) m)
  | _ => Undefined DanglingPointer
  end.

(** [free(l)] for an object. *)
Definition free_map (l : nat) (m : memory) : outcome memory :=
  match maps m !! l with
  | Some (Some _) => Done (set_maps (<[l := None]> (maps m)) m)
  | _ => Undefined DanglingPointer
  end.

(** One call of [calloc]: does it succeed, and the memory afterwards. *)
Definition calloc (m : memory) : bool * memory :=
  match calloc_plan m with
  | [] => (true, m)
  | ok :: plan => (ok, set_calloc_plan plan m)
  end.

(** [calloc(entries, sizeof ...)] for one of the five arrays. *)
Definition calloc_array (entries : Z) (m : memory)
    : option (list Z) * memory :=
  let '(ok, m) := calloc m in
  ((if ok then Some (replicate (Z.to_nat entries) 0) else None), m).

(** What [calloc(1, sizeof(BitstreamMap_t))] returns: all bytes zero. *)
Definition zero_map : BitstreamMap_t :=
  {| stream_type := 0; stream_codec := 0; sample_alignment := 0;
     sample_count := 0; sample_count_idr := 0;
     sample_type := None; sample_size := None; sample_offset := None;
     sample_pts := None; sample_dts := None |}.

(** [init_bitstream_map(bitstream_map, entries)]; [bitstream_map] is the
    address of a handle, [entries] a [uint32_t]. *)
Definition init_bitstream_map (bitstream_map : nat) (entries : Z) (m : memory)
    : outcome (Z * memory) :=
  cur ← load_handle bitstream_map m;
  if negb (is_null cur) then Done (FAILURE, m)
  else if entries =? 0 then Done (FAILURE, m)
  else
    let '(ok, m) := calloc m in
    if negb ok then
      m ← store_handle bitstream_map None m;
      Done (FAILURE, m)
    else
      let l := length (maps m) in
      let m := set_maps (maps m ++ [Some zero_map]) m in
      m ← store_handle bitstream_map (Some l) m;
      let '(a_type, m) := calloc_array entries m in
      let '(a_size, m) := calloc_array entries m in
      let '(a_offset, m) := calloc_array entries m in
      let '(a_pts, m) := calloc_array entries m in
      let '(a_dts, m) := calloc_array entries m in
      m ← store_map l
            {| stream_type := 0; stream_codec := 0; sample_alignment := 0;
               sample_count := 0; sample_count_idr := 0;
               sample_type := a_type; sample_size := a_size;
               sample_offset := a_offset; sample_pts := a_pts;
               sample_dts := a_dts |} m;
      if is_null a_type || is_null a_size || is_null a_offset
         || is_null a_pts || is_null a_dts then
        (* the arrays that were obtained are freed, then the object *)
        m ← free_map l m;
        m ← store_handle bitstream_map None m;
        Done (FAILURE, m)
      else Done (SUCCESS, m).

(** [free_bitstream_map(bitstream_map)]: the arrays live in the object
    and go with it. *)
Definition free_bitstream_map (bitstream_map : nat) (m : memory)
    : outcome memory :=
  cur ← load_handle bitstream_map m;
  match cur with
  | None => Done m
  | Some l =>
      m ← free_map l m;
      store_handle bitstream_map None m
  end.


(** A map whose counters are zero and whose five arrays have [entries]
    zeroed slots each. *)
Definition zeroed_map (entries : Z) : BitstreamMap_t :=
  {| stream_type := 0; stream_codec := 0; sample_alignment := 0;
     sample_count := 0; sample_count_idr := 0;
     sample_type := Some (replicate (Z.to_nat entries) 0);
     sample_size := Some (replicate (Z.to_nat entries) 0);
     sample_offset := Some (replicate (Z.to_nat entries) 0);
     sample_pts := Some (replicate (Z.to_nat entries) 0);
     sample_dts := Some (replicate (Z.to_nat entries) 0) |}.

(** The six calls of [calloc] of [init_bitstream_map] all succeed. *)
Definition six_callocs_succeed (m : memory) : bool :=
  forallb id (take 6 (calloc_plan m)).

(* ================================================================== *)
(** * demuxer/filter.c: [idr_filtering] *)

(** The extraction modes (minivideo.h is not among the sources). *)
Inductive picture_extraction_mode :=
  | PICTURE_UNFILTERED
  | PICTURE_ORDERED
  | PICTURE_DISTRIBUTED.

(** [for (i = spspps; i < map->sample_count; i++)
       payload += map->sample_size[i];]  with [int payload]. *)
Definition sum_payload (map : BitstreamMap_t) (spspps : Z) : outcome Z :=
  for_range spspps (sample_count map)
    (fun i payload =>
       sizes ← deref (sample_size map);
       sz ← aget sizes i;
       Done (int32 (payload + sz)))
    0.

(** [(int)(((double)payload / (double)map->sample_count_idr) / 1.66)] *)
Definition frame_sizethreshold (payload count : Z) : outcome Z :=
  Double.to_int
    (Double.div (Double.div (Double.of_int payload) (Double.of_int count))
       Double.lit_1_66).

(** [(int)ceil(map->sample_count_idr * 0.03)] *)
Definition frame_borders (count : Z) : outcome Z :=
  Double.ceil_to_int (Double.mul (Double.of_int count) Double.lit_0_03).

(** The locals [temporary_sample_id[999]] and
    [temporary_totalsamples_idr]. *)
Record first_cut_state := {
  temporary_sample_id : list Z;
  temporary_totalsamples_idr : Z
}.

(** The body of the loop of the first cut; the comparison is made on
    [uint32_t], the type of [sample_size[]]. *)
Definition first_cut_body (map : BitstreamMap_t) (spspps threshold : Z)
    (i : Z) (c : first_cut_state) : outcome first_cut_state :=
  sizes ← deref (sample_size map);
  sz ← aget sizes (i + spspps);
  if uint32 threshold <? sz then
    ids ← aset (temporary_sample_id c) (temporary_totalsamples_idr c)
            (i + spspps);
    Done {| temporary_sample_id := ids;
            temporary_totalsamples_idr := temporary_totalsamples_idr c + 1 |}
  else Done c.

(** [for (i = frame_borders;
          i < (map->sample_count_idr - frame_borders); i++)] *)
Definition first_cut (map : BitstreamMap_t) (spspps threshold borders : Z)
    : outcome first_cut_state :=
  for_range borders (sample_count_idr map - borders)
    (first_cut_body map spspps threshold)
    {| temporary_sample_id := replicate 999 0;
       temporary_totalsamples_idr := 0 |}.

(** [(int)ceil(temporary_totalsamples_idr / (picture_number-1))]: the
    division is the division of [int]; [ceil] of its result, an integer,
    is that integer. *)
Definition frame_jump_of (total picture_number : Z) : outcome Z :=
  if picture_number - 1 =? 0 then Undefined DivisionByZero
  else Done (Z.quot total (picture_number - 1)).

Definition set_counts (count count_idr : Z) (map : BitstreamMap_t) :=
  {| stream_type := stream_type map; stream_codec := stream_codec map;
     sample_alignment := sample_alignment map;
     sample_count := count; sample_count_idr := count_idr;
     sample_type := sample_type map; sample_size := sample_size map;
     sample_offset := sample_offset map; sample_pts := sample_pts map;
     sample_dts := sample_dts map |}.

(** The four assignments that copy sample [from] of [src] to sample [to]
    of [dst]: [sample_type], [sample_pts], [sample_offset],
    [sample_size]. *)
Definition copy_sample (src : BitstreamMap_t) (from to : Z)
    (dst : BitstreamMap_t) : outcome BitstreamMap_t :=
  s ← deref (sample_type src); v ← aget s from;
  d ← deref (sample_type dst); d_type ← aset d to v;
  s ← deref (sample_pts src); v ← aget s from;
  d ← deref (sample_pts dst); d_pts ← aset d to v;
  s ← deref (sample_offset src); v ← aget s from;
  d ← deref (sample_offset dst); d_offset ← aset d to v;
  s ← deref (sample_size src); v ← aget s from;
  d ← deref (sample_size dst); d_size ← aset d to v;
  Done {| stream_type := stream_type dst; stream_codec := stream_codec dst;
          sample_alignment := sample_alignment dst;
          sample_count := sample_count dst;
          sample_count_idr := sample_count_idr dst;
          sample_type := Some d_type; sample_size := Some d_size;
          sample_offset := Some d_offset; sample_pts := Some d_pts;
          sample_dts := sample_dts dst |}.

(** The body of the loop of the second cut. *)
Definition second_cut_body (mode : picture_extraction_mode)
    (map : BitstreamMap_t) (spspps frame_jump : Z) (ids : list Z)
    (i : Z) (filtered : BitstreamMap_t) : outcome BitstreamMap_t :=
  match mode with
  | PICTURE_ORDERED =>
      id ← aget ids i;
      copy_sample map id (spspps + i) filtered
  | PICTURE_DISTRIBUTED =>
      id ← aget ids (i * frame_jump);
      copy_sample map id (spspps + i) filtered
  | PICTURE_UNFILTERED => Done filtered
  end.

(** What is written to [map_filtered] when [init_bitstream_map] has
    succeeded: the two counts, the SPS and PPS, the chosen IDR. *)
Definition write_filtered (mode : picture_extraction_mode)
    (map : BitstreamMap_t) (spspps : Z) (c : first_cut_state)
    (picture_number frame_jump : Z) (filtered : BitstreamMap_t)
    : outcome BitstreamMap_t :=
  let filtered :=
    set_counts (spspps + temporary_totalsamples_idr c)
      (temporary_totalsamples_idr c) filtered in
  filtered ← for_range 0 spspps (fun i f => copy_sample map i i f) filtered;
  for_range 0 picture_number
    (second_cut_body mode map spspps frame_jump (temporary_sample_id c))
    filtered.

(** The first clamp of [picture_number].  The counters of the map are
    [unsigned int] (bitstream.h is not among the sources; the number of
    entries is the [uint32_t] of [init_bitstream_map], and
    [print_bitstream_map] counts the samples with an [unsigned int]):
    the [int picture_number] is converted to [unsigned int] for the
    comparison, so that a negative number counts as a large one, and the
    assignment converts the counter to [int]. *)
Definition clamp_to_idr (map : BitstreamMap_t) (picture_number : Z) : Z :=
  if sample_count_idr map =? 0 then 0
  else if sample_count_idr map <? uint32 picture_number
       then int32 (sample_count_idr map)
  else picture_number.

(** The [else] branch of the test on the mode.  [h] is the caller's
    handle, [map] the object it points to.  The result is the return
    code, the value of the local [map_filtered] at the [return], and the
    memory once the locals are gone. *)
Definition idr_filtering_else (h : nat) (map : BitstreamMap_t) (picture_number : Z)
    (mode : picture_extraction_mode) (m : memory)
    : outcome (Z * option nat * memory) :=
  let spspps := int32 (sample_count map - sample_count_idr map) in
  payload ← sum_payload map spspps;
  threshold ← frame_sizethreshold payload (sample_count_idr map);
  borders ← frame_borders (sample_count_idr map);
  c ← first_cut map spspps threshold borders;
  let total := temporary_totalsamples_idr c in
  let picture_number :=
    if total <? picture_number then total else picture_number in
  frame_jump ← frame_jump_of total picture_number;
  (* BitstreamMap_t *map_filtered = NULL; *)
  let map_filtered := length (handles m) in
  let m := set_handles (handles m ++ [None]) m in
  '(retcode, m) ← init_bitstream_map map_filtered (uint32 (spspps + total)) m;
  if retcode =? 0 then
    Done (retcode, None, set_handles (take map_filtered (handles m)) m)
  else
    p ← load_handle map_filtered m;
    l ← deref p;
    filtered ← load_map l m;
    filtered ← write_filtered mode map spspps c picture_number frame_jump
                 filtered;
    m ← store_map l filtered m;
    m ← free_bitstream_map h m;
    (* bitstream_map_pointer = &map_filtered;  writes the parameter *)
    Done (picture_number, Some l,
          set_handles (take map_filtered (handles m)) m).

Definition idr_filtering_frame (bitstream_map_pointer : option nat)
    (picture_number : Z) (mode : picture_extraction_mode) (m : memory)
    : outcome (Z * option nat * memory) :=
  match bitstream_map_pointer with
  | None => Done (FAILURE, None, m)
  | Some h =>
      cur ← load_handle h m;
      match cur with
      | None => Done (FAILURE, None, m)
      | Some l =>
          map ← load_map l m;
          let picture_number := clamp_to_idr map picture_number in
          match mode with
          | PICTURE_UNFILTERED => Done (picture_number, None, m)
          | _ => idr_filtering_else h map picture_number mode m
          end
      end
  end.

(** [idr_filtering(bitstream_map_pointer, picture_number,
    picture_extraction_mode)]: what the caller gets, the return code and
    the memory. *)
Definition idr_filtering (bitstream_map_pointer : option nat)
    (picture_number : Z) (mode : picture_extraction_mode) (m : memory)
    : outcome (Z * memory) :=
  '(retcode, _, m) ← idr_filtering_frame bitstream_map_pointer
                       picture_number mode m;
  Done (retcode, m).

(* ================================================================== *)
(** * Views of a map, to state the properties of the filter *)

Definition array_of (a : option (list Z)) : list Z := default [] a.

(** [map->sample_size[k]]. *)
Definition size_at (map : BitstreamMap_t) (k : Z) : Z :=
  default 0 (array_of (sample_size map) !! Z.to_nat k).

(** [map->sample_dts[k]], when it is there. *)
Definition dts_at (map : BitstreamMap_t) (k : Z) : option Z :=
  if k <? 0 then None else array_of (sample_dts map) !! Z.to_nat k.

(** The four fields of sample [k] that the filter copies: type, pts,
    offset, size. *)
Definition sample_at (map : BitstreamMap_t) (k : Z) : option (Z * Z * Z * Z) :=
  if k <? 0 then None
  else
    t ← array_of (sample_type map) !! Z.to_nat k;
    p ← array_of (sample_pts map) !! Z.to_nat k;
    o ← array_of (sample_offset map) !! Z.to_nat k;
    s ← array_of (sample_size map) !! Z.to_nat k;
    Some (t, p, o, s).

(** The five arrays are allocated, with [n] slots each. *)
Definition arrays_len (map : BitstreamMap_t) (n : nat) : Prop :=
  exists a_type a_size a_offset a_pts a_dts,
    sample_type map = Some a_type /\ length a_type = n /\
    sample_size map = Some a_size /\ length a_size = n /\
    sample_offset map = Some a_offset /\ length a_offset = n /\
    sample_pts map = Some a_pts /\ length a_pts = n /\
    sample_dts map = Some a_dts /\ length a_dts = n.

(** The number of samples before the IDR samples (SPS and PPS), and the
    sum of the sizes of the IDR samples. *)
Definition spspps_of (map : BitstreamMap_t) : Z :=
  sample_count map - sample_count_idr map.

Definition idr_payload (map : BitstreamMap_t) : Z :=
  foldr Z.add 0 (drop (Z.to_nat (spspps_of map)) (array_of (sample_size map))).

(** A map as the demuxer builds it: the IDR samples are the last
    [sample_count_idr] of [sample_count] samples, the arrays have
    [sample_count] slots, the counts fit an [int], the sizes a
    [uint32_t], and the sizes of the IDR samples add up within an
    [int]. *)
Record valid_map (map : BitstreamMap_t) : Prop := {
  valid_idr : 0 <= sample_count_idr map <= sample_count map;
  valid_count : sample_count map < 2 ^ 31;
  valid_arrays : arrays_len map (Z.to_nat (sample_count map));
  valid_sizes : Forall (fun s => 0 <= s < 2 ^ 32) (array_of (sample_size map));
  valid_payload : idr_payload map < 2 ^ 31
}.

(** The threshold and the border that the filter computes for a map. *)
Definition threshold_of (map : BitstreamMap_t) : Z :=
  match frame_sizethreshold (idr_payload map) (sample_count_idr map) with
  | Done t => t
  | Undefined _ => 0
  end.

Definition borders_of (map : BitstreamMap_t) : Z :=
  match frame_borders (sample_count_idr map) with
  | Done b => b
  | Undefined _ => 0
  end.

(** The samples, from the one at [from] to the one before [to], whose
    size exceeds the threshold, in the order of the map. *)
Definition above_threshold (map : BitstreamMap_t) (from to : Z) : list Z :=
  filter (fun k => threshold_of map < size_at map k) (seqZ from (to - from)).

(** The samples that survive the first cut. *)
Definition survivors (map : BitstreamMap_t) : list Z :=
  above_threshold map (spspps_of map + borders_of map)
    (sample_count map - borders_of map).

(** The index in [temporary_sample_id] that the second cut reads for the
    [i]-th picture. *)
Definition second_cut_index (mode : picture_extraction_mode)
    (frame_jump i : Z) : Z :=
  match mode with
  | PICTURE_DISTRIBUTED => i * frame_jump
  | _ => i
  end.

(** The sample that the second cut copies to the [i]-th IDR slot, for a
    filter asked [picture_number] pictures (after the two clamps):
    [temporary_sample_id[i]] or [temporary_sample_id[i * frame_jump]],
    where the array holds the survivors and then zeros. *)
Definition picked (mode : picture_extraction_mode) (map : BitstreamMap_t)
    (picture_number i : Z) : Z :=
  let ids := survivors map ++ replicate (999 - length (survivors map)) 0 in
  let total := Z.of_nat (length (survivors map)) in
  match mode with
  | PICTURE_DISTRIBUTED =>
      default 0 (ids !! Z.to_nat (i * Z.quot total (picture_number - 1)))
  | _ => default 0 (ids !! Z.to_nat i)
  end.

(* ================================================================== *)
(** * Example data *)

(** A map of two parameter sets and [length idr_sizes] IDR samples.  The
    numbers that stand for the sample types are arbitrary (7 for a
    parameter set, 5 for an IDR); every sample has a nonzero [dts]. *)
Definition example_map_of (idr_sizes : list Z) : BitstreamMap_t :=
  let n := (2 + length idr_sizes)%nat in
  {| stream_type := 1; stream_codec := 1; sample_alignment := 1;
     sample_count := Z.of_nat n;
     sample_count_idr := Z.of_nat (length idr_sizes);
     sample_type := Some ([7; 7] ++ replicate (length idr_sizes) 5);
     sample_size := Some ([20; 8] ++ idr_sizes);
     sample_offset := Some ((fun k => 1000 + 200 * k) <$> seqZ 0 (Z.of_nat n));
     sample_pts := Some ((fun k => 40 * k) <$> seqZ 0 (Z.of_nat n));
     sample_dts := Some ((fun k => 40 * k + 1) <$> seqZ 0 (Z.of_nat n)) |}.

(** Six IDR samples: the border is 1, the threshold 60, and the four IDR
    samples in the middle survive the first cut. *)
Definition example_map : BitstreamMap_t :=
  example_map_of [100; 90; 110; 95; 105; 100].

(** One map on the heap, one handle that points to it, and every
    allocation succeeds. *)
Definition example_memory : memory :=
  {| maps := [Some example_map]; handles := [Some 0%nat]; calloc_plan := [] |}.

(** A context in which SPS 0 and PPS 0 are cached and the slice refers
    to PPS 0. *)
Definition example_context : DecodingContext_t :=
  {| bitstr := Some bitstream_handle;
     active_nalu := Some {| nal_unit_type := 5 |};
     sps_array := <[0%nat := Some {| sps_seq_parameter_set_id := 0 |}]>
                    (replicate MAX_SPS None);
     pps_array := <[0%nat := Some {| pic_parameter_set_id := 0;
                                     seq_parameter_set_id := 0 |}]>
                    (replicate MAX_PPS None);
     active_sps := 0; active_pps := 0;
     active_slice := Some {| slice_pic_parameter_set_id := 0 |};
     output_format := 0; picture_quality := 75; picture_number := 1;
     picture_extractionmode := 0;
     decoderRunning := true; IdrPicFlag := false;
     idrCounter := 0; frameCounter := 0; errorCounter := 0;
     normAdjust4x4 := zero_table 6 4 4;
     normAdjust8x8 := zero_table 6 8 8 |}.

(** An input of three samples, an SPS, a PPS and an IDR that all decode;
    after them the feed fails and no header is found. *)
Definition example_env (k : nat) : Event :=
  match k with
  | 0%nat => {| ev_feed := SUCCESS; ev_header := true;
                ev_type := NALU_TYPE_SPS; ev_handler := true |}
  | 1%nat => {| ev_feed := SUCCESS; ev_header := true;
                ev_type := NALU_TYPE_PPS; ev_handler := true |}
  | 2%nat => {| ev_feed := SUCCESS; ev_header := true;
                ev_type := NALU_TYPE_IDR; ev_handler := true |}
  | _ => {| ev_feed := FAILURE; ev_header := false;
            ev_type := 0; ev_handler := false |}
  end.

(** An empty heap and one handle that is NULL. *)
Definition null_handle_memory : memory :=
  {| maps := []; handles := [None]; calloc_plan := [] |}.

(* ================================================================== *)
(** * utils.c: the arithmetic helpers *)

(** The outcome of an expression on [int].  C leaves undefined the
    overflow of a signed operation, and a shift whose count is negative
    or not below the width, or that moves a negative value to the
    left. *)
Inductive arith (A : Type) : Type :=
  | Ok (a : A)
  | SignedOverflow
  | InvalidShift.

Arguments Ok {A} a.
Arguments SignedOverflow {A}.
Arguments InvalidShift {A}.

#[global] Instance arith_ret : MRet arith := fun A a => Ok a.
#[global] Instance arith_bind : MBind arith := fun A B f c =>
  match c with
  | Ok a => f a
  | SignedOverflow => SignedOverflow
  | InvalidShift => InvalidShift
  end.

(** The result of an operation on [int] whose mathematical value is
    [z]. *)
Definition int_op (z : Z) : arith Z :=
  if Double.in_int z then Ok z else SignedOverflow.

(** [x << k] on [int]: defined for a count in [0, 31] and a value
    [x >= 0] such that [x * 2^k] is an [int]. *)
Definition shl (x k : Z) : arith Z :=
  if (k <? 0) || (32 <=? k) || (x <? 0) then InvalidShift
  else int_op (x * 2 ^ k).

(** [x >> k] on [int].  For a negative [x] the result is
    implementation-defined; it is the arithmetic shift here, as with
    every compiler the library is built with. *)
Definition shr (x k : Z) : arith Z :=
  if (k <? 0) || (32 <=? k) then InvalidShift else Ok (Z.shiftr x k).

(** [x >> k] on [unsigned int], for an unsigned count. *)
Definition ushr (x k : Z) : arith Z :=
  if 32 <=? k then InvalidShift else Ok (Z.shiftr x k).

(** The value a [short] holds after the conversion of [z] (16 bits, two's
    complement). *)
Definition int16 (z : Z) : Z := (z + 2 ^ 15) mod 2 ^ 16 - 2 ^ 15.

Definition fast_mod8 (n : Z) : Z := Z.land n 7.

Definition fast_div8 (n : Z) : Z := Z.shiftr n 3.

Definition smin (a b : Z) : Z := if a <? b then a else b.
Definition smax (a b : Z) : Z := if a >? b then a else b.
Definition imin (a b : Z) : Z := if a <? b then a else b.
Definition imax (a b : Z) : Z := if a >? b then a else b.
Definition i64min (a b : Z) : Z := if a <? b then a else b.
Definition i64max (a b : Z) : Z := if a >? b then a else b.

Definition imedian (a b c : Z) : Z :=
  if a >? b then
    if b >? c then b
    else if a >? c then c
    else a
  else
    if a >? c then a
    else if b >? c then c
    else b.

(** [short y = (short)(x >> SHORT_BITS); return (short)((x ^ y) - y);]
    with [SHORT_BITS] 15: the operands are promoted to [int], where the
    subtraction cannot overflow. *)
Definition sabs (x : Z) : Z :=
  let y := int16 (Z.shiftr x 15) in
  int16 (Z.lxor x y - y).

(** [int y = x >> INT_BITS; return (x ^ y) - y;] with [INT_BITS] 31. *)
Definition iabs (x : Z) : arith Z :=
  let y := Z.shiftr x 31 in
  int_op (Z.lxor x y - y).

Definition iabs2 (x : Z) : arith Z := int_op (x * x).

(** [(x > 0) - (x < 0)] *)
Definition isign (x : Z) : Z :=
  (if x >? 0 then 1 else 0) - (if x <? 0 then 1 else 0).

(** [((b) < 0) ? -iabs(a) : iabs(a)] *)
Definition isignab (a b : Z) : arith Z :=
  if b <? 0 then r ← iabs a; int_op (- r) else iabs a.

(** [(x + (1 << (a-1))) >> a], the expression that four of the shifts
    share. *)
Definition add_half_shr (x a : Z) : arith Z :=
  k ← int_op (a - 1);
  h ← shl 1 k;
  s ← int_op (x + h);
  shr s a.

(** [(a > 0) ? ((x + (1 << (a-1))) >> a) : (x << (-a))] *)
Definition rshift_rnd (x a : Z) : arith Z :=
  if a >? 0 then add_half_shr x a
  else k ← int_op (- a); shl x k.

(** [(x > 0) ? ((x + (1 << (a-1))) >> a)
             : (-((iabs(x) + (1 << (a-1))) >> a))] *)
Definition rshift_rnd_sign (x a : Z) : arith Z :=
  if x >? 0 then add_half_shr x a
  else
    ax ← iabs x;
    r ← add_half_shr ax a;
    int_op (- r).

Definition rshift_rnd_sf (x a : Z) : arith Z := add_half_shr x a.

(** [(x + o) >> a] *)
Definition shift_off_sf (x o a : Z) : arith Z :=
  s ← int_op (x + o);
  shr s a.

(** [(x + (1 << (a-1))) >> a] on [unsigned int]: [a - 1] wraps, the
    shift of the [int] 1 is a shift on [int], the sum wraps. *)
Definition rshift_rnd_us_sf (x a : Z) : arith Z :=
  h ← shl 1 (uint32 (a - 1));
  ushr (uint32 (x + h)) a.

(** [(a > 0) ? ((x + (1 << (a-1))) >> a) : x] on [unsigned int]. *)
Definition rshift_rnd_us (x a : Z) : arith Z :=
  if a >? 0 then rshift_rnd_us_sf x a else Ok x.

Definition iClip1 (high x : Z) : Z :=
  let x := imax x 0 in
  let x := imin x high in
  x.

Definition sClip1 (high x : Z) : Z :=
  let x := smax x 0 in
  let x := smin x high in
  x.

Definition iClip3 (low high x : Z) : Z :=
  let x := imax x low in
  let x := imin x high in
  x.

Definition sClip3 (low high x : Z) : Z :=
  let x := smax x low in
  let x := smin x high in
  x.

(** [iClip3(0, (1 << BitDepth) - 1, x)] *)
Definition iClip1_YCbCr (x BitDepth : Z) : arith Z :=
  h ← shl 1 BitDepth;
  m ← int_op (h - 1);
  Ok (iClip3 0 m x).

(** ** The helpers on [double] *)

(** [a > b] on [double]. *)
Definition dgt (a b : spec_float) : bool :=
  match SFcompare a b with
  | Some Gt => true
  | _ => false
  end.

(** The [int] constant 0 converted to [double]. *)
Definition dzero : spec_float := S754_zero false.

Definition dmin (a b : spec_float) : spec_float :=
  if Double.ltb a b then a else b.

Definition dmax (a b : spec_float) : spec_float :=
  if dgt a b then a else b.

(** A [double] with the sign bit of its NaN, which [spec_float] leaves
    out: [dabs] returns its argument as it is, sign bit included, when
    the comparison is false.  (The payload of a NaN is kept by every
    operation below and is left out.) *)
Inductive cdouble :=
  | CZero (s : bool)
  | CInfinity (s : bool)
  | CNaN (s : bool)
  | CFinite (s : bool) (m : positive) (e : Z).

Definition value_of (x : cdouble) : spec_float :=
  match x with
  | CZero s => S754_zero s
  | CInfinity s => S754_infinity s
  | CNaN _ => S754_nan
  | CFinite s m e => S754_finite s m e
  end.

(** [-x]: the sign bit is flipped, that of a NaN too. *)
Definition cneg (x : cdouble) : cdouble :=
  match x with
  | CZero s => CZero (negb s)
  | CInfinity s => CInfinity (negb s)
  | CNaN s => CNaN (negb s)
  | CFinite s m e => CFinite (negb s) m e
  end.

(** The absolute value of IEEE 754 ([fabs]): the sign bit is cleared. *)
Definition cabs (x : cdouble) : cdouble :=
  match x with
  | CZero _ => CZero false
  | CInfinity _ => CInfinity false
  | CNaN _ => CNaN false
  | CFinite _ m e => CFinite false m e
  end.

Definition sign_bit (x : cdouble) : bool :=
  match x with
  | CZero s | CInfinity s | CNaN s | CFinite s _ _ => s
  end.

(** [((x) < 0) ? -(x) : (x)] *)
Definition dabs (x : cdouble) : cdouble :=
  if Double.ltb (value_of x) dzero then cneg x else x.

Definition dabs2 (x : spec_float) : spec_float := Double.mul x x.

Definition dClip1 (high x : spec_float) : spec_float :=
  let x := dmax x dzero in
  let x := dmin x high in
  x.

Definition dClip3 (low high x : spec_float) : spec_float :=
  let x := dmax x low in
  let x := dmin x high in
  x.

Definition is_nan (x : spec_float) : bool :=
  match x with S754_nan => true | _ => false end.

(* ================================================================== *)
(** * Inputs of the dispatch loop *)

(** An iteration that only counts an error: no header is found, the type
    of the NAL unit is not one of the five that the [switch] knows, or
    the handler of the unit fails. *)
Definition counts_error (ev : Event) : bool :=
  if ev_header ev then
    if ev_type ev =? NALU_TYPE_SLICE then false
    else if (ev_type ev =? NALU_TYPE_IDR) || (ev_type ev =? NALU_TYPE_SEI)
            || (ev_type ev =? NALU_TYPE_SPS) || (ev_type ev =? NALU_TYPE_PPS)
    then negb (ev_handler ev)
    else true
  else true.

(** The sample is an IDR slice that [decode_slice] decodes. *)
Definition decodes_idr (ev : Event) : bool :=
  ev_header ev && (ev_type ev =? NALU_TYPE_IDR) && ev_handler ev.

(** A sample read without error that holds a slice that is not an IDR
    slice. *)
Definition skipped_slice (ev : Event) : bool :=
  (ev_feed ev =? SUCCESS) && ev_header ev && (ev_type ev =? NALU_TYPE_SLICE).

(** An input of access unit delimiters (type 9), which the decoder does
    not support, read without error. *)
Definition delimiters_env (k : nat) : Event :=
  {| ev_feed := SUCCESS; ev_header := true; ev_type := 9;
     ev_handler := false |}.

(** An input of slices that are not IDR slices, read without error. *)
Definition slices_env (k : nat) : Event :=
  {| ev_feed := SUCCESS; ev_header := true; ev_type := NALU_TYPE_SLICE;
     ev_handler := false |}.

(* ================================================================== *)
(** * utils.c: [calloc2d] and [free2d] *)

(** The heap of the two-dimensional arrays: the blocks of [int *] (a
    slot is NULL or the address of a row), the blocks of [int], a freed
    block being [None]; and for each coming allocation whether it
    succeeds (it does once the list is used up). *)
Record heap2d := {
  tables : list (option (list (option nat)));
  rows : list (option (list Z));
  alloc_plan : list bool
}.

Definition set_tables (x : list (option (list (option nat)))) (h : heap2d) :=
  {| tables := x; rows := rows h; alloc_plan := alloc_plan h |}.
Definition set_rows (x : list (option (list Z))) (h : heap2d) :=
  {| tables := tables h; rows := x; alloc_plan := alloc_plan h |}.
Definition set_alloc_plan (x : list bool) (h : heap2d) :=
  {| tables := tables h; rows := rows h; alloc_plan := x |}.

(** One allocation: does it succeed, and the heap afterwards. *)
Definition alloc2d (h : heap2d) : bool * heap2d :=
  match alloc_plan h with
  | [] => (true, h)
  | ok :: plan => (ok, set_alloc_plan plan h)
  end.

Definition load_table (t : nat) (h : heap2d) : outcome (list (option nat)) :=
  match tables h !! t with
  | Some (Some slots) => Done slots
  | _ => Undefined DanglingPointer
  end.

(** [t[i] = v] for a block [t] of [int *]. *)
Definition store_slot (t : nat) (i : Z) (v : option nat) (h : heap2d)
    : outcome heap2d :=
  slots ← load_table t h;
  slots ← aset slots i v;
  Done (set_tables (<[t := Some slots]> (tables h)) h).

(** [free(p)] for a pointer to a row: nothing for NULL. *)
Definition free_row (p : option nat) (h : heap2d) : outcome heap2d :=
  match p with
  | None => Done h
  | Some r =>
      match rows h !! r with
      | Some (Some _) => Done (set_rows (<[r := None]> (rows h)) h)
      | _ => Undefined DanglingPointer
      end
  end.

(** [array2d_ptr[i]] when [array2d_ptr] is the address of one variable
    (as in the two callers, which pass [&array2d]): the variable for
    [i == 0], and a read outside of it for any other [i]. *)
Definition index_variable {A} (v : A) (i : Z) : outcome A :=
  if i =? 0 then Done v else Undefined OutOfBounds.

(** [free2d(&array2d, x)], [array2d] being the value of the variable.
    [*array2d_ptr[i]] is [*(array2d_ptr[i])]; no statement writes the
    variable. *)
Definition free2d (array2d : option nat) (x : Z) (h : heap2d)
    : outcome heap2d :=
  t ← deref array2d;
  slots ← load_table t h;
  first ← aget slots 0;
  if is_null first then Done h
  else
    h ← for_range 0 x
          (fun i h =>
             p ← index_variable array2d i;
             t ← deref p;
             slots ← load_table t h;
             r ← aget slots 0;
             if is_null r then Done h
             else
               h ← free_row r h;
               store_slot t 0 None h)
          h;
    slots ← load_table t h;
    r ← aget slots 0;
    h ← free_row r h;
    store_slot t 0 None h.

(** The [n] allocations to come all succeed. *)
Definition allocations_succeed (n : nat) (h : heap2d) : bool :=
  forallb id (take n (alloc_plan h)).

(** The body of the loop of [calloc2d]: [array2d[i] = calloc(y, ...)],
    and the call of [free2d] when the row is NULL; [t] is the value of
    [array2d]. *)
Definition calloc2d_row (t : nat) (x y : Z) (i : Z) (h : heap2d)
    : outcome heap2d :=
  let '(ok, h) := alloc2d h in
  if ok then
    let r := length (rows h) in
    let h := set_rows (rows h ++ [Some (replicate (Z.to_nat y) 0)]) h in
    store_slot t i (Some r) h
  else
    h ← store_slot t i None h;
    free2d (Some t) x h.

(** [calloc2d(x, y)] for [x >= 1] and [y >= 1]: the value returned and
    the heap. *)
Definition calloc2d (x y : Z) (h : heap2d) : outcome (option nat * heap2d) :=
  let '(ok, h) := alloc2d h in
  if negb ok then Done (None, h)
  else
    let t := length (tables h) in
    let h := set_tables (tables h ++ [Some (replicate (Z.to_nat x) None)]) h in
    h ← for_range 0 x (calloc2d_row t x y) h;
    Done (Some t, h).

(** [array2d[i][j]] in a heap, when it is there. *)
Definition cell2d (h : heap2d) (array2d : nat) (i j : Z) : option Z :=
  if (i <? 0) || (j <? 0) then None
  else
    slots ← tables h !! array2d ≫= id;
    r ← slots !! Z.to_nat i ≫= id;
    row ← rows h !! r ≫= id;
    row !! Z.to_nat j.

(** The row that slot [i] of a table points to. *)
Definition slot2d (h : heap2d) (array2d : nat) (i : Z) : option (option nat) :=
  if i <? 0 then None
  else slots ← tables h !! array2d ≫= id; slots !! Z.to_nat i.

(** The addresses [r], [r + 1], ... of [n] rows allocated one after the
    other. *)
Definition fresh_rows (r n : nat) : list (option nat) :=
  (fun k => Some (r + k)%nat) <$> seq 0 n.

(** An empty heap; [plan] says which of the allocations to come
    succeed. *)
Definition empty_heap2d (plan : list bool) : heap2d :=
  {| tables := []; rows := []; alloc_plan := plan |}.

(** A table of three rows of two [int]. *)
Definition example_heap2d : heap2d :=
  {| tables := [Some [Some 0%nat; Some 1%nat; Some 2%nat]];
     rows := [Some [1; 2]; Some [3; 4]; Some [5; 6]];
     alloc_plan := [] |}.

(** Two handles to the example map. *)
Definition aliased_memory : memory :=
  {| maps := [Some example_map]; handles := [Some 0%nat; Some 0%nat];
     calloc_plan := [] |}.

(** The example memory when the next allocation fails. *)
Definition exhausted_memory : memory :=
  {| maps := [Some example_map]; handles := [Some 0%nat];
     calloc_plan := [false] |}.

(** A map of 1100 IDR samples of one size: the border is 33, and the
    1034 samples between the borders survive the first cut. *)
Definition crowded_map : BitstreamMap_t := example_map_of (replicate 1100 100).

Definition crowded_memory : memory :=
  {| maps := [Some crowded_map]; handles := [Some 0%nat]; calloc_plan := [] |}.

(** A heap where the second allocation fails, and one where the third
    does. *)
Definition second_fails_heap2d : heap2d := empty_heap2d [true; false].

Definition third_fails_heap2d : heap2d := empty_heap2d [true; true; false].



(* ================================================================== *)
(** * Properties *)

(** ** Loops and arrays *)

Lemma bind_Done {A B} (c : outcome A) (f : A -> outcome B) (b : B) :
  c ≫= f = Done b -> exists a, c = Done a /\ f a = Done b.
Proof. destruct c as [a|why]; simpl; [eauto | discriminate]. Qed.

Lemma for_range_empty {S} (a b : Z) (body : Z -> S -> outcome S) (s : S) :
  b <= a -> for_range a b body s = Done s.
Proof.
  intros H. unfold for_range.
  replace (Z.to_nat (b - a)) with 0%nat by lia. reflexivity.
Qed.

Lemma for_range_step {S} (a b : Z) (body : Z -> S -> outcome S) (s : S) :
  a < b ->
  for_range a b body s = body a s ≫= for_range (a + 1) b body.
Proof.
  intros H. unfold for_range.
  replace (Z.to_nat (b - a)) with (Datatypes.S (Z.to_nat (b - (a + 1)))) by lia.
  reflexivity.
Qed.

Lemma aget_Done {A} (a : list A) (i : Z) (v : A) :
  aget a i = Done v <-> 0 <= i /\ a !! Z.to_nat i = Some v.
Proof.
  unfold aget. destruct (Z.ltb_spec i 0).
  - split; [discriminate | lia].
  - destruct (a !! Z.to_nat i) eqn:E; split; intros H'.
    + injection H' as ->. auto.
    + destruct H' as [_ H']. congruence.
    + discriminate.
    + destruct H' as [_ H']. discriminate.
Qed.

Lemma aget_in_range {A} (a : list A) (i : Z) :
  0 <= i < Z.of_nat (length a) -> exists v, aget a i = Done v.
Proof.
  intros H. destruct (lookup_lt_is_Some_2 a (Z.to_nat i)) as [v Hv]; [lia|].
  exists v. apply aget_Done. split; [lia | exact Hv].
Qed.

Lemma aset_in_range {A} (a : list A) (i : Z) (v : A) :
  0 <= i < Z.of_nat (length a) -> aset a i v = Done (<[Z.to_nat i := v]> a).
Proof.
  intros H. unfold aset.
  destruct (Z.leb_spec 0 i); [|lia].
  destruct (Z.ltb_spec i (Z.of_nat (length a))); [reflexivity | lia].
Qed.

(* ================================================================== *)
(** ** [is_prime] *)

Lemma rem_zero_even (n i : Z) :
  Z.even i = true -> Z.rem n i = 0 -> Z.even n = true.
Proof.
  intros Hi Hr.
  destruct (Z.eq_dec i 0) as [->|Hne].
  - destruct n; cbn in Hr; [reflexivity | discriminate | discriminate].
  - pose proof (Z.quot_rem' n i) as E. rewrite Hr, Z.add_0_r in E.
    rewrite E, Z.even_mul, Hi. reflexivity.
Qed.

Lemma is_prime_candidates_even (fuel : nat) (n i : Z) :
  Z.even i = true ->
  Forall (fun c => Z.even c = true) (is_prime_candidates fuel n i).
Proof.
  revert i. induction fuel as [|fuel IH]; intros i Hi; simpl.
  - constructor.
  - destruct (Double.ltb _ _); [|constructor].
    constructor; [exact Hi|].
    destruct (_ && _); [constructor|].
    apply IH. rewrite Z.even_add, Hi. reflexivity.
Qed.

Lemma is_prime_candidates_below_sqrt (fuel : nat) (n i : Z) :
  Forall (fun c => Double.ltb (Double.of_int c)
                     (Double.sqrt (Double.of_int n)) = true)
    (is_prime_candidates fuel n i).
Proof.
  revert i. induction fuel as [|fuel IH]; intros i; simpl; [constructor|].
  destruct (Double.ltb _ _) eqn:E; [|constructor].
  constructor; [exact E|].
  destruct (_ && _); [constructor | apply IH].
Qed.

Lemma is_prime_loop_rejects (fuel : nat) (n i : Z) :
  is_prime_loop fuel n i = Some 0 ->
  exists c, c ∈ is_prime_candidates fuel n i /\ Z.rem n c = 0 /\ c <> n.
Proof.
  revert i. induction fuel as [|fuel IH]; intros i; simpl; [discriminate|].
  destruct (Double.ltb _ _); [|discriminate].
  destruct (_ && _) eqn:E.
  - intros _. apply andb_true_iff in E as [E1 E2].
    exists i. split; [left|]. split; [lia|].
    apply negb_true_iff in E2. lia.
  - intros H. destruct (IH _ H) as (c & Hc & Hr).
    exists c. split; [right; exact Hc | exact Hr].
Qed.

Lemma is_prime_rejects_even_only (n : Z) :
  n <= 9999 -> is_prime n = Some 0 -> Z.even n = true.
Proof.
  intros Hn. unfold is_prime.
  destruct (Z.ltb_spec 9999 n); [lia|].
  intros Hp. apply is_prime_loop_rejects in Hp as (c & Hc & Hr & _).
  pose proof (is_prime_candidates_even 5000 n 2 eq_refl) as Hall.
  rewrite Forall_forall in Hall.
  apply (rem_zero_even n c); [apply Hall; exact Hc | exact Hr].
Qed.

Lemma nine_composite : composite 9.
Proof. exists 3, 3. lia. Qed.

Lemma nine_divisors_odd (d : Z) : 1 < d < 9 -> (d | 9) -> Z.odd d = true.
Proof.
  intros Hd [k Hk].
  assert (d = 2 \/ d = 3 \/ d = 4 \/ d = 5 \/ d = 6 \/ d = 7 \/ d = 8) as Hc by lia.
  destruct Hc as [->|[->|[->|[->|[->|[->| ->]]]]]]; try reflexivity; lia.
Qed.

(** C9. The loop of [is_prime] starts at 2 and steps by 2: every candidate
    divisor it tries is even and below [sqrt(n)] (compared in binary64),
    a number is rejected only through such a candidate, and so 9, a
    composite number below 10000 whose proper divisors are all odd, is
    reported prime. *)
Theorem is_prime_tries_even_divisors_only :
  (forall (fuel : nat) (n : Z),
      Forall (fun c => Z.even c = true /\
                       Double.ltb (Double.of_int c)
                         (Double.sqrt (Double.of_int n)) = true)
        (is_prime_candidates fuel n 2)) /\
  (forall n, is_prime n = Some 0 ->
      9999 < n \/
      exists c, c ∈ is_prime_candidates 5000 n 2 /\ Z.rem n c = 0 /\ c <> n) /\
  (exists n, 0 <= n < 10000 /\ composite n /\
             (forall d, 1 < d < n -> (d | n) -> Z.odd d = true) /\
             is_prime n = Some 1).
Proof.
  split; [|split].
  - intros fuel n. apply Forall_and. split.
    + apply is_prime_candidates_even. reflexivity.
    + apply is_prime_candidates_below_sqrt.
  - intros n. unfold is_prime. destruct (Z.ltb_spec 9999 n); [left; lia|].
    intros H'. right. apply is_prime_loop_rejects. exact H'.
  - exists 9. split; [lia|]. split; [apply nine_composite|].
    split; [apply nine_divisors_odd|]. vm_compute. reflexivity.
Qed.

(* ================================================================== *)
(** ** [computeNormAdjust] *)

Lemma tabulate_of_length {A} (d : A) (l : list A) (n : nat) :
  length l = n -> l = tabulate n (fun i => default d (l !! i)).
Proof.
  intros Hn. apply list_eq. intros i. unfold tabulate.
  rewrite list_lookup_fmap.
  destruct (decide (i < n)%nat) as [Hi|Hi].
  - rewrite lookup_seq_lt by exact Hi. simpl.
    destruct (lookup_lt_is_Some_2 l i) as [v Hv]; [lia|].
    rewrite Hv. reflexivity.
  - rewrite lookup_seq_ge by lia. simpl.
    apply lookup_ge_None. lia.
Qed.

Lemma tabulate_ext_in {A} (n : nat) (f g : nat -> A) :
  (forall i, (i < n)%nat -> f i = g i) -> tabulate n f = tabulate n g.
Proof.
  intros H. unfold tabulate. apply list_fmap_ext.
  intros i x Hx. apply lookup_seq in Hx as [-> Hx]. apply H. lia.
Qed.

Lemma table_dims_tabulate (a b c : nat) (t : table3) :
  table_dims a b c t ->
  t = tabulate a (fun q => tabulate b (fun i => tabulate c (fun j =>
        default 0 (tlookup t q i j)))).
Proof.
  intros [Ha Hall].
  rewrite (tabulate_of_length [] t a Ha) at 1.
  apply tabulate_ext_in. intros q Hq.
  destruct (lookup_lt_is_Some_2 t q) as [plane Hp]; [lia|].
  rewrite Forall_forall in Hall.
  destruct (Hall plane) as [Hb Hrows]; [eapply list_elem_of_lookup_2; exact Hp|].
  cbv beta. rewrite Hp. simpl.
  rewrite (tabulate_of_length [] plane b Hb) at 1.
  apply tabulate_ext_in. intros i Hi.
  destruct (lookup_lt_is_Some_2 plane i) as [row Hr]; [lia|].
  rewrite Forall_forall in Hrows.
  pose proof (Hrows row (list_elem_of_lookup_2 _ _ _ Hr)) as Hc.
  cbv beta. rewrite Hr. simpl.
  rewrite (tabulate_of_length 0 row c Hc) at 1.
  apply tabulate_ext_in. intros j Hj.
  cbv beta. unfold tlookup. rewrite Hp. simpl. rewrite Hr. reflexivity.
Qed.

Lemma computeNormAdjust_fills (dc : DecodingContext_t) :
  table_dims 6 4 4 (normAdjust4x4 dc) ->
  table_dims 6 8 8 (normAdjust8x8 dc) ->
  computeNormAdjust (Some dc)
  = Done (SUCCESS, Some (set_normAdjust8x8 filled8x8
                           (set_normAdjust4x4 filled4x4 dc))).
Proof.
  destruct dc as [bs nalu spss ppss asps apps aslice fmt qual num mode
                    run flag idr frame err t4 t8].
  simpl. intros H4 H8.
  rewrite (table_dims_tabulate _ _ _ t4 H4), (table_dims_tabulate _ _ _ t8 H8).
  generalize (fun q i j => default 0 (tlookup t4 q i j)).
  generalize (fun q i j => default 0 (tlookup t8 q i j)).
  intros f8 f4. clear.
  vm_compute. reflexivity.
Qed.

Lemma filled4x4_rule (q i j : nat) :
  (q < 6)%nat -> (i < 4)%nat -> (j < 4)%nat ->
  tlookup filled4x4 q i j
  = rule4x4 (Z.of_nat q) (Z.of_nat i) (Z.of_nat j).
Proof.
  intros Hq Hi Hj.
  destruct q as [|[|[|[|[|[|q]]]]]]; try lia;
  destruct i as [|[|[|[|i]]]]; try lia;
  destruct j as [|[|[|[|j]]]]; try lia; reflexivity.
Qed.

Lemma filled8x8_rule (q i j : nat) :
  (q < 6)%nat -> (i < 8)%nat -> (j < 8)%nat ->
  tlookup filled8x8 q i j
  = rule8x8 (Z.of_nat q) (Z.of_nat i) (Z.of_nat j).
Proof.
  intros Hq Hi Hj.
  destruct q as [|[|[|[|[|[|q]]]]]]; try lia;
  destruct i as [|[|[|[|[|[|[|[|i]]]]]]]]; try lia;
  destruct j as [|[|[|[|[|[|[|[|j]]]]]]]]; try lia; reflexivity.
Qed.

Lemma rule4x4_member (q i j : nat) :
  (q < 6)%nat -> (i < 4)%nat -> (j < 4)%nat ->
  exists row v, v4x4 !! q = Some row /\
                rule4x4 (Z.of_nat q) (Z.of_nat i) (Z.of_nat j) = Some v /\
                v ∈ row.
Proof.
  intros Hq Hi Hj.
  destruct q as [|[|[|[|[|[|q]]]]]]; try lia;
  destruct i as [|[|[|[|i]]]]; try lia;
  destruct j as [|[|[|[|j]]]]; try lia;
  eexists _, _; (split; [reflexivity|]); (split; [reflexivity|]);
  repeat first [apply list_elem_of_here | apply list_elem_of_further].
Qed.

Lemma rule8x8_member (q i j : nat) :
  (q < 6)%nat -> (i < 8)%nat -> (j < 8)%nat ->
  exists row v, v8x8 !! q = Some row /\
                rule8x8 (Z.of_nat q) (Z.of_nat i) (Z.of_nat j) = Some v /\
                v ∈ row.
Proof.
  intros Hq Hi Hj.
  destruct q as [|[|[|[|[|[|q]]]]]]; try lia;
  destruct i as [|[|[|[|[|[|[|[|i]]]]]]]]; try lia;
  destruct j as [|[|[|[|[|[|[|[|j]]]]]]]]; try lia;
  eexists _, _; (split; [reflexivity|]); (split; [reflexivity|]);
  repeat first [apply list_elem_of_here | apply list_elem_of_further].
Qed.

(** C7. On a context whose two tables have their declared dimensions,
    [computeNormAdjust] succeeds and leaves in [normAdjust4x4[q][i][j]] and
    [normAdjust8x8[q][i][j]] the value the rules of the specification
    choose in [v4x4[q]] and [v8x8[q]]; that value is an entry of the seed
    row. *)
Theorem computeNormAdjust_tables (dc : DecodingContext_t) :
  table_dims 6 4 4 (normAdjust4x4 dc) ->
  table_dims 6 8 8 (normAdjust8x8 dc) ->
  exists dc',
    computeNormAdjust (Some dc) = Done (SUCCESS, Some dc') /\
    (forall q i j : nat, (q < 6)%nat -> (i < 4)%nat -> (j < 4)%nat ->
       exists row v,
         v4x4 !! q = Some row /\
         tlookup (normAdjust4x4 dc') q i j = Some v /\
         rule4x4 (Z.of_nat q) (Z.of_nat i) (Z.of_nat j) = Some v /\
         v ∈ row) /\
    (forall q i j : nat, (q < 6)%nat -> (i < 8)%nat -> (j < 8)%nat ->
       exists row v,
         v8x8 !! q = Some row /\
         tlookup (normAdjust8x8 dc') q i j = Some v /\
         rule8x8 (Z.of_nat q) (Z.of_nat i) (Z.of_nat j) = Some v /\
         v ∈ row).
Proof.
  intros H4 H8. eexists. split; [apply computeNormAdjust_fills; assumption|].
  split; intros q i j Hq Hi Hj.
  - destruct (rule4x4_member q i j Hq Hi Hj) as (row & v & Hrow & Hv & Hin).
    exists row, v. repeat split; try assumption.
    simpl. rewrite filled4x4_rule by assumption. exact Hv.
  - destruct (rule8x8_member q i j Hq Hi Hj) as (row & v & Hrow & Hv & Hin).
    exists row, v. repeat split; try assumption.
    simpl. rewrite filled8x8_rule by assumption. exact Hv.
Qed.

Lemma zero_table_dims (a b c : nat) : table_dims a b c (zero_table a b c).
Proof.
  unfold table_dims, zero_table. split; [apply length_replicate|].
  apply Forall_replicate. split; [apply length_replicate|].
  apply Forall_replicate. apply length_replicate.
Qed.

(* ================================================================== *)
(** ** [checkDecodingContext] *)

Lemma aget_cached {A} (a : list (option A)) (i : Z) :
  0 <= i < Z.of_nat (length a) -> aget a i = Done (cached a i).
Proof.
  intros H. unfold aget, cached.
  destruct (Z.ltb_spec i 0); [lia|].
  destruct (lookup_lt_is_Some_2 a (Z.to_nat i)) as [v Hv]; [lia|].
  rewrite Hv. reflexivity.
Qed.

Lemma is_null_false {A} (p : option A) : is_null p = false <-> is_Some p.
Proof.
  destruct p; simpl; split; intros H; try done; try (by eexists).
Qed.

Lemma checkDecodingContext_no_null_dereference (dc : DecodingContext_t) :
  checkDecodingContext dc <> Undefined NullDereference.
Proof.
  unfold checkDecodingContext, aget, deref, mbind, outcome_bind.
  repeat case_match; simplify_eq; discriminate.
Qed.

Ltac unfold_setters :=
  unfold set_IdrPicFlag, incr_errorCounter, set_decoderRunning, count_idr,
    set_run in *; simpl in *.

Lemma dispatch_failed_slice (number : Z) (ev : Event) (dc : DecodingContext_t) :
  ev_feed ev = SUCCESS -> ev_header ev = true ->
  ev_type ev = NALU_TYPE_IDR -> ev_handler ev = false ->
  decoderRunning dc = true ->
  idrCounter dc <> number -> errorCounter dc < 64 ->
  exists dc',
    iteration number ev dc = (dc', SUCCESS) /\
    decoderRunning dc' = true /\
    errorCounter dc' = errorCounter dc + 1 /\
    idrCounter dc' = idrCounter dc.
Proof.
  intros Hf Hh Ht Hd Hrun Hidr Herr.
  unfold iteration, load_and_dispatch, dispatch.
  rewrite Hf, Hh, Ht, Hd. simpl.
  rewrite (proj2 (Z.eqb_neq _ _) Hidr).
  unfold_setters.
  rewrite (proj2 (Z.ltb_ge _ _)) by lia. simpl.
  eexists. split; [reflexivity|]. simpl. auto.
Qed.

(** C6. When the indices it uses are within the two arrays,
    [checkDecodingContext] returns SUCCESS or FAILURE, and SUCCESS exactly
    when the bit reader, the NAL unit, SPS[active_sps], PPS[active_pps],
    the slice, the PPS of the slice and the SPS of that PPS are all
    there; it never dereferences a null pointer; and in the dispatch loop
    a slice whose decoding fails costs one error and leaves the loop
    running. *)
Theorem checkDecodingContext_success_iff (dc : DecodingContext_t)
    (Hrange : indices_in_range dc) :
  (exists r, checkDecodingContext dc = Done r /\
             (r = SUCCESS \/ r = FAILURE) /\
             (r = SUCCESS <-> context_complete dc)) /\
  checkDecodingContext dc <> Undefined NullDereference /\
  (forall number ev dc0,
      ev_feed ev = SUCCESS -> ev_header ev = true ->
      ev_type ev = NALU_TYPE_IDR -> ev_handler ev = false ->
      decoderRunning dc0 = true ->
      idrCounter dc0 <> number -> errorCounter dc0 < 64 ->
      exists dc',
        iteration number ev dc0 = (dc', SUCCESS) /\
        decoderRunning dc' = true /\
        errorCounter dc' = errorCounter dc0 + 1 /\
        idrCounter dc' = idrCounter dc0).
Proof.
  split; [|split;
    [apply checkDecodingContext_no_null_dereference
    |intros; apply dispatch_failed_slice; assumption]].
  destruct Hrange as (Hsps & Hpps & Hslice).
  unfold checkDecodingContext, context_complete.
  rewrite (aget_cached _ _ Hsps), (aget_cached _ _ Hpps). simpl.
  destruct (active_slice dc) as [slice|] eqn:Eslice; simpl.
  2:{ exists FAILURE. split; [reflexivity|]. split; [auto|].
      split; [discriminate|]. intros (_ & _ & _ & _ & s & Hs & _). discriminate. }
  destruct (Hslice slice eq_refl) as [Hid Hp].
  rewrite (aget_cached _ _ Hid). simpl.
  destruct (cached (pps_array dc) (slice_pic_parameter_set_id slice))
    as [p|] eqn:Ep; simpl.
  2:{ exists FAILURE. split; [reflexivity|]. split; [auto|].
      split; [discriminate|].
      intros (_ & _ & _ & _ & s & Hs & p & Hp' & _).
      injection Hs as <-. congruence. }
  rewrite (aget_cached _ _ (Hp p eq_refl)). simpl.
  destruct (cached (sps_array dc) (seq_parameter_set_id p)) as [s|] eqn:Es; simpl.
  2:{ exists FAILURE. split; [reflexivity|]. split; [auto|].
      split; [discriminate|].
      intros (_ & _ & _ & _ & s & Hs & p' & Hp' & [x Hx]).
      injection Hs as <-. rewrite Ep in Hp'. injection Hp' as <-. congruence. }
  eexists. split; [reflexivity|].
  destruct (bitstr dc), (active_nalu dc),
    (cached (sps_array dc) (active_sps dc)),
    (cached (pps_array dc) (active_pps dc)); simpl;
    (split; [auto|]); split; try discriminate;
    try (intros _; repeat split; eauto; fail);
    intros (H1 & H2 & H3 & H4 & _);
    try (destruct H1; discriminate); try (destruct H2; discriminate);
    try (destruct H3; discriminate); try (destruct H4; discriminate).
Qed.

(* ================================================================== *)
(** ** The dispatch loop of [h264_decode] *)

Lemma closing_tests_spec (number : Z) (dc : DecodingContext_t) (r : Z) :
  decoderRunning dc = true ->
  exists dc' r',
    closing_tests number (dc, r) = (dc', r') /\
    (decoderRunning dc' = false <->
       idrCounter dc = number \/ 64 < errorCounter dc \/ r = FAILURE) /\
    (idrCounter dc = number -> errorCounter dc <= 64 -> r' = SUCCESS) /\
    (64 < errorCounter dc \/ (idrCounter dc <> number /\ r = FAILURE) ->
       r' = FAILURE) /\
    (decoderRunning dc' = true -> dc' = dc /\ r' = r) /\
    idrCounter dc' = idrCounter dc /\ errorCounter dc' = errorCounter dc.
Proof.
  intros Hrun. unfold closing_tests.
  destruct (Z.eqb_spec (idrCounter dc) number) as [Hidr|Hidr];
    unfold_setters;
    destruct (Z.ltb_spec 64 (errorCounter dc)) as [Herr|Herr]; simpl;
    try destruct (Z.eqb_spec r FAILURE) as [Hr|Hr];
    (eexists _, _; split; [reflexivity|]); simpl;
    intuition (try lia; try congruence; try discriminate).
Qed.

Lemma load_and_dispatch_running (ev : Event) (dc : DecodingContext_t) :
  decoderRunning (fst (load_and_dispatch ev dc)) = decoderRunning dc.
Proof.
  unfold load_and_dispatch, dispatch.
  repeat case_match; simplify_eq; reflexivity.
Qed.

Lemma load_and_dispatch_eof (ev : Event) (dc : DecodingContext_t) :
  ev_feed ev = FAILURE -> decodes ev = false ->
  snd (load_and_dispatch ev dc) = FAILURE.
Proof.
  intros Hf Hd. unfold load_and_dispatch, dispatch, decodes in *.
  rewrite Hf.
  destruct (ev_header ev), (ev_handler ev); simpl in *;
    repeat case_match; simplify_eq; try reflexivity;
    repeat match goal with
           | H : (_ || _) = true |- _ => apply orb_true_iff in H as [H|H]
           | H : (_ || _) = false |- _ => apply orb_false_iff in H as [? ?]
           end; congruence.
Qed.

Lemma iteration_eof (number : Z) (ev : Event) (dc : DecodingContext_t) :
  decoderRunning dc = true ->
  ev_feed ev = FAILURE -> decodes ev = false ->
  decoderRunning (fst (iteration number ev dc)) = false.
Proof.
  intros Hrun Hf Hd. unfold iteration.
  pose proof (load_and_dispatch_running ev dc) as Hr.
  pose proof (load_and_dispatch_eof ev dc Hf Hd) as He.
  destruct (load_and_dispatch ev dc) as [dc1 r1]. simpl in Hr, He.
  rewrite Hrun in Hr.
  destruct (closing_tests_spec number dc1 r1 Hr) as (dc' & r' & -> & Hiff & _).
  simpl. apply Hiff. auto.
Qed.

Lemma decode_loop_stopped (fuel : nat) (number : Z) (env : nat -> Event)
    (k : nat) (dc : DecodingContext_t) (r : Z) :
  decoderRunning dc = false ->
  decode_loop fuel number env k dc r = Some (dc, r, k).
Proof. intros H. destruct fuel; simpl; rewrite H; reflexivity. Qed.

Lemma decode_loop_terminates (number : Z) (K : nat) (env : nat -> Event) :
  finite_input K env ->
  forall (fuel k : nat) (dc : DecodingContext_t) (r : Z),
    (k <= K)%nat -> (K + 1 - k <= fuel)%nat ->
    exists dc' r' k',
      decode_loop fuel number env k dc r = Some (dc', r', k') /\
      (k' <= K + 1)%nat /\ decoderRunning dc' = false.
Proof.
  intros Hfin. induction fuel as [|fuel IH]; intros k dc r Hk Hfuel; [lia|].
  destruct (decoderRunning dc) eqn:Hrun.
  2:{ exists dc, r, k. rewrite decode_loop_stopped by exact Hrun.
      split; [reflexivity|]. split; [lia | exact Hrun]. }
  simpl. rewrite Hrun.
  destruct (iteration number (env k) dc) as [dc1 r1] eqn:Hit.
  destruct (decide (k = K)) as [->|Hne].
  - destruct (Hfin K (le_n K)) as [Hf Hd].
    pose proof (iteration_eof number (env K) dc Hrun Hf Hd) as Hstop.
    rewrite Hit in Hstop. simpl in Hstop.
    exists dc1, r1, (S K). rewrite decode_loop_stopped by exact Hstop.
    split; [reflexivity|]. split; [lia | exact Hstop].
  - apply IH; lia.
Qed.

(** [h264_decode] returns on a finite input. *)
Lemma h264_decode_returns (K : nat) (env : nat -> Event)
    (dc : DecodingContext_t) (picture_format quality number mode : Z) :
  finite_input K env ->
  table_dims 6 4 4 (normAdjust4x4 dc) -> table_dims 6 8 8 (normAdjust8x8 dc) ->
  exists r,
    h264_decode (Datatypes.S K) (Some dc) picture_format quality number mode env
    = Done (Some r).
Proof.
  intros Hfin H4 H8. unfold h264_decode.
  rewrite (computeNormAdjust_fills dc H4 H8).
  unfold mbind, outcome_bind, deref. cbv beta iota.
  match goal with
  | |- context [decode_loop _ _ _ _ ?d ?r] =>
      destruct (decode_loop_terminates number K env Hfin (Datatypes.S K) 0 d r)
        as (dc' & r' & k' & -> & _); [lia | lia |]
  end.
  exists r'. reflexivity.
Qed.

(** The invariant of the loop: at the top of the body the error counter
    is at most 64, and it is 0 if [idrCounter] is already the wanted
    number (which can only be before the first iteration). *)
Lemma load_and_dispatch_counters (ev : Event) (dc : DecodingContext_t) :
  let dc1 := fst (load_and_dispatch ev dc) in
  (idrCounter dc1 = idrCounter dc /\
   errorCounter dc <= errorCounter dc1 <= errorCounter dc + 1) \/
  (idrCounter dc1 = idrCounter dc + 1 /\ errorCounter dc1 = 0).
Proof.
  unfold load_and_dispatch, dispatch.
  repeat case_match; simplify_eq; unfold_setters; lia.
Qed.



(* ================================================================== *)
(** ** [init_bitstream_map] *)

Lemma load_handle_Done (h : nat) (m : memory) (v : option nat) :
  load_handle h m = Done v <-> handles m !! h = Some v.
Proof.
  unfold load_handle. destruct (handles m !! h); split; intros H;
    try discriminate; congruence.
Qed.

Lemma store_handle_Done (h : nat) (v : option nat) (m : memory) :
  is_Some (handles m !! h) ->
  store_handle h v m = Done (set_handles (<[h := v]> (handles m)) m).
Proof. intros [x Hx]. unfold store_handle. rewrite Hx. reflexivity. Qed.

Lemma lookup_snoc_new {A} (l : list A) (x : A) :
  (l ++ [x]) !! length l = Some x.
Proof. rewrite lookup_app_r by lia. rewrite Nat.sub_diag. reflexivity. Qed.

Lemma insert_snoc_new {A} (l : list A) (x y : A) :
  <[length l := x]> (l ++ [y]) = l ++ [x].
Proof.
  rewrite insert_app_r_alt by lia. rewrite Nat.sub_diag. reflexivity.
Qed.

(** The outcome of [init_bitstream_map] when the handle is NULL and
    [entries] is not 0, by the results of the six calls of [calloc]. *)
Lemma init_bitstream_map_alloc (p : nat) (entries : Z) (m : memory) :
  handles m !! p = Some None -> entries <> 0 ->
  exists m',
    init_bitstream_map p entries m
    = Done ((if six_callocs_succeed m then SUCCESS else FAILURE), m') /\
    (forall h, h <> p -> handles m' !! h = handles m !! h) /\
    length (handles m') = length (handles m) /\
    (forall l, (l < length (maps m))%nat -> maps m' !! l = maps m !! l) /\
    calloc_plan m' = drop (if default true (head (calloc_plan m)) then 6 else 1)
                       (calloc_plan m) /\
    if six_callocs_succeed m then
      handles m' !! p = Some (Some (length (maps m))) /\
      maps m' = maps m ++ [Some (zeroed_map entries)]
    else
      handles m' !! p = Some None /\
      (maps m' = maps m \/ maps m' = maps m ++ [None]).
Proof.
  intros Hp He. unfold init_bitstream_map.
  rewrite (proj2 (load_handle_Done _ _ _) Hp). simpl.
  rewrite (proj2 (Z.eqb_neq _ _) He).
  destruct m as [ms hs plan]. simpl in Hp.
  assert (forall v, <[p := v]> hs !! p = Some v) as Hsame.
  { intros v. apply list_lookup_insert_eq. apply lookup_lt_is_Some. eauto. }
  assert (forall v w, <[p := w]> (<[p := v]> hs) = <[p := w]> hs) as Hii.
  { intros v w. apply list_insert_insert_eq. }
  unfold six_callocs_succeed, calloc_array, calloc.
  destruct plan as [|[] [|[] [|[] [|[] [|[] [|[] plan]]]]]];
    repeat (simpl;
            unfold store_handle, store_map, free_map, set_handles, set_maps,
              set_calloc_plan;
            simpl; rewrite ?insert_snoc_new, ?Hp, ?Hsame, ?lookup_snoc_new);
    (eexists; split; [reflexivity|]); simpl;
    rewrite ?length_insert, ?Hii, ?Hsame;
    (split; [intros h Hh; rewrite ?list_lookup_insert_ne by congruence;
             reflexivity|]);
    (split; [reflexivity|]);
    (split; [intros l Hl;
             rewrite ?list_lookup_insert_ne by lia;
             rewrite ?lookup_app_l by (rewrite ?length_insert; lia);
             rewrite ?list_lookup_insert_ne by lia;
             reflexivity|]);
    (split; [reflexivity|]);
    (split; [reflexivity|]);
    auto.
Qed.

(** C10. [init_bitstream_map(p, entries)] on a handle [p]: it returns
    FAILURE and leaves the memory as it is when [*p] is not NULL or
    [entries] is 0; otherwise it returns SUCCESS when the six calls of
    [calloc] succeed, with [*p] pointing to a new map whose counters are
    0 and whose five arrays have [entries] zeroed slots, and it returns
    FAILURE with [*p == NULL] when one of them fails. *)
Theorem init_bitstream_map_spec (p : nat) (entries : Z) (m : memory)
    (cur : option nat) (Hp : handles m !! p = Some cur) :
  (is_Some cur \/ entries = 0 ->
     init_bitstream_map p entries m = Done (FAILURE, m)) /\
  (cur = None -> entries <> 0 ->
     exists m',
       init_bitstream_map p entries m
       = Done ((if six_callocs_succeed m then SUCCESS else FAILURE), m') /\
       if six_callocs_succeed m then
         exists l, handles m' !! p = Some (Some l) /\
                   maps m !! l = None /\
                   maps m' !! l = Some (Some (zeroed_map entries))
       else handles m' !! p = Some None).
Proof.
  split.
  - intros H. unfold init_bitstream_map.
    rewrite (proj2 (load_handle_Done _ _ _) Hp). simpl.
    destruct cur as [l|]; simpl; [reflexivity|].
    destruct H as [[x Hx]|He]; [discriminate | rewrite He; reflexivity].
  - intros -> He.
    destruct (init_bitstream_map_alloc p entries m Hp He)
      as (m' & Hrun & _ & _ & _ & _ & Hres).
    exists m'. split; [exact Hrun|].
    destruct (six_callocs_succeed m).
    + destruct Hres as [Hh Hm]. exists (length (maps m)).
      split; [exact Hh|]. split; [apply lookup_ge_None; lia|].
      rewrite Hm. apply lookup_snoc_new.
    + apply Hres.
Qed.

(* ================================================================== *)
(** ** Rounding in binary64: bounds on the results *)

Lemma fexp_eq (e : Z) : fexp Double.prec Double.emax e = Z.max (e - 53) (-1074).
Proof. reflexivity. Qed.

(** The number of binary digits. *)
Lemma digits2_pos_size (p : positive) : digits2_pos p = Pos.size p.
Proof. induction p; simpl; congruence. Qed.

Lemma digits_upper (p : positive) (k : Z) :
  0 <= k -> Z.pos p < 2 ^ k -> Z.pos (digits2_pos p) <= k.
Proof.
  intros Hk Hp. rewrite digits2_pos_size.
  pose proof (Pos.size_le p) as Hle.
  assert (2 ^ Z.pos (Pos.size p) <= 2 * Z.pos p) as H2.
  { change 2 with (Z.pos 2) at 1. rewrite <- Pos2Z.inj_pow. lia. }
  destruct (Z.le_gt_cases (Z.pos (Pos.size p)) k) as [|Hgt]; [assumption|].
  exfalso.
  assert (2 ^ (k + 1) <= 2 ^ Z.pos (Pos.size p))
    by (apply Z.pow_le_mono_r; lia).
  rewrite Z.pow_add_r in * by lia. lia.
Qed.

Lemma digits_lower (p : positive) (k : Z) :
  0 <= k -> 2 ^ k <= Z.pos p -> k + 1 <= Z.pos (digits2_pos p).
Proof.
  intros Hk Hp. rewrite digits2_pos_size.
  pose proof (Pos.size_gt p) as Hgt.
  assert (Z.pos p < 2 ^ Z.pos (Pos.size p)) as H2.
  { change 2 with (Z.pos 2). rewrite <- Pos2Z.inj_pow. lia. }
  destruct (Z.le_gt_cases (k + 1) (Z.pos (Pos.size p))) as [|Hlt]; [assumption|].
  exfalso.
  assert (2 ^ Z.pos (Pos.size p) <= 2 ^ k)
    by (apply Z.pow_le_mono_r; lia).
  lia.
Qed.

Lemma Zdigits2_upper (m k : Z) :
  0 <= m -> 0 <= k -> m < 2 ^ k -> Zdigits2 m <= k.
Proof.
  intros Hm Hk Hlt. destruct m as [|p|p]; simpl; [lia | | lia].
  apply digits_upper; assumption.
Qed.

(** Shifting to the right. *)
Lemma shr_1_m (mrs : shr_record) :
  0 <= shr_m mrs -> shr_m (shr_1 mrs) = shr_m mrs / 2.
Proof.
  destruct mrs as [m r s]. cbn [shr_m]. intros Hm.
  destruct m as [|[p|p|]|p]; cbv beta iota zeta delta [shr_1 shr_m];
    try lia; try reflexivity.
  - rewrite Pos2Z.inj_xI. apply (Z.div_unique_pos _ _ _ 1); lia.
  - rewrite Pos2Z.inj_xO. apply (Z.div_unique_pos _ _ _ 0); lia.
Qed.

Lemma pow2_xO (n : positive) : 2 ^ Z.pos n~0 = 2 ^ Z.pos n * 2 ^ Z.pos n.
Proof.
  replace (Z.pos n~0) with (Z.pos n + Z.pos n) by lia.
  rewrite Z.pow_add_r by lia. reflexivity.
Qed.

Lemma pow2_xI (n : positive) :
  2 ^ Z.pos n~1 = 2 * (2 ^ Z.pos n * 2 ^ Z.pos n).
Proof.
  replace (Z.pos n~1) with (1 + Z.pos n + Z.pos n) by lia.
  rewrite !Z.pow_add_r, Z.pow_1_r by lia. lia.
Qed.

Lemma iter_pos_shr_1_m (n : positive) (mrs : shr_record) :
  0 <= shr_m mrs ->
  shr_m (SpecFloat.iter_pos shr_1 n mrs) = shr_m mrs / 2 ^ Z.pos n.
Proof.
  revert mrs. induction n as [n IH|n IH|]; intros mrs Hm; simpl.
  - assert (0 <= shr_m (shr_1 mrs)) as H1
      by (rewrite shr_1_m by assumption; apply Z.div_pos; lia).
    assert (0 <= shr_m (SpecFloat.iter_pos shr_1 n (shr_1 mrs))) as H2
      by (rewrite IH by assumption; apply Z.div_pos; lia).
    rewrite IH, IH, shr_1_m by assumption.
    rewrite !Z.div_div by lia. rewrite pow2_xI. reflexivity.
  - assert (0 <= shr_m (SpecFloat.iter_pos shr_1 n mrs)) as H2
      by (rewrite IH by assumption; apply Z.div_pos; lia).
    rewrite IH, IH by assumption.
    rewrite !Z.div_div by lia. rewrite pow2_xO. reflexivity.
  - rewrite shr_1_m by assumption. reflexivity.
Qed.

(** [shr_fexp m e l] shifts [m] by [n >= 0] places and adds [n] to the
    exponent, where [e + n] is the larger of [e] and
    [fexp (digits m + e)]. *)
Lemma shr_fexp_spec (m e : Z) (l : location) :
  0 <= m ->
  exists mrs n,
    shr_fexp Double.prec Double.emax m e l = (mrs, e + n) /\
    0 <= n /\
    e + n = Z.max e (fexp Double.prec Double.emax (Zdigits2 m + e)) /\
    shr_m mrs = m / 2 ^ n /\
    (n = 0 -> mrs = shr_record_of_loc m l).
Proof.
  intros Hm. unfold shr_fexp, shr.
  assert (shr_m (shr_record_of_loc m l) = m) as Hrec
    by (destruct l as [|[]]; reflexivity).
  destruct (fexp Double.prec Double.emax (Zdigits2 m + e) - e) as [|n|n] eqn:En.
  - exists (shr_record_of_loc m l), 0.
    rewrite Z.add_0_r, Z.div_1_r. repeat split; auto; lia.
  - exists (SpecFloat.iter_pos shr_1 n (shr_record_of_loc m l)), (Z.pos n).
    repeat split; try lia.
    rewrite iter_pos_shr_1_m by (rewrite Hrec; assumption).
    rewrite Hrec. reflexivity.
  - exists (shr_record_of_loc m l), 0.
    rewrite Z.add_0_r, Z.div_1_r. repeat split; auto; lia.
Qed.

Lemma round_nearest_even_bounds (m : Z) (l : location) :
  m <= round_nearest_even m l <= m + 1.
Proof.
  unfold round_nearest_even.
  destruct l as [|[]]; try lia. destruct (Z.even m); lia.
Qed.

Lemma pow2_pos (k : Z) : 0 < 2 ^ k \/ k < 0.
Proof. destruct (Z.le_gt_cases 0 k); [left; apply Z.pow_pos_nonneg; lia | right; lia]. Qed.

(** Rounding a number [mx * 2^ex] below [2^52], with [ex < 0]: the
    result is zero or a finite number with a nonpositive exponent, at
    most the integer part of [mx * 2^ex] plus one. *)
Lemma binary_round_aux_bound (s : bool) (mx ex : Z) (lx : location) :
  0 <= mx -> ex <= -1 -> mx < 2 ^ (52 - ex) ->
  binary_round_aux Double.prec Double.emax s mx ex lx = S754_zero s \/
  exists m e,
    binary_round_aux Double.prec Double.emax s mx ex lx = S754_finite s m e /\
    e <= 0 /\
    Z.pos m <= (mx / 2 ^ (- ex) + 1) * 2 ^ (- e).
Proof.
  intros Hmx Hex Hlt.
  destruct (shr_fexp_spec mx ex lx Hmx)
    as (mrs1 & n1 & E1 & Hn1 & He1 & Hm1 & _).
  pose proof (round_nearest_even_bounds (shr_m mrs1) (loc_of_shr_record mrs1))
    as Hrne.
  set (m1' := round_nearest_even (shr_m mrs1) (loc_of_shr_record mrs1)) in *.
  assert (0 <= shr_m mrs1) as Hm1pos
    by (rewrite Hm1; apply Z.div_pos; [lia | apply Z.pow_pos_nonneg; lia]).
  assert (0 <= m1') as Hm1' by lia.
  destruct (shr_fexp_spec m1' (ex + n1) loc_Exact Hm1')
    as (mrs2 & n2 & E2 & Hn2 & He2 & Hm2 & _).
  (* the exponents *)
  assert (Zdigits2 mx <= 52 - ex) as Hd
    by (apply Zdigits2_upper; [lia | lia | exact Hlt]).
  assert (ex + n1 <= -1) as He1'
    by (rewrite He1, fexp_eq; lia).
  assert (0 < 2 ^ n1) as Hp1 by (apply Z.pow_pos_nonneg; lia).
  assert (0 < 2 ^ n2) as Hp2 by (apply Z.pow_pos_nonneg; lia).
  assert (shr_m mrs1 < 2 ^ (52 - (ex + n1))) as Hm1lt.
  { rewrite Hm1. apply Z.div_lt_upper_bound; [exact Hp1|].
    rewrite <- Z.pow_add_r by lia.
    replace (n1 + (52 - (ex + n1))) with (52 - ex) by lia. exact Hlt. }
  assert (m1' < 2 ^ (53 - (ex + n1))) as Hm1'lt.
  { replace (53 - (ex + n1)) with (1 + (52 - (ex + n1))) by lia.
    rewrite Z.pow_add_r, Z.pow_1_r by lia.
    assert (0 < 2 ^ (52 - (ex + n1))) by (apply Z.pow_pos_nonneg; lia).
    lia. }
  assert (Zdigits2 m1' <= 53 - (ex + n1)) as Hd'
    by (apply Zdigits2_upper; [lia | lia | exact Hm1'lt]).
  assert (ex + n1 + n2 <= 0) as He2'
    by (rewrite He2, fexp_eq; lia).
  (* the value *)
  set (V := mx / 2 ^ (- ex)).
  set (Q := 2 ^ (- (ex + n1 + n2))).
  assert (0 < Q) as HQ by (apply Z.pow_pos_nonneg; lia).
  assert (2 ^ (- ex) = Q * 2 ^ n2 * 2 ^ n1) as Hsplit.
  { unfold Q. rewrite <- !Z.pow_add_r by lia. f_equal. lia. }
  assert (mx < (V + 1) * 2 ^ (- ex)) as HV.
  { unfold V. pose proof (Z.mul_succ_div_gt mx (2 ^ (- ex))) as Hx.
    assert (0 < 2 ^ (- ex)) by (apply Z.pow_pos_nonneg; lia). lia. }
  assert (shr_m mrs1 * 2 ^ n1 <= mx) as Hfloor1.
  { rewrite Hm1. pose proof (Z.mul_div_le mx (2 ^ n1) Hp1). lia. }
  assert (shr_m mrs2 * 2 ^ n2 <= m1') as Hfloor2.
  { rewrite Hm2. pose proof (Z.mul_div_le m1' (2 ^ n2) Hp2). lia. }
  assert (0 <= V) as HVpos
    by (apply Z.div_pos; [lia | apply Z.pow_pos_nonneg; lia]).
  assert (shr_m mrs1 < (V + 1) * Q * 2 ^ n2) as Hs1.
  { rewrite Hsplit in HV.
    apply (Z.mul_lt_mono_pos_r (2 ^ n1)); [exact Hp1|]. lia. }
  assert (shr_m mrs2 <= (V + 1) * Q) as Hs2.
  { apply (Z.mul_le_mono_pos_r _ _ (2 ^ n2)); [exact Hp2|]. lia. }
  unfold binary_round_aux. rewrite E1. fold m1'. rewrite E2.
  destruct (shr_m mrs2) as [|m|m] eqn:Em.
  - left. reflexivity.
  - right. exists m, (ex + n1 + n2).
    replace (ex + n1 + n2 <=? Double.emax - Double.prec) with true
      by (symmetry; apply Z.leb_le; change (Double.emax - Double.prec) with 971; lia).
    split; [reflexivity|]. split; [exact He2'|]. exact Hs2.
  - exfalso. pose proof (Z.div_pos m1' (2 ^ n2) Hm1' Hp2). lia.
Qed.

Lemma binary_round_aux_exact (s : bool) (m : positive) (e : Z) :
  fexp Double.prec Double.emax (Z.pos (digits2_pos m) + e) <= e -> e <= 971 ->
  binary_round_aux Double.prec Double.emax s (Z.pos m) e loc_Exact = S754_finite s m e.
Proof.
  intros Hf He.
  assert (shr_fexp Double.prec Double.emax (Z.pos m) e loc_Exact
          = (shr_record_of_loc (Z.pos m) loc_Exact, e)) as Hshr.
  { unfold shr_fexp, shr. cbn [Zdigits2].
    destruct (fexp Double.prec Double.emax (Z.pos (digits2_pos m) + e) - e) eqn:E;
      try reflexivity. lia. }
  unfold binary_round_aux. rewrite Hshr. cbn [shr_record_of_loc shr_m
    loc_of_shr_record round_nearest_even]. rewrite Hshr. cbn [shr_record_of_loc shr_m].
  replace (e <=? Double.emax - Double.prec) with true
    by (symmetry; apply Z.leb_le; change (Double.emax - Double.prec) with 971; lia).
  reflexivity.
Qed.

Lemma pos_iter_xO (p k : positive) :
  Z.pos (Pos.iter xO p k) = Z.pos p * 2 ^ Z.pos k.
Proof.
  induction k as [|k IH] using Pos.peano_ind.
  - simpl. lia.
  - rewrite Pos.iter_succ, Pos2Z.inj_xO, IH, Pos2Z.inj_succ, Z.pow_succ_r by lia.
    lia.
Qed.

(** [(double)c] is [c], exactly, for [0 < c < 2^53]. *)
Lemma of_int_exact (c : Z) :
  0 < c < 2 ^ 53 ->
  exists m e, Double.of_int c = S754_finite false m e /\
              -52 <= e <= 0 /\ Z.pos m = c * 2 ^ (- e).
Proof.
  intros Hc. destruct c as [|p|p]; try lia.
  unfold Double.of_int, binary_normalize, binary_round, shl_align.
  pose proof (digits_upper p 53 ltac:(lia) (proj2 Hc)) as Hd.
  assert (0 < Z.pos (digits2_pos p)) as Hd0 by lia.
  assert (Z.pos p < 2 ^ Z.pos (digits2_pos p)) as Hsize.
  { rewrite digits2_pos_size. pose proof (Pos.size_gt p).
    change 2 with (Z.pos 2). rewrite <- Pos2Z.inj_pow. lia. }
  rewrite Z.add_0_r, fexp_eq.
  replace (Z.max (Z.pos (digits2_pos p) - 53) (-1074) - 0)
    with (Z.pos (digits2_pos p) - 53) by lia.
  destruct (Z.pos (digits2_pos p) - 53) as [|k|k] eqn:Ek; try lia.
  - exists p, 0. rewrite binary_round_aux_exact; [|rewrite fexp_eq; lia|lia].
    split; [reflexivity|]. split; [lia|]. simpl. lia.
  - exists (Pos.iter xO p k), (Z.neg k).
    replace (Z.max (Z.neg k) (-1074)) with (Z.neg k) by lia.
    assert (Z.pos (Pos.iter xO p k) < 2 ^ 53) as Hlt.
    { rewrite pos_iter_xO.
      replace 53 with (Z.pos (digits2_pos p) + Z.pos k) by lia.
      rewrite Z.pow_add_r by lia.
      apply Z.mul_lt_mono_pos_r; [apply Z.pow_pos_nonneg; lia | exact Hsize]. }
    pose proof (digits_upper _ 53 ltac:(lia) Hlt) as Hd2.
    rewrite binary_round_aux_exact; [|rewrite fexp_eq; lia|lia].
    split; [reflexivity|]. split; [lia|].
    rewrite pos_iter_xO. reflexivity.
Qed.

Lemma div_eucl_fst (a b : Z) : fst (Z.div_eucl a b) = a / b.
Proof. reflexivity. Qed.

(** A quotient of two positive numbers, the dividend below [2^33] and
    the divisor at least 1: zero or a finite number with a nonpositive
    exponent, at most the integer part of the exact quotient plus one. *)
Lemma div_bound (m1 m2 : positive) (e1 e2 : Z) :
  e1 <= 0 -> e2 <= 0 ->
  Z.pos m1 < 2 ^ (33 - e1) -> 2 ^ (- e2) <= Z.pos m2 ->
  Double.div (S754_finite false m1 e1) (S754_finite false m2 e2)
    = S754_zero false \/
  exists m e,
    Double.div (S754_finite false m1 e1) (S754_finite false m2 e2)
      = S754_finite false m e /\
    e <= 0 /\
    Z.pos m <= ((Z.pos m1 * 2 ^ (- e2)) / (Z.pos m2 * 2 ^ (- e1)) + 1)
               * 2 ^ (- e).
Proof.
  intros He1 He2 Hm1 Hm2.
  unfold Double.div, SFdiv, SFdiv_core_binary. cbn [Zdigits2 xorb].
  pose proof (digits_upper m1 (33 - e1) ltac:(lia) Hm1) as Hd1.
  pose proof (digits_lower m2 (- e2) ltac:(lia) Hm2) as Hd2.
  set (d1 := Z.pos (digits2_pos m1)) in *.
  set (d2 := Z.pos (digits2_pos m2)) in *.
  set (e' := Z.min (fexp Double.prec Double.emax (d1 + e1 - (d2 + e2))) (e1 - e2)).
  assert (e' <= -1) as He' by (unfold e'; rewrite fexp_eq; lia).
  assert (0 <= e1 - e2 - e') as Hs by (unfold e'; lia).
  set (s := e1 - e2 - e') in *.
  set (m' := match s with
             | 0 => Z.pos m1
             | Z.pos _ => Z.shiftl (Z.pos m1) s
             | Z.neg _ => 0
             end).
  assert (m' = Z.pos m1 * 2 ^ s) as Hm'.
  { unfold m'. destruct s as [|k|k] eqn:Es; try lia.
    rewrite Z.shiftl_mul_pow2 by lia. reflexivity. }
  pose proof (div_eucl_fst m' (Z.pos m2)) as Hq.
  destruct (Z.div_eucl m' (Z.pos m2)) as [q r]. cbn [fst] in Hq. subst q.
  assert (0 < 2 ^ s) as Hps by (apply Z.pow_pos_nonneg; lia).
  assert (0 < 2 ^ (- e1)) as Hp1 by (apply Z.pow_pos_nonneg; lia).
  assert (0 < 2 ^ (- e2)) as Hp2 by (apply Z.pow_pos_nonneg; lia).
  assert (0 < 2 ^ (- e')) as Hp' by (apply Z.pow_pos_nonneg; lia).
  assert (0 <= m' / Z.pos m2) as Hq0 by (apply Z.div_pos; lia).
  assert (m' / Z.pos m2 < 2 ^ (52 - e')) as Hq1.
  { apply Z.div_lt_upper_bound; [lia|].
    assert (m' < 2 ^ (33 - e1 + s)) as Hlt.
    { rewrite Hm', Z.pow_add_r by lia.
      apply Z.mul_lt_mono_pos_r; assumption. }
    assert (2 ^ (33 - e1 + s) = 2 ^ (- e2) * 2 ^ (33 - e'))
      as Heq by (rewrite <- Z.pow_add_r by lia; f_equal; lia).
    assert (2 ^ (33 - e') <= 2 ^ (52 - e'))
      by (apply Z.pow_le_mono_r; lia).
    assert (0 < 2 ^ (33 - e')) by (apply Z.pow_pos_nonneg; lia).
    nia. }
  assert ((m' / Z.pos m2) / 2 ^ (- e')
          = (Z.pos m1 * 2 ^ (- e2)) / (Z.pos m2 * 2 ^ (- e1))) as HV.
  { rewrite Z.div_div, Hm' by lia.
    rewrite <- (Z.div_mul_cancel_r (Z.pos m1 * 2 ^ s) _ (2 ^ (- e1))) by lia.
    rewrite <- (Z.div_mul_cancel_r (Z.pos m1 * 2 ^ (- e2)) _ (2 ^ (- e'))) by lia.
    f_equal.
    - rewrite <- !Z.mul_assoc, <- !Z.pow_add_r by lia. do 2 f_equal. lia.
    - lia. }
  destruct (binary_round_aux_bound false (m' / Z.pos m2) e'
              (new_location (Z.pos m2) r) Hq0 He' Hq1)
    as [Hz|(m & e & Hr & He & Hm)].
  - left. exact Hz.
  - right. exists m, e. split; [exact Hr|]. split; [exact He|].
    rewrite HV in Hm. exact Hm.
Qed.

Lemma mul_bound (m1 m2 : positive) (e1 e2 : Z) :
  e1 + e2 <= -1 -> Z.pos m1 * Z.pos m2 < 2 ^ (52 - (e1 + e2)) ->
  Double.mul (S754_finite false m1 e1) (S754_finite false m2 e2)
    = S754_zero false \/
  exists m e,
    Double.mul (S754_finite false m1 e1) (S754_finite false m2 e2)
      = S754_finite false m e /\
    e <= 0 /\
    Z.pos m <= ((Z.pos m1 * Z.pos m2) / 2 ^ (- (e1 + e2)) + 1) * 2 ^ (- e).
Proof.
  intros He Hm. unfold Double.mul, SFmul. cbn [xorb].
  rewrite Pos2Z.inj_mul.
  apply binary_round_aux_bound; [lia | exact He | exact Hm].
Qed.


(** The two literals are the correctly rounded quotients. *)
Lemma lit_0_03_nearest :
  Double.lit_0_03 = Double.div (Double.of_int 3) (Double.of_int 100).
Proof. vm_compute. reflexivity. Qed.

Lemma lit_1_66_nearest :
  Double.lit_1_66 = Double.div (Double.of_int 166) (Double.of_int 100).
Proof. vm_compute. reflexivity. Qed.

(** ** The two conversions of the filter are defined *)

Lemma ceil_pos_bounds (m : positive) (e B : Z) :
e <= 0 -> 0 <= B -> Z.pos m <= B * 2 ^ (- e) ->
1 <= Double.ceil_pos m e <= B.
Proof.
intros He HB Hm. unfold Double.ceil_pos.
destruct (Z.leb_spec 0 e).
- replace e with 0 in * by lia. simpl in *. lia.
- assert (0 < 2 ^ (- e)) as Hp by (apply Z.pow_pos_nonneg; lia).
  assert (- B <= - Z.pos m / 2 ^ (- e))
    by (apply Z.div_le_lower_bound; [exact Hp | lia]).
  assert (- Z.pos m / 2 ^ (- e) < 0)
    by (apply Z.div_lt_upper_bound; [exact Hp | lia]).
  lia.
Qed.

Lemma trunc_pos_bounds (m : positive) (e B : Z) :
e <= 0 -> 0 <= B -> Z.pos m <= B * 2 ^ (- e) ->
0 <= Double.trunc_pos m e <= B.
Proof.
intros He HB Hm. unfold Double.trunc_pos.
destruct (Z.leb_spec 0 e).
- replace e with 0 in * by lia. simpl in *. lia.
- assert (0 < 2 ^ (- e)) as Hp by (apply Z.pow_pos_nonneg; lia).
  split; [apply Z.div_pos; lia|].
  apply Z.div_le_upper_bound; [exact Hp | lia].
Qed.

Lemma checked_in_range (z : Z) :
- 2 ^ 31 <= z < 2 ^ 31 -> Double.checked z = Done z.
Proof.
intros H. unfold Double.checked, Double.in_int.
destruct (Z.leb_spec (- 2 ^ 31) z); [|lia].
destruct (Z.ltb_spec z (2 ^ 31)); [reflexivity | lia].
Qed.

(** [frame_borders] is defined, and between 0 and the number of IDR. *)
Lemma frame_borders_defined (c : Z) :
0 <= c < 2 ^ 31 -> exists b, frame_borders c = Done b /\ 0 <= b <= c.
Proof.
intros Hc. unfold frame_borders.
destruct (Z.eq_dec c 0) as [->|Hne].
{ exists 0. split; [reflexivity | lia]. }
destruct (of_int_exact c ltac:(lia)) as (mc & ec & -> & Hec & Hmc).
unfold Double.lit_0_03.
assert (0 < 2 ^ (- ec)) as Hp by (apply Z.pow_pos_nonneg; lia).
assert (2 ^ (110 - ec) = 2 ^ 110 * 2 ^ (- ec)) as Hsplit
  by (rewrite <- Z.pow_add_r by lia; f_equal; lia).
assert (2 ^ (- (ec + -58)) = 2 ^ 58 * 2 ^ (- ec)) as Hsplit2
  by (rewrite <- Z.pow_add_r by lia; f_equal; lia).
destruct (mul_bound mc 8646911284551352 ec (-58)) as [->|(m & e & -> & He & Hm)].
- lia.
- replace (52 - (ec + -58)) with (110 - ec) by lia.
  rewrite Hsplit, Hmc. nia.
- exists 0. split; [reflexivity | lia].
- rewrite Hsplit2, Hmc in Hm.
  replace (c * 2 ^ (- ec) * 8646911284551352)
    with (c * 8646911284551352 * 2 ^ (- ec)) in Hm by lia.
  rewrite Z.div_mul_cancel_r in Hm by lia.
  assert (c * 8646911284551352 / 2 ^ 58 + 1 <= c) as HV.
  { assert (c * 8646911284551352 / 2 ^ 58 < c); [|lia].
    apply Z.div_lt_upper_bound; lia. }
  assert (0 <= c * 8646911284551352 / 2 ^ 58) as HV0
    by (apply Z.div_pos; lia).
  cbn [Double.ceil_to_int].
  pose proof (ceil_pos_bounds m e _ He (Z.le_trans _ _ _ HV0 (Z.le_succ_diag_r _)) Hm) as Hb.
  exists (Double.ceil_pos m e).
  split; [apply checked_in_range; lia | lia].
Qed.

(** [frame_sizethreshold] is defined, and not negative. *)
Lemma frame_sizethreshold_defined (payload c : Z) :
0 <= payload < 2 ^ 31 -> 1 <= c < 2 ^ 31 ->
exists t, frame_sizethreshold payload c = Done t /\ 0 <= t < 2 ^ 31.
Proof.
intros Hp Hc. unfold frame_sizethreshold.
destruct (Z.eq_dec payload 0) as [->|Hne].
{ destruct (of_int_exact c ltac:(lia)) as (mc & ec & -> & _).
  exists 0. split; [reflexivity | lia]. }
destruct (of_int_exact payload ltac:(lia)) as (mp & ep & -> & Hep & Hmp).
destruct (of_int_exact c ltac:(lia)) as (mc & ec & -> & Hec & Hmc).
assert (0 < 2 ^ (- ep)) as Hpp by (apply Z.pow_pos_nonneg; lia).
assert (0 < 2 ^ (- ec)) as Hpc by (apply Z.pow_pos_nonneg; lia).
destruct (div_bound mp mc ep ec) as [->|(m & e & -> & He & Hm)]; try lia.
- replace (33 - ep) with (33 + - ep) by lia.
  rewrite Z.pow_add_r, Hmp by lia. nia.
- rewrite Hmc. nia.
- exists 0. split; [reflexivity | lia].
- assert (Z.pos mp * 2 ^ (- ec) / (Z.pos mc * 2 ^ (- ep)) = payload / c) as HW.
  { rewrite Hmp, Hmc.
    replace (payload * 2 ^ (- ep) * 2 ^ (- ec))
      with (payload * (2 ^ (- ec) * 2 ^ (- ep))) by lia.
    replace (c * 2 ^ (- ec) * 2 ^ (- ep))
      with (c * (2 ^ (- ec) * 2 ^ (- ep))) by lia.
    apply Z.div_mul_cancel_r; lia. }
  rewrite HW in Hm.
  assert (0 <= payload / c <= payload) as Hq.
  { split; [apply Z.div_pos; lia|].
    apply Z.div_le_upper_bound; nia. }
  assert (0 < 2 ^ (- e)) as Hpe by (apply Z.pow_pos_nonneg; lia).
  unfold Double.lit_1_66.
  destruct (div_bound m 7475975381435023 e (-52))
    as [->|(m2 & e2 & -> & He2 & Hm2)]; try lia.
  + replace (33 - e) with (33 + - e) by lia.
    rewrite Z.pow_add_r by lia. nia.
  + exists 0. split; [reflexivity | lia].
  + assert (Z.pos m * 2 ^ (- -52) / (7475975381435023 * 2 ^ (- e))
            < 2 ^ 31 - 1) as HW2.
    { apply Z.div_lt_upper_bound; [lia|].
      change (2 ^ (- -52)) with 4503599627370496.
      change (2 ^ 31) with 2147483648 in *. nia. }
    assert (0 <= Z.pos m * 2 ^ (- -52) / (7475975381435023 * 2 ^ (- e)))
      as HW0 by (apply Z.div_pos; lia).
    cbn [Double.to_int].
    pose proof (trunc_pos_bounds m2 e2 _ He2
                  (Z.le_trans _ _ _ HW0 (Z.le_succ_diag_r _)) Hm2) as Hb.
    exists (Double.trunc_pos m2 e2).
    split; [apply checked_in_range; lia | lia].
Qed.

(* ================================================================== *)
(** ** The loops of [idr_filtering] *)

(** A loop that keeps an invariant ends in a state that satisfies it. *)
Lemma for_loop_inv {S} (I : Z -> S -> Prop) (body : Z -> S -> outcome S)
    (n : nat) (a : Z) (s : S) :
  I a s ->
  (forall i s, a <= i < a + Z.of_nat n -> I i s ->
               exists s', body i s = Done s' /\ I (i + 1) s') ->
  exists s', for_loop n a body s = Done s' /\ I (a + Z.of_nat n) s'.
Proof.
  revert a s. induction n as [|n IH]; intros a s Hinit Hstep.
  - exists s. rewrite Z.add_0_r. auto.
  - destruct (Hstep a s ltac:(lia) Hinit) as (s1 & Hb & H1).
    destruct (IH (a + 1) s1 H1) as (s' & Hrun & Hend).
    { intros i s0 Hi. apply Hstep. lia. }
    exists s'. simpl. rewrite Hb. simpl. split; [exact Hrun|].
    replace (a + Z.of_nat (Datatypes.S n)) with (a + 1 + Z.of_nat n) by lia.
    exact Hend.
Qed.

Lemma for_range_inv {S} (I : Z -> S -> Prop) (body : Z -> S -> outcome S)
    (a b : Z) (s : S) :
  a <= b -> I a s ->
  (forall i s, a <= i < b -> I i s ->
               exists s', body i s = Done s' /\ I (i + 1) s') ->
  exists s', for_range a b body s = Done s' /\ I b s'.
Proof.
  intros Hab Hinit Hstep. unfold for_range.
  destruct (for_loop_inv I body (Z.to_nat (b - a)) a s Hinit) as (s' & Hrun & Hend).
  { intros i s0 Hi. apply Hstep. lia. }
  exists s'. split; [exact Hrun|].
  replace (a + Z.of_nat (Z.to_nat (b - a))) with b in Hend by lia. exact Hend.
Qed.

Lemma int32_small (z : Z) : - 2 ^ 31 <= z < 2 ^ 31 -> int32 z = z.
Proof.
  intros H. unfold int32.
  rewrite Z.mod_small; change (2 ^ 32) with 4294967296;
    change (2 ^ 31) with 2147483648 in *; lia.
Qed.

Lemma uint32_small (z : Z) : 0 <= z < 2 ^ 32 -> uint32 z = z.
Proof. intros H. unfold uint32. apply Z.mod_small. exact H. Qed.

(** *** The sum of the sizes *)

Lemma foldr_add_nonneg (l : list Z) :
  Forall (fun s => 0 <= s) l -> 0 <= foldr Z.add 0 l.
Proof. induction 1; simpl; lia. Qed.

Lemma sum_payload_loop (map : BitstreamMap_t) (sizes : list Z) (n : nat)
    (a acc : Z) :
  sample_size map = Some sizes ->
  Forall (fun s => 0 <= s) sizes ->
  0 <= a -> (Z.to_nat a + n)%nat = length sizes ->
  0 <= acc -> acc + foldr Z.add 0 (drop (Z.to_nat a) sizes) < 2 ^ 31 ->
  for_loop n a
    (fun i payload =>
       sizes ← deref (sample_size map);
       sz ← aget sizes i;
       Done (int32 (payload + sz))) acc
  = Done (acc + foldr Z.add 0 (drop (Z.to_nat a) sizes)).
Proof.
  intros Hsz Hpos. revert a acc.
  induction n as [|n IH]; intros a acc Ha Hlen Hacc Hsum.
  - rewrite drop_ge by lia. simpl. f_equal. lia.
  - destruct (lookup_lt_is_Some_2 sizes (Z.to_nat a)) as [sz Hsz']; [lia|].
    rewrite (drop_S _ _ _ Hsz') in *. cbn [foldr] in Hsum |- *.
    assert (0 <= sz) as Hsz0
      by (rewrite Forall_forall in Hpos; apply Hpos;
          eapply list_elem_of_lookup_2; exact Hsz').
    assert (0 <= foldr Z.add 0 (drop (Datatypes.S (Z.to_nat a)) sizes)) as Hrest
      by (apply foldr_add_nonneg, Forall_drop; exact Hpos).
    assert (deref (sample_size map)
              ≫= (fun sizes0 => aget sizes0 a
                    ≫= fun sz0 => Done (int32 (acc + sz0)))
            = Done (acc + sz)) as Hhead.
    { rewrite Hsz. simpl.
      rewrite (proj2 (aget_Done sizes a sz) (conj Ha Hsz')). simpl.
      rewrite int32_small by lia. reflexivity. }
    cbn [for_loop]. rewrite Hhead. simpl mbind.
    replace (Datatypes.S (Z.to_nat a)) with (Z.to_nat (a + 1)) in * by lia.
    rewrite IH by lia. f_equal. lia.
Qed.

Lemma valid_map_sizes (map : BitstreamMap_t) :
  valid_map map ->
  exists sizes, sample_size map = Some sizes /\
                length sizes = Z.to_nat (sample_count map) /\
                Forall (fun s => 0 <= s < 2 ^ 32) sizes.
Proof.
  intros [_ _ (ty & sz & off & pts & dts & _ & _ & Hsz & Hlen & _) Hall _].
  exists sz. rewrite Hsz in Hall. auto.
Qed.

Lemma sum_payload_valid (map : BitstreamMap_t) :
  valid_map map ->
  sum_payload map (int32 (sample_count map - sample_count_idr map))
  = Done (idr_payload map) /\ 0 <= idr_payload map < 2 ^ 31.
Proof.
  intros Hv. destruct (valid_map_sizes map Hv) as (sizes & Hsz & Hlen & Hall).
  destruct Hv as [Hidr Hcount _ _ Hpay].
  assert (Forall (fun s => 0 <= s) sizes) as Hpos
    by (eapply Forall_impl; [exact Hall | simpl; intros; lia]).
  rewrite int32_small by lia.
  unfold idr_payload, spspps_of, array_of in *. rewrite Hsz in *. simpl in *.
  split.
  - unfold sum_payload, for_range.
    rewrite (sum_payload_loop map sizes) by (auto; lia).
    reflexivity.
  - split; [apply foldr_add_nonneg, Forall_drop; exact Hpos | exact Hpay].
Qed.

(** *** The first cut *)

Lemma above_threshold_empty (map : BitstreamMap_t) (from to : Z) :
  to <= from -> above_threshold map from to = [].
Proof.
  intros H. unfold above_threshold. rewrite seqZ_nil by lia. reflexivity.
Qed.

Lemma above_threshold_step (map : BitstreamMap_t) (from to : Z) :
  from <= to ->
  above_threshold map from (to + 1)
  = above_threshold map from to
    ++ (if decide (threshold_of map < size_at map to) then [to] else []).
Proof.
  intros H. unfold above_threshold.
  replace (to + 1 - from) with ((to - from) + 1) by lia.
  rewrite seqZ_app, filter_app by lia.
  replace (from + (to - from)) with to by lia.
  f_equal.
Qed.

Lemma above_threshold_app (map : BitstreamMap_t) (from mid to : Z) :
  from <= mid <= to ->
  above_threshold map from to
  = above_threshold map from mid ++ above_threshold map mid to.
Proof.
  intros H. unfold above_threshold.
  replace (to - from) with ((mid - from) + (to - mid)) by lia.
  rewrite seqZ_app, filter_app by lia.
  replace (from + (mid - from)) with mid by lia. reflexivity.
Qed.

Lemma elem_of_above_threshold (map : BitstreamMap_t) (from to k : Z) :
  k ∈ above_threshold map from to
  <-> from <= k < to /\ threshold_of map < size_at map k.
Proof.
  unfold above_threshold. rewrite list_elem_of_filter, elem_of_seqZ.
  split; intros H; split; try apply H; lia.
Qed.


Lemma above_threshold_length (map : BitstreamMap_t) (from to : Z) :
  Z.of_nat (length (above_threshold map from to)) <= Z.max 0 (to - from).
Proof.
  unfold above_threshold.
  pose proof (length_filter (fun k => threshold_of map < size_at map k)
                (seqZ from (to - from))) as H.
  rewrite length_seqZ in H. lia.
Qed.

Lemma insert_after_prefix (l : list Z) (x : Z) (n : nat) :
  (length l < n)%nat ->
  <[length l := x]> (l ++ replicate (n - length l) 0)
  = (l ++ [x]) ++ replicate (n - length (l ++ [x])) 0.
Proof.
  intros H. rewrite insert_app_r_alt by lia. rewrite Nat.sub_diag.
  rewrite length_app. simpl.
  replace (n - length l)%nat with (Datatypes.S (n - (length l + 1))) by lia.
  simpl. rewrite <- app_assoc. reflexivity.
Qed.

(** The first cut leaves in [temporary_sample_id] the samples that pass,
    in the order of the map, followed by zeros. *)
Lemma first_cut_spec (map : BitstreamMap_t) :
  valid_map map ->
  0 <= borders_of map -> 0 <= threshold_of map < 2 ^ 31 ->
  (length (survivors map) <= 999)%nat ->
  first_cut map (spspps_of map) (threshold_of map) (borders_of map)
  = Done {| temporary_sample_id :=
              survivors map ++ replicate (999 - length (survivors map)) 0;
            temporary_totalsamples_idr := Z.of_nat (length (survivors map)) |}.
Proof.
  intros Hv Hb Ht Hlen.
  destruct (valid_map_sizes map Hv) as (sizes & Hsz & Hslen & Hall).
  pose proof (valid_idr map Hv) as Hidr.
  pose proof (valid_count map Hv) as Hcount.
  set (sp := spspps_of map) in *. set (b := borders_of map) in *.
  assert (sp = sample_count map - sample_count_idr map) as Hsp by reflexivity.
  unfold first_cut.
  destruct (Z.le_gt_cases (sample_count_idr map - b) b) as [Hempty|Hrange].
  { rewrite for_range_empty by lia. unfold survivors.
    rewrite above_threshold_empty by (fold sp b; lia). reflexivity. }
  set (I := fun (i : Z) (c : first_cut_state) =>
              c = {| temporary_sample_id :=
                       above_threshold map (sp + b) (sp + i)
                       ++ replicate
                            (999 - length (above_threshold map (sp + b) (sp + i))) 0;
                     temporary_totalsamples_idr :=
                       Z.of_nat (length (above_threshold map (sp + b) (sp + i))) |}).
  destruct (for_range_inv I (first_cut_body map sp (threshold_of map))
              b (sample_count_idr map - b)
              {| temporary_sample_id := replicate 999 0;
                 temporary_totalsamples_idr := 0 |})
    as (c & Hrun & Hend).
  - lia.
  - unfold I. rewrite above_threshold_empty by lia. reflexivity.
  - intros i c Hi ->. unfold first_cut_body.
    rewrite Hsz. simpl.
    destruct (lookup_lt_is_Some_2 sizes (Z.to_nat (i + sp))) as [sz Hsz']; [lia|].
    rewrite (proj2 (aget_Done sizes (i + sp) sz)) by (split; [lia | exact Hsz']).
    simpl. rewrite uint32_small by lia.
    assert (size_at map (sp + i) = sz) as Hsize.
    { unfold size_at, array_of. rewrite Hsz. simpl.
      replace (sp + i) with (i + sp) by lia. rewrite Hsz'. reflexivity. }
    pose proof (above_threshold_step map (sp + b) (sp + i) ltac:(lia)) as Hstep.
    rewrite Hsize in Hstep.
    replace (sp + i + 1) with (sp + (i + 1)) in Hstep by lia.
    assert (above_threshold map (sp + b) (sample_count map - b)
            = above_threshold map (sp + b) (sp + (i + 1))
              ++ above_threshold map (sp + (i + 1)) (sample_count map - b))
      as Hsplit by (apply above_threshold_app; lia).
    assert (length (above_threshold map (sp + b) (sp + (i + 1))) <= 999)%nat
      as Hle.
    { unfold survivors in Hlen. fold sp b in Hlen. rewrite Hsplit in Hlen.
      rewrite length_app in Hlen. lia. }
    set (S0 := above_threshold map (sp + b) (sp + i)) in *.
    destruct (Z.ltb_spec (threshold_of map) sz) as [Hpass|Hfail].
    + rewrite decide_True in Hstep by exact Hpass.
      rewrite Hstep, length_app in Hle. simpl in Hle.
      rewrite aset_in_range
        by (rewrite length_app, length_replicate; lia).
      rewrite Nat2Z.id. simpl. eexists. split; [reflexivity|].
      unfold I. rewrite Hstep.
      rewrite insert_after_prefix by lia.
      replace (i + sp) with (sp + i) by lia.
      f_equal. rewrite length_app. simpl. lia.
    + rewrite decide_False in Hstep by lia.
      rewrite app_nil_r in Hstep.
      eexists. split; [reflexivity|]. unfold I. rewrite Hstep. reflexivity.
  - rewrite Hrun. f_equal. unfold I in Hend. rewrite Hend. unfold survivors.
    fold sp b. replace (sp + (sample_count_idr map - b))
      with (sample_count map - b) by lia.
    reflexivity.
Qed.

(** *** Copying a sample *)

Lemma sample_at_neg (map : BitstreamMap_t) (k : Z) :
  k < 0 -> sample_at map k = None.
Proof. intros H. unfold sample_at. destruct (Z.ltb_spec k 0); [reflexivity|lia]. Qed.

Lemma sample_at_in_range (map : BitstreamMap_t) (n : nat) (k : Z) :
  arrays_len map n -> 0 <= k < Z.of_nat n -> is_Some (sample_at map k).
Proof.
  intros (ty & sz & off & pts & dts & Hty & Lty & Hsz & Lsz & Hoff & Loff
          & Hpts & Lpts & _) Hk.
  unfold sample_at, array_of. destruct (Z.ltb_spec k 0); [lia|].
  rewrite Hty, Hsz, Hoff, Hpts. simpl.
  destruct (lookup_lt_is_Some_2 ty (Z.to_nat k)) as [? ->]; [lia|].
  destruct (lookup_lt_is_Some_2 pts (Z.to_nat k)) as [? ->]; [lia|].
  destruct (lookup_lt_is_Some_2 off (Z.to_nat k)) as [? ->]; [lia|].
  destruct (lookup_lt_is_Some_2 sz (Z.to_nat k)) as [? ->]; [lia|].
  simpl. eauto.
Qed.

Lemma copy_sample_spec (src dst : BitstreamMap_t) (from to : Z) (n : nat)
    (e : Z * Z * Z * Z) :
  arrays_len dst n -> 0 <= to < Z.of_nat n -> sample_at src from = Some e ->
  exists dst',
    copy_sample src from to dst = Done dst' /\
    arrays_len dst' n /\
    sample_at dst' to = Some e /\
    (forall k, k <> to -> sample_at dst' k = sample_at dst k) /\
    sample_dts dst' = sample_dts dst /\
    sample_count dst' = sample_count dst /\
    sample_count_idr dst' = sample_count_idr dst.
Proof.
  intros (ty & sz & off & pts & dts & Hty & Lty & Hsz & Lsz & Hoff & Loff
          & Hpts & Lpts & Hdts & Ldts) Hto He.
  unfold sample_at, array_of in He.
  destruct (Z.ltb_spec from 0) as [|Hfrom]; [discriminate|].
  destruct (sample_type src) as [sty|] eqn:Esty; simpl in He; [|discriminate].
  destruct (sty !! Z.to_nat from) as [vt|] eqn:Evt; simpl in He; [|discriminate].
  destruct (sample_pts src) as [spts|] eqn:Espts; simpl in He; [|discriminate].
  destruct (spts !! Z.to_nat from) as [vp|] eqn:Evp; simpl in He; [|discriminate].
  destruct (sample_offset src) as [soff|] eqn:Esoff; simpl in He; [|discriminate].
  destruct (soff !! Z.to_nat from) as [vo|] eqn:Evo; simpl in He; [|discriminate].
  destruct (sample_size src) as [ssz|] eqn:Essz; simpl in He; [|discriminate].
  destruct (ssz !! Z.to_nat from) as [vs|] eqn:Evs; simpl in He; [|discriminate].
  injection He as <-.
  unfold copy_sample. rewrite Esty, Espts, Esoff, Essz, Hty, Hpts, Hoff, Hsz.
  simpl.
  rewrite (proj2 (aget_Done sty from vt)) by auto.
  rewrite (proj2 (aget_Done spts from vp)) by auto.
  rewrite (proj2 (aget_Done soff from vo)) by auto.
  rewrite (proj2 (aget_Done ssz from vs)) by auto.
  simpl. rewrite !aset_in_range by lia. simpl.
  eexists. split; [reflexivity|].
  split; [|split; [|split]]; simpl.
  - exists (<[Z.to_nat to := vt]> ty), (<[Z.to_nat to := vs]> sz),
      (<[Z.to_nat to := vo]> off), (<[Z.to_nat to := vp]> pts), dts.
    simpl. rewrite !length_insert. repeat split; auto.
  - unfold sample_at, array_of. simpl.
    destruct (Z.ltb_spec to 0); [lia|].
    rewrite !list_lookup_insert_eq by lia. reflexivity.
  - intros k Hk. unfold sample_at, array_of. simpl.
    destruct (Z.ltb_spec k 0); [reflexivity|].
    rewrite Hty, Hpts, Hoff, Hsz. simpl.
    rewrite !list_lookup_insert_ne by lia. reflexivity.
  - auto.
Qed.

(** *** Writing the filtered map *)

Lemma set_counts_arrays (count count_idr : Z) (map : BitstreamMap_t) (n : nat) :
  arrays_len map n -> arrays_len (set_counts count count_idr map) n.
Proof. intros H. exact H. Qed.

Lemma set_counts_sample_at (count count_idr : Z) (map : BitstreamMap_t) (k : Z) :
  sample_at (set_counts count count_idr map) k = sample_at map k.
Proof. reflexivity. Qed.

Lemma write_filtered_spec (mode : picture_extraction_mode)
    (map f0 : BitstreamMap_t) (spspps : Z) (c : first_cut_state)
    (p jump : Z) (n : nat) :
  mode <> PICTURE_UNFILTERED ->
  arrays_len f0 n -> 0 <= spspps -> 0 <= p -> spspps + p <= Z.of_nat n ->
  (forall k, 0 <= k < spspps -> is_Some (sample_at map k)) ->
  (forall i, 0 <= i < p ->
     exists id, aget (temporary_sample_id c) (second_cut_index mode jump i)
                = Done id /\ is_Some (sample_at map id)) ->
  exists f,
    write_filtered mode map spspps c p jump f0 = Done f /\
    arrays_len f n /\
    sample_count f = spspps + temporary_totalsamples_idr c /\
    sample_count_idr f = temporary_totalsamples_idr c /\
    sample_dts f = sample_dts f0 /\
    (forall k, 0 <= k < spspps -> sample_at f k = sample_at map k) /\
    (forall i, 0 <= i < p ->
       exists id, aget (temporary_sample_id c) (second_cut_index mode jump i)
                  = Done id /\
                  sample_at f (spspps + i) = sample_at map id) /\
    (forall k, spspps + p <= k -> sample_at f k = sample_at f0 k).
Proof.
  intros Hmode Hlen Hsp Hp Hfit Hsrc Hpick. unfold write_filtered.
  set (total := temporary_totalsamples_idr c).
  set (f1 := set_counts (spspps + total) total f0).
  (* the SPS and PPS *)
  set (I1 := fun (i : Z) (f : BitstreamMap_t) =>
               arrays_len f n /\
               sample_count f = spspps + total /\
               sample_count_idr f = total /\
               sample_dts f = sample_dts f0 /\
               (forall k, 0 <= k < i -> sample_at f k = sample_at map k) /\
               (forall k, i <= k -> sample_at f k = sample_at f0 k)).
  destruct (for_range_inv I1 (fun i f => copy_sample map i i f) 0 spspps f1)
    as (f2 & Hrun1 & Hl2 & Hc2 & Hi2 & Hd2 & Hlow2 & Hhigh2).
  { exact Hsp. }
  { unfold I1. repeat split; auto. intros; lia. }
  { intros i f Hi (Hl & Hc & Hci & Hd & Hlow & Hhigh).
    destruct (Hsrc i Hi) as [e He].
    destruct (copy_sample_spec map f i i n e Hl ltac:(lia) He)
      as (f' & Hcopy & Hl' & Hat & Hother & Hd' & Hc' & Hci').
    exists f'. split; [exact Hcopy|]. unfold I1.
    repeat split; try congruence.
    - intros k Hk. destruct (decide (k = i)) as [->|Hne]; [congruence|].
      rewrite Hother by exact Hne. apply Hlow. lia.
    - intros k Hk. rewrite Hother by lia. apply Hhigh. lia. }
  rewrite Hrun1. simpl.
  destruct (Z.le_gt_cases p 0) as [Hp0|Hp0].
  { rewrite for_range_empty by lia. exists f2. split; [reflexivity|].
    repeat split; auto.
    - intros i Hi. lia.
    - intros k Hk. apply Hhigh2. lia. }
  (* the chosen IDR *)
  set (I2 := fun (i : Z) (f : BitstreamMap_t) =>
               arrays_len f n /\
               sample_count f = spspps + total /\
               sample_count_idr f = total /\
               sample_dts f = sample_dts f0 /\
               (forall k, 0 <= k < spspps -> sample_at f k = sample_at map k) /\
               (forall j, 0 <= j < i ->
                  exists id,
                    aget (temporary_sample_id c) (second_cut_index mode jump j)
                    = Done id /\
                    sample_at f (spspps + j) = sample_at map id) /\
               (forall k, spspps + i <= k -> sample_at f k = sample_at f0 k)).
  destruct (for_range_inv I2
              (second_cut_body mode map spspps jump (temporary_sample_id c))
              0 p f2)
    as (f3 & Hrun2 & Hl3 & Hc3 & Hi3 & Hd3 & Hlow3 & Hmid3 & Hhigh3).
  { lia. }
  { unfold I2. repeat split; auto.
    - intros j Hj. lia.
    - intros k Hk. apply Hhigh2. lia. }
  { intros i f Hi (Hl & Hc & Hci & Hd & Hlow & Hmid & Hhigh).
    destruct (Hpick i Hi) as (id & Hid & [e He]).
    destruct (copy_sample_spec map f id (spspps + i) n e Hl ltac:(lia) He)
      as (f' & Hcopy & Hl' & Hat & Hother & Hd' & Hc' & Hci').
    exists f'. split.
    - unfold second_cut_body. unfold second_cut_index in Hid.
      destruct mode; [contradiction | |]; rewrite Hid; simpl; exact Hcopy.
    - unfold I2. repeat split; try congruence.
      + intros k Hk. rewrite Hother by lia. apply Hlow. exact Hk.
      + intros j Hj. destruct (decide (j = i)) as [->|Hne].
        * exists id. split; [exact Hid | congruence].
        * destruct (Hmid j ltac:(lia)) as (id' & Hid' & Hat').
          exists id'. split; [exact Hid'|]. rewrite Hother by lia. exact Hat'.
      + intros k Hk. rewrite Hother by lia. apply Hhigh. lia. }
  exists f3. split; [exact Hrun2|]. repeat split; auto.
Qed.

(** *** The whole filter *)

Lemma init_bitstream_map_success (p : nat) (entries : Z) (m : memory) :
  handles m !! p = Some None -> entries <> 0 ->
  six_callocs_succeed m = true ->
  init_bitstream_map p entries m
  = Done (SUCCESS,
          {| maps := maps m ++ [Some (zeroed_map entries)];
             handles := <[p := Some (length (maps m))]> (handles m);
             calloc_plan := drop 6 (calloc_plan m) |}).
Proof.
  intros Hp He Hok. unfold init_bitstream_map.
  rewrite (proj2 (load_handle_Done _ _ _) Hp). simpl.
  rewrite (proj2 (Z.eqb_neq _ _) He).
  destruct m as [ms hs plan]. simpl in Hp.
  assert (forall v, <[p := v]> hs !! p = Some v) as Hsame.
  { intros v. apply list_lookup_insert_eq. apply lookup_lt_is_Some. eauto. }
  unfold six_callocs_succeed in Hok. simpl in Hok.
  unfold calloc_array, calloc.
  destruct plan as [|[] [|[] [|[] [|[] [|[] [|[] plan]]]]]];
    try discriminate Hok;
    repeat (simpl;
            unfold store_handle, store_map, free_map, set_handles, set_maps,
              set_calloc_plan;
            simpl; rewrite ?insert_snoc_new, ?Hp, ?Hsame, ?lookup_snoc_new);
    reflexivity.
Qed.

Lemma filter_values (map : BitstreamMap_t) :
  valid_map map -> 0 < sample_count_idr map ->
  frame_sizethreshold (idr_payload map) (sample_count_idr map)
    = Done (threshold_of map) /\
  0 <= threshold_of map < 2 ^ 31 /\
  frame_borders (sample_count_idr map) = Done (borders_of map) /\
  0 <= borders_of map <= sample_count_idr map.
Proof.
  intros Hv Hidr.
  destruct (sum_payload_valid map Hv) as [_ Hpay].
  pose proof (valid_idr map Hv) as Hi. pose proof (valid_count map Hv) as Hc.
  destruct (frame_sizethreshold_defined (idr_payload map) (sample_count_idr map))
    as (t & Ht & Htr); [exact Hpay | lia |].
  destruct (frame_borders_defined (sample_count_idr map)) as (b & Hb & Hbr); [lia|].
  unfold threshold_of, borders_of. rewrite Ht, Hb. auto.
Qed.

Lemma survivors_in_map (map : BitstreamMap_t) (id : Z) :
  valid_map map -> 0 <= borders_of map ->
  id ∈ survivors map -> 0 <= id < sample_count map.
Proof.
  intros Hv Hb Hin. pose proof (valid_idr map Hv).
  apply elem_of_above_threshold in Hin as [Hin _].
  unfold spspps_of in Hin. lia.
Qed.

Lemma survivors_length (map : BitstreamMap_t) :
  valid_map map -> 0 <= borders_of map ->
  Z.of_nat (length (survivors map)) <= sample_count_idr map.
Proof.
  intros Hv Hb. pose proof (valid_idr map Hv).
  pose proof (above_threshold_length map (spspps_of map + borders_of map)
                (sample_count map - borders_of map)) as Hl.
  unfold survivors, spspps_of in *. lia.
Qed.

Lemma ids_lookup (l : list Z) (j : Z) :
  (length l <= 999)%nat -> 0 <= j < 999 ->
  exists id, aget (l ++ replicate (999 - length l) 0) j = Done id /\
             (l ++ replicate (999 - length l) 0) !! Z.to_nat j = Some id /\
             (id ∈ l \/ id = 0).
Proof.
  intros Hl Hj.
  destruct (lookup_lt_is_Some_2 (l ++ replicate (999 - length l) 0) (Z.to_nat j))
    as [id Hid]; [rewrite length_app, length_replicate; lia|].
  exists id. split; [apply aget_Done; split; [lia | exact Hid]|].
  split; [exact Hid|].
  apply lookup_app_Some in Hid as [Hid|[_ Hid]].
  - left. eapply list_elem_of_lookup_2. exact Hid.
  - right. apply lookup_replicate in Hid as [-> _]. reflexivity.
Qed.

Lemma quot_mul_le (total d i : Z) :
  0 <= total -> 0 < d -> 0 <= i <= d -> 0 <= i * Z.quot total d <= total.
Proof.
  intros Ht Hd Hi. rewrite Z.quot_div_nonneg by lia.
  pose proof (Z.mul_div_le total d Hd) as H1.
  assert (0 <= total / d) as H0 by (apply Z.div_pos; lia).
  nia.
Qed.

Lemma zeroed_map_arrays (entries : Z) :
  arrays_len (zeroed_map entries) (Z.to_nat entries).
Proof.
  unfold arrays_len, zeroed_map. simpl.
  eexists _, _, _, _, _. repeat split; apply length_replicate.
Qed.

Lemma zeroed_map_sample_at (entries k : Z) :
  0 <= k < entries -> sample_at (zeroed_map entries) k = Some (0, 0, 0, 0).
Proof.
  intros Hk. unfold sample_at, zeroed_map, array_of. simpl.
  destruct (Z.ltb_spec k 0); [lia|].
  rewrite lookup_replicate_2 by lia. reflexivity.
Qed.

Lemma clamp_twice (map : BitstreamMap_t) (n total : Z) :
  0 < sample_count_idr map -> sample_count_idr map < 2 ^ 31 -> 0 <= n ->
  total <= sample_count_idr map ->
  (if total <? clamp_to_idr map n then total else clamp_to_idr map n)
  = Z.min n total.
Proof.
  intros Hidr Hint Hn Ht. unfold clamp_to_idr.
  destruct (Z.eqb_spec (sample_count_idr map) 0); [lia|].
  rewrite int32_small by lia.
  assert (uint32 n <= n) by (apply Z.mod_le; lia).
  destruct (Z.ltb_spec (sample_count_idr map) (uint32 n));
    match goal with |- context [?a <? ?b] => destruct (Z.ltb_spec a b) end; lia.
Qed.

(** What [idr_filtering] does on a valid map with IDR samples, in the
    modes ORDERED and DISTRIBUTED, when the survivors fit the array, the
    division of [frame_jump] is defined and the allocations succeed. *)
Lemma idr_filtering_spec (h l : nat) (map : BitstreamMap_t) (n : Z)
    (mode : picture_extraction_mode) (m : memory) :
  handles m !! h = Some (Some l) -> maps m !! l = Some (Some map) ->
  valid_map map -> 0 < sample_count_idr map ->
  mode <> PICTURE_UNFILTERED -> 0 <= n ->
  six_callocs_succeed m = true ->
  (length (survivors map) < 999)%nat ->
  Z.min n (Z.of_nat (length (survivors map))) <> 1 ->
  0 < spspps_of map + Z.of_nat (length (survivors map)) ->
  let total := Z.of_nat (length (survivors map)) in
  let p := Z.min n total in
  exists filtered,
    idr_filtering_frame (Some h) n mode m
    = Done (p, Some (length (maps m)),
            {| maps := <[l := None]> (maps m ++ [Some filtered]);
               handles := <[h := None]> (handles m);
               calloc_plan := drop 6 (calloc_plan m) |}) /\
    arrays_len filtered (Z.to_nat (spspps_of map + total)) /\
    sample_count filtered = spspps_of map + total /\
    sample_count_idr filtered = total /\
    (forall k, 0 <= k < spspps_of map -> sample_at filtered k = sample_at map k) /\
    (forall i, 0 <= i < p ->
       sample_at filtered (spspps_of map + i)
       = sample_at map (picked mode map p i)) /\
    (forall k, spspps_of map + p <= k < spspps_of map + total ->
       sample_at filtered k = Some (0, 0, 0, 0)) /\
    (forall k, 0 <= k < spspps_of map + total -> dts_at filtered k = Some 0).
Proof.
  intros Hh Hl Hv Hidr Hmode Hn Hok Hlen Hp1 Hentries total p.
  destruct (filter_values map Hv Hidr) as (Ht & Htr & Hb & Hbr).
  destruct (sum_payload_valid map Hv) as [Hsum _].
  pose proof (valid_idr map Hv) as Hi. pose proof (valid_count map Hv) as Hc.
  pose proof (survivors_length map Hv ltac:(lia)) as Htot. fold total in Htot.
  assert (0 <= total) as Htot0 by (unfold total; lia).
  assert (int32 (sample_count map - sample_count_idr map) = spspps_of map)
    as Hsp by (unfold spspps_of; apply int32_small; lia).
  assert (0 <= spspps_of map) as Hsp0 by (unfold spspps_of; lia).
  assert (spspps_of map + total <= sample_count map) as Hfit
    by (unfold spspps_of; lia).
  unfold idr_filtering_frame.
  rewrite (proj2 (load_handle_Done _ _ _) Hh). simpl.
  unfold load_map at 1. rewrite Hl. simpl.
  assert (forall X, match mode with
                    | PICTURE_UNFILTERED => X
                    | _ => idr_filtering_else h map (clamp_to_idr map n) mode m
                    end = idr_filtering_else h map (clamp_to_idr map n) mode m) as ->
    by (intros; destruct mode; [contradiction | reflexivity | reflexivity]).
  unfold idr_filtering_else. rewrite Hsum. simpl. rewrite Hsp.
  rewrite Ht. simpl. rewrite Hb. simpl.
  rewrite (first_cut_spec map Hv (proj1 Hbr) Htr) by lia. simpl.
  fold total. rewrite (clamp_twice map n total Hidr ltac:(lia) Hn Htot). fold p.
  unfold frame_jump_of.
  rewrite (proj2 (Z.eqb_neq (p - 1) 0)) by (unfold p, total; lia).
  simpl.
  rewrite uint32_small by lia.
  rewrite (init_bitstream_map_success (length (handles m))
             (spspps_of map + total)
             (set_handles (handles m ++ [None]) m));
    [|simpl; apply lookup_snoc_new | lia | exact Hok].
  simpl. rewrite insert_snoc_new.
  unfold load_handle at 1. simpl. rewrite lookup_snoc_new. simpl.
  unfold load_map at 1. simpl. rewrite lookup_snoc_new. simpl.
  (* the map that is written *)
  set (c := {| temporary_sample_id :=
                 survivors map ++ replicate (999 - length (survivors map)) 0;
               temporary_totalsamples_idr := total |}).
  set (jump := Z.quot total (p - 1)).
  destruct (write_filtered_spec mode map (zeroed_map (spspps_of map + total))
              (spspps_of map) c p jump (Z.to_nat (spspps_of map + total)))
    as (f & Hrun & Hfl & Hfc & Hfi & Hfd & Hlow & Hmid & Hhigh).
  { exact Hmode. }
  { apply zeroed_map_arrays. }
  { exact Hsp0. }
  { unfold p. lia. }
  { unfold p. lia. }
  { intros k Hk. apply (sample_at_in_range map (Z.to_nat (sample_count map)));
      [apply (valid_arrays map Hv) | unfold spspps_of in Hk; lia]. }
  { intros i Hi'.
    assert (0 <= second_cut_index mode jump i < 999) as Hidx.
    { unfold second_cut_index. destruct mode; [contradiction | unfold p in *; lia |].
      assert (2 <= p) by (unfold p in *; lia).
      pose proof (quot_mul_le total (p - 1) i Htot0 ltac:(lia) ltac:(lia)).
      fold jump in H0. lia. }
    destruct (ids_lookup (survivors map) _ ltac:(lia) Hidx) as (id & Hid & _ & Hwhere).
    exists id. split; [exact Hid|].
    apply (sample_at_in_range map (Z.to_nat (sample_count map)));
      [apply (valid_arrays map Hv)|].
    destruct Hwhere as [Hin| ->]; [|lia].
    pose proof (survivors_in_map map id Hv ltac:(lia) Hin). lia. }
  rewrite Hrun. simpl.
  unfold store_map. simpl. rewrite lookup_snoc_new. simpl.
  rewrite insert_snoc_new.
  unfold free_bitstream_map, load_handle. simpl.
  assert (h < length (handles m))%nat as Hhlt
    by (apply lookup_lt_is_Some; eauto).
  rewrite lookup_app_l by exact Hhlt. rewrite Hh. simpl.
  assert (l < length (maps m))%nat as Hllt
    by (apply lookup_lt_is_Some; eauto).
  unfold free_map. simpl. rewrite lookup_app_l by exact Hllt. rewrite Hl. simpl.
  unfold store_handle. simpl. rewrite lookup_app_l by exact Hhlt. rewrite Hh. simpl.
  rewrite insert_app_l by exact Hhlt.
  rewrite take_app_length' by (rewrite length_insert; reflexivity).
  exists f. split; [reflexivity|].
  split; [exact Hfl|]. split; [exact Hfc|]. split; [exact Hfi|].
  split; [exact Hlow|]. split; [|split].
  - intros i Hi'. destruct (Hmid i Hi') as (id & Hid & Hat).
    rewrite Hat. f_equal. unfold picked. fold total. fold jump.
    apply aget_Done in Hid as [Hidx Hid]. simpl in Hid.
    unfold second_cut_index in Hid, Hidx.
    destruct mode; [contradiction | |]; rewrite Hid; reflexivity.
  - intros k Hk. rewrite Hhigh by lia. apply zeroed_map_sample_at. lia.
  - intros k Hk. unfold dts_at. rewrite Hfd. simpl.
    destruct (Z.ltb_spec k 0); [lia|].
    apply lookup_replicate_2. lia.
Qed.

(* ================================================================== *)
(** ** [idr_filtering]: the claims *)

Ltac prove_example_valid :=
  constructor;
  [ vm_compute; split; discriminate
  | vm_compute; reflexivity
  | eexists _, _, _, _, _; vm_compute; repeat split; reflexivity
  | cbv [array_of example_map example_map_of sample_size default app];
    repeat (constructor; [lia|]); constructor
  | vm_compute; reflexivity ].

Lemma example_map_valid : valid_map example_map.
Proof. prove_example_valid. Qed.



(** C2, as the code has it.  On a valid map with IDR samples, in the
    modes ORDERED and DISTRIBUTED, for [n >= 0], when fewer than 999
    samples survive the first cut, [min(n, survivors)] is not 1, the
    filtered map has at least one slot and the allocations succeed:
    [idr_filtering] returns [min(n, survivors)]; the filtered map records
    all the survivors in its counts ([sample_count_idr] is their number),
    its first [min(n, survivors)] IDR slots hold the chosen samples and
    the other IDR slots are zero. *)
Theorem idr_filtering_returns_clamped (h l : nat) (map : BitstreamMap_t)
    (n : Z) (mode : picture_extraction_mode) (m : memory)
    (Hhandle : handles m !! h = Some (Some l))
    (Hmap : maps m !! l = Some (Some map))
    (Hvalid : valid_map map) (Hidr : 0 < sample_count_idr map)
    (Hmode : mode <> PICTURE_UNFILTERED) (Hn : 0 <= n)
    (Halloc : six_callocs_succeed m = true)
    (Hfit : (length (survivors map) < 999)%nat)
    (Hjump : Z.min n (Z.of_nat (length (survivors map))) <> 1)
    (Hslots : 0 < spspps_of map + Z.of_nat (length (survivors map))) :
  let total := Z.of_nat (length (survivors map)) in
  exists m' l' filtered,
    idr_filtering (Some h) n mode m = Done (Z.min n total, m') /\
    idr_filtering_frame (Some h) n mode m = Done (Z.min n total, Some l', m') /\
    maps m' !! l' = Some (Some filtered) /\
    sample_count_idr filtered = total /\
    sample_count filtered = spspps_of map + total /\
    arrays_len filtered (Z.to_nat (spspps_of map + total)) /\
    (forall i, 0 <= i < Z.min n total ->
       sample_at filtered (spspps_of map + i)
       = sample_at map (picked mode map (Z.min n total) i)) /\
    (forall k, spspps_of map + Z.min n total <= k < spspps_of map + total ->
       sample_at filtered k = Some (0, 0, 0, 0)).
Proof.
  intros total.
  destruct (idr_filtering_spec h l map n mode m Hhandle Hmap Hvalid Hidr Hmode
              Hn Halloc Hfit Hjump Hslots)
    as (f & Hrun & Hlen & Hc & Hci & _ & Hmid & Hhigh & _).
  eexists _, (length (maps m)), f.
  split; [unfold idr_filtering; rewrite Hrun; reflexivity|].
  split; [exact Hrun|]. cbn [maps].
  split.
  { assert (l < length (maps m))%nat by (apply lookup_lt_is_Some; eauto).
    rewrite list_lookup_insert_ne by lia. apply lookup_snoc_new. }
  auto.
Qed.

Lemma idr_filtering_returns_clamped_witness :
  exists m',
    idr_filtering (Some 0%nat) 2 PICTURE_ORDERED example_memory = Done (2, m').
Proof.
  destruct (idr_filtering_returns_clamped 0 0 example_map 2 PICTURE_ORDERED
              example_memory) as (m' & _ & _ & Hrun & _).
  - reflexivity.
  - reflexivity.
  - prove_example_valid.
  - vm_compute. reflexivity.
  - discriminate.
  - lia.
  - reflexivity.
  - vm_compute. lia.
  - vm_compute. discriminate.
  - vm_compute. reflexivity.
  - exists m'. exact Hrun.
Defined.

(** The claim C2 fails on the example map for [n = 2]: four samples
    survive, the filter returns 2, and the filtered map records four IDR
    entries. *)
Lemma filtered_map_counts_all_survivors :
  exists m' filtered,
    idr_filtering_frame (Some 0%nat) 2 PICTURE_ORDERED example_memory
      = Done (Z.min 2 (Z.of_nat (length (survivors example_map))),
              Some 1%nat, m') /\
    maps m' !! 1%nat = Some (Some filtered) /\
    sample_count_idr filtered = 4 /\
    sample_count_idr filtered
      <> Z.min 2 (Z.of_nat (length (survivors example_map))) /\
    sample_count filtered - spspps_of example_map
      <> Z.min 2 (Z.of_nat (length (survivors example_map))).
Proof.
  eexists _, _. split; [vm_compute; reflexivity|].
  split; [reflexivity|]. split; [reflexivity|].
  split; vm_compute; discriminate.
Qed.

(** C8, as the code has it.  Under the same conditions, the first
    [spspps] entries of the filtered map are those of the original map
    in [sample_type], [sample_pts], [sample_offset] and [sample_size];
    [sample_dts] is not copied, it stays zero. *)
Theorem idr_filtering_keeps_parameter_sets (h l : nat) (map : BitstreamMap_t)
    (n : Z) (mode : picture_extraction_mode) (m : memory)
    (Hhandle : handles m !! h = Some (Some l))
    (Hmap : maps m !! l = Some (Some map))
    (Hvalid : valid_map map) (Hidr : 0 < sample_count_idr map)
    (Hmode : mode <> PICTURE_UNFILTERED) (Hn : 0 <= n)
    (Halloc : six_callocs_succeed m = true)
    (Hfit : (length (survivors map) < 999)%nat)
    (Hjump : Z.min n (Z.of_nat (length (survivors map))) <> 1)
    (Hslots : 0 < spspps_of map + Z.of_nat (length (survivors map))) :
  exists r m' l' filtered,
    idr_filtering_frame (Some h) n mode m = Done (r, Some l', m') /\
    maps m' !! l' = Some (Some filtered) /\
    forall i, 0 <= i < spspps_of map ->
      sample_at filtered i = sample_at map i /\
      is_Some (sample_at map i) /\
      dts_at filtered i = Some 0.
Proof.
  destruct (idr_filtering_spec h l map n mode m Hhandle Hmap Hvalid Hidr Hmode
              Hn Halloc Hfit Hjump Hslots)
    as (f & Hrun & _ & _ & _ & Hlow & _ & _ & Hdts).
  eexists _, _, (length (maps m)), f.
  split; [exact Hrun|]. cbn [maps].
  split.
  { assert (l < length (maps m))%nat by (apply lookup_lt_is_Some; eauto).
    rewrite list_lookup_insert_ne by lia. apply lookup_snoc_new. }
  intros i Hi. split; [apply Hlow; exact Hi|].
  split.
  - apply (sample_at_in_range map (Z.to_nat (sample_count map)));
      [apply (valid_arrays map Hvalid)|].
    pose proof (valid_idr map Hvalid). unfold spspps_of in Hi. lia.
  - apply Hdts. lia.
Qed.

Lemma idr_filtering_keeps_parameter_sets_witness :
  exists r m' l' filtered,
    idr_filtering_frame (Some 0%nat) 2 PICTURE_ORDERED example_memory
      = Done (r, Some l', m') /\
    maps m' !! l' = Some (Some filtered) /\
    sample_at filtered 1 = sample_at example_map 1.
Proof.
  destruct (idr_filtering_keeps_parameter_sets 0 0 example_map 2
              PICTURE_ORDERED example_memory)
    as (r & m' & l' & f & Hrun & Hf & Hlow).
  - reflexivity.
  - reflexivity.
  - prove_example_valid.
  - vm_compute. reflexivity.
  - discriminate.
  - lia.
  - reflexivity.
  - vm_compute. lia.
  - vm_compute. discriminate.
  - vm_compute. reflexivity.
  - exists r, m', l', f. split; [exact Hrun|]. split; [exact Hf|].
    apply Hlow. vm_compute. split; [discriminate | reflexivity].
Defined.

(** The claim C8 fails on the example map in [sample_dts]: the first
    sample has [dts] 1 in the original map and 0 in the filtered map. *)
Lemma filtered_map_loses_dts :
  exists m' filtered,
    idr_filtering_frame (Some 0%nat) 2 PICTURE_ORDERED example_memory
      = Done (2, Some 1%nat, m') /\
    maps m' !! 1%nat = Some (Some filtered) /\
    0 < spspps_of example_map /\
    dts_at example_map 0 = Some 1 /\
    dts_at filtered 0 = Some 0 /\
    dts_at filtered 0 <> dts_at example_map 0.
Proof.
  eexists _, _. split; [vm_compute; reflexivity|].
  split; [reflexivity|]. split; [reflexivity|].
  split; [reflexivity|]. split; [reflexivity|]. vm_compute. discriminate.
Qed.

(** C1, on the example map.  [idr_filtering] returns 2; afterwards the
    caller's handle is NULL, the old map is freed, the filtered map is
    on the heap and no handle points to it. *)
Theorem idr_filtering_caller_handle_is_null :
  exists m' filtered,
    idr_filtering (Some 0%nat) 2 PICTURE_ORDERED example_memory = Done (2, m') /\
    handles m' = [None] /\
    maps m' = [None; Some filtered] /\
    sample_count_idr filtered = 4 /\
    forall h, handles m' !! h <> Some (Some 1%nat).
Proof.
  eexists _, _. split; [vm_compute; reflexivity|].
  split; [reflexivity|]. split; [reflexivity|]. split; [reflexivity|].
  intros [|[|h]]; discriminate.
Qed.

(** C4, on the example map.  In the mode DISTRIBUTED with three
    pictures asked, four samples survive, the jump is 2, and the third
    picture is read at index 4 of [temporary_sample_id], past the four
    survivors: the slot holds 0, and the sample copied is sample 0 of the
    map, a parameter set. *)
Theorem distributed_reads_past_the_survivors :
  exists m' filtered,
    survivors example_map = [3; 4; 5; 6] /\
    frame_jump_of 4 3 = Done 2 /\
    second_cut_index PICTURE_DISTRIBUTED 2 2 = 4 /\
    idr_filtering_frame (Some 0%nat) 3 PICTURE_DISTRIBUTED example_memory
      = Done (3, Some 1%nat, m') /\
    maps m' !! 1%nat = Some (Some filtered) /\
    sample_at filtered (spspps_of example_map + 2) = sample_at example_map 0 /\
    0 ∉ survivors example_map.
Proof.
  eexists _, _. split; [vm_compute; reflexivity|].
  split; [reflexivity|]. split; [reflexivity|].
  split; [vm_compute; reflexivity|].
  split; [reflexivity|]. split; [reflexivity|].
  intros H. apply elem_of_above_threshold in H as [[H _] _].
  vm_compute in H. apply H. reflexivity.
Qed.

(* ================================================================== *)
(** ** The theorems on the example data *)


Lemma checkDecodingContext_success_iff_witness :
  indices_in_range example_context /\
  exists r, checkDecodingContext example_context = Done r /\
            (r = SUCCESS \/ r = FAILURE) /\
            (r = SUCCESS <-> context_complete example_context).
Proof.
  assert (indices_in_range example_context) as Hrange.
  { split; [vm_compute; split; [discriminate | reflexivity]|].
    split; [vm_compute; split; [discriminate | reflexivity]|].
    intros slice [= <-].
    split; [vm_compute; split; [discriminate | reflexivity]|].
    intros p [= <-]. vm_compute. split; [discriminate | reflexivity]. }
  split; [exact Hrange|].
  exact (proj1 (checkDecodingContext_success_iff example_context Hrange)).
Defined.

Lemma computeNormAdjust_tables_witness :
  exists dc',
    computeNormAdjust (Some example_context) = Done (SUCCESS, Some dc') /\
    tlookup (normAdjust4x4 dc') 2 1 3 = Some 20 /\
    tlookup (normAdjust8x8 dc') 5 4 6 = Some 46.
Proof.
  destruct (computeNormAdjust_tables example_context) as (dc' & Hrun & _).
  - split; [reflexivity|]. repeat constructor.
  - split; [reflexivity|]. repeat constructor.
  - exists dc'. split; [exact Hrun|].
    vm_compute in Hrun. injection Hrun as <-. split; reflexivity.
Defined.

Lemma init_bitstream_map_spec_witness :
  handles null_handle_memory !! 0%nat = Some None /\
  exists m' l,
    init_bitstream_map 0 4 null_handle_memory = Done (SUCCESS, m') /\
    handles m' !! 0%nat = Some (Some l) /\
    maps m' !! l = Some (Some (zeroed_map 4)).
Proof.
  split; [reflexivity|].
  destruct (proj2 (init_bitstream_map_spec 0 4 null_handle_memory None eq_refl)
              eq_refl ltac:(discriminate))
    as (m' & Hrun & Hres).
  change (six_callocs_succeed null_handle_memory) with true in Hrun, Hres.
  destruct Hres as (l & Hh & _ & Hm).
  exists m', l. auto.
Defined.

(* ================================================================== *)
(** ** The limits of C3 and C5 *)





(* ================================================================== *)
(** * utils.c: the arithmetic helpers *)

Lemma int_op_Ok (z : Z) : - 2 ^ 31 <= z < 2 ^ 31 -> int_op z = Ok z.
Proof.
  intros H. unfold int_op, Double.in_int.
  destruct (Z.leb_spec (- 2 ^ 31) z); [|lia].
  destruct (Z.ltb_spec z (2 ^ 31)); [reflexivity | lia].
Qed.

Lemma int_op_overflow (z : Z) :
  z < - 2 ^ 31 \/ 2 ^ 31 <= z -> int_op z = SignedOverflow.
Proof.
  intros H. unfold int_op, Double.in_int.
  destruct (Z.leb_spec (- 2 ^ 31) z); [|reflexivity].
  destruct (Z.ltb_spec z (2 ^ 31)); [lia | reflexivity].
Qed.

Lemma int_op_inv (z r : Z) : int_op z = Ok r -> r = z /\ - 2 ^ 31 <= z < 2 ^ 31.
Proof.
  unfold int_op, Double.in_int.
  destruct (Z.leb_spec (- 2 ^ 31) z); simpl; [|discriminate].
  destruct (Z.ltb_spec z (2 ^ 31)); [|discriminate].
  intros [= <-]. lia.
Qed.

(** ** [fast_mod8] and [fast_div8] *)

Lemma fast_mod8_mod (n : Z) : fast_mod8 n = n mod 8.
Proof. unfold fast_mod8. apply (Z.land_ones n 3). lia. Qed.

Lemma fast_div8_div (n : Z) : fast_div8 n = n / 8.
Proof. unfold fast_div8. apply (Z.shiftr_div_pow2 n 3). lia. Qed.

(** X1. The two fast operations are those of the division that rounds down,
    for a negative [n] too: the remainder is in [0, 7] and
    [n == 8 * fast_div8(n) + fast_mod8(n)].  They are the operators [/]
    and [%] of C, which round towards zero, exactly when [n] is not
    negative or is a multiple of 8. *)
Theorem fast_div8_mod8_euclid (n : Z) :
  n = 8 * fast_div8 n + fast_mod8 n /\
  0 <= fast_mod8 n < 8 /\
  (fast_mod8 n = Z.rem n 8 /\ fast_div8 n = Z.quot n 8
   <-> 0 <= n \/ fast_mod8 n = 0).
Proof.
  rewrite fast_mod8_mod, fast_div8_div.
  pose proof (Z.div_mod n 8 ltac:(lia)) as Hdm.
  pose proof (Z.mod_pos_bound n 8 ltac:(lia)) as Hm.
  pose proof (Z.quot_rem n 8 ltac:(lia)) as Hqr.
  split; [lia|]. split; [lia|].
  destruct (Z.le_gt_cases 0 n) as [Hn|Hn].
  - pose proof (Z.rem_bound_pos n 8 Hn ltac:(lia)) as Hr.
    split; [auto|]. intros _. split; lia.
  - pose proof (Z.rem_bound_pos_neg n 8 ltac:(lia) ltac:(lia)) as Hr.
    split.
    + intros [Hrem _]. right. lia.
    + intros [?|H0]; [lia|]. split; lia.
Qed.

(** ** [imedian] *)

Ltac perm3 :=
  first
    [ reflexivity
    | apply perm_swap
    | apply perm_skip, perm_swap
    | etrans; [apply perm_swap|]; apply perm_skip, perm_swap
    | etrans; [apply perm_skip, perm_swap|]; apply perm_swap
    | etrans; [apply perm_swap|];
      etrans; [apply perm_skip, perm_swap|]; apply perm_swap ].

(** X2. [imedian(a, b, c)] is the middle one of its three arguments: they
    are, in some order, a value not above it, itself, and a value not
    below it. *)
Theorem imedian_is_middle (a b c : Z) :
  exists lo hi,
    [a; b; c] ≡ₚ [lo; imedian a b c; hi] /\
    lo <= imedian a b c <= hi.
Proof.
  unfold imedian.
  destruct (Z.gtb_spec a b), (Z.gtb_spec b c), (Z.gtb_spec a c); try lia;
    first [ exists a, b; split; [perm3 | lia]
          | exists a, c; split; [perm3 | lia]
          | exists b, a; split; [perm3 | lia]
          | exists b, c; split; [perm3 | lia]
          | exists c, a; split; [perm3 | lia]
          | exists c, b; split; [perm3 | lia] ].
Qed.

(** ** The clips *)

Lemma imin_min (a b : Z) : imin a b = Z.min a b.
Proof. unfold imin. destruct (Z.ltb_spec a b); lia. Qed.

Lemma imax_max (a b : Z) : imax a b = Z.max a b.
Proof. unfold imax. destruct (Z.gtb_spec a b); lia. Qed.

(** X3. [iClip3(low, high, x)]: with [low <= high] the result is in
    [low, high] and is [x] when [x] is; with [high < low] it is [high]
    whatever [x] is; and a second clip changes nothing. *)
Theorem iClip3_range (low high x : Z) :
  (low <= high ->
     low <= iClip3 low high x <= high /\
     (low <= x <= high -> iClip3 low high x = x) /\
     (x < low -> iClip3 low high x = low) /\
     (high < x -> iClip3 low high x = high)) /\
  (high < low -> iClip3 low high x = high) /\
  iClip3 low high (iClip3 low high x) = iClip3 low high x.
Proof.
  unfold iClip3. rewrite !imin_min, !imax_max. repeat split; intros; lia.
Qed.

(** ** The absolute values *)

Lemma shiftr_sign (w x : Z) :
  0 <= w -> - 2 ^ w <= x < 2 ^ w -> Z.shiftr x w = if x <? 0 then - 1 else 0.
Proof.
  intros Hw Hx. rewrite Z.shiftr_div_pow2 by exact Hw.
  assert (0 < 2 ^ w) by (apply Z.pow_pos_nonneg; lia).
  destruct (Z.ltb_spec x 0).
  - symmetry. apply (Z.div_unique x (2 ^ w) (- 1) (x + 2 ^ w)); lia.
  - apply Z.div_small. lia.
Qed.

Lemma xor_sign_abs (w x : Z) :
  0 <= w -> - 2 ^ w <= x < 2 ^ w ->
  Z.lxor x (Z.shiftr x w) - Z.shiftr x w = Z.abs x.
Proof.
  intros Hw Hx. rewrite (shiftr_sign w x Hw Hx).
  destruct (Z.ltb_spec x 0).
  - rewrite Z.lxor_m1_r. unfold Z.lnot. lia.
  - rewrite Z.lxor_0_r. lia.
Qed.

(** [iabs(x)] is the absolute value of [x] for every [int] but
    [INT_MIN], where the subtraction overflows. *)
Lemma iabs_spec (x : Z) (Hint : - 2 ^ 31 <= x < 2 ^ 31) :
  iabs x = if x =? - 2 ^ 31 then SignedOverflow else Ok (Z.abs x).
Proof.
  unfold iabs. rewrite (xor_sign_abs 31 x) by lia.
  destruct (Z.eqb_spec x (- 2 ^ 31)) as [->|Hne].
  - reflexivity.
  - apply int_op_Ok. lia.
Qed.

Lemma int16_small (z : Z) : - 2 ^ 15 <= z < 2 ^ 15 -> int16 z = z.
Proof.
  intros H. unfold int16.
  rewrite Z.mod_small by lia. lia.
Qed.

(** [sabs(x)] is the absolute value of [x] for every [short] but
    [SHRT_MIN]: there 32768 does not fit a [short], and the result is
    [SHRT_MIN] itself, a negative number. *)
Lemma sabs_spec (x : Z) (Hshort : - 2 ^ 15 <= x < 2 ^ 15) :
  sabs x = if x =? - 2 ^ 15 then - 2 ^ 15 else Z.abs x.
Proof.
  unfold sabs. rewrite (shiftr_sign 15 x) by lia.
  rewrite (int16_small (if x <? 0 then -1 else 0))
    by (destruct (x <? 0); lia).
  pose proof (xor_sign_abs 15 x ltac:(lia) Hshort) as Habs.
  rewrite (shiftr_sign 15 x) in Habs by lia. rewrite Habs.
  destruct (Z.eqb_spec x (- 2 ^ 15)) as [->|Hne].
  - reflexivity.
  - apply int16_small. lia.
Qed.

Lemma isign_sgn (x : Z) : isign x = Z.sgn x.
Proof.
  unfold isign. destruct (Z.gtb_spec x 0), (Z.ltb_spec x 0); lia.
Qed.

(** X4. [isignab(a, b)] gives [a] the sign of [b], a [b] of 0 counting as
    positive: for every [a] but [INT_MIN] the result is [-|a|] when
    [b < 0] and [|a|] otherwise; so [isignab(a, a)] is [a], and
    [iabs(a)] is [isign(a) * a]. *)
Theorem isignab_spec (a b : Z) (Hint : - 2 ^ 31 < a < 2 ^ 31) :
  isignab a b = Ok (if b <? 0 then - Z.abs a else Z.abs a) /\
  isignab a a = Ok a /\
  iabs a = Ok (isign a * a).
Proof.
  unfold isignab. rewrite (iabs_spec a) by lia.
  rewrite (proj2 (Z.eqb_neq a (- 2 ^ 31))) by lia.
  rewrite isign_sgn. split; [|split].
  - destruct (b <? 0); [|reflexivity]. simpl. apply int_op_Ok. lia.
  - destruct (Z.ltb_spec a 0); simpl.
    + rewrite int_op_Ok by lia. f_equal. lia.
    + f_equal. lia.
  - f_equal. lia.
Qed.

(** ** The rounding shifts *)

Lemma shl_one (k : Z) : 0 <= k <= 30 -> shl 1 k = Ok (2 ^ k).
Proof.
  intros H. unfold shl.
  destruct (Z.ltb_spec k 0); [lia|].
  destruct (Z.leb_spec 32 k); [lia|]. simpl.
  rewrite Z.mul_1_l. apply int_op_Ok.
  assert (0 < 2 ^ k) by (apply Z.pow_pos_nonneg; lia).
  assert (2 ^ k <= 2 ^ 30) by (apply Z.pow_le_mono_r; lia).
  lia.
Qed.

Lemma shl_one_undefined (k : Z) :
  k < 0 \/ 30 < k -> forall r, shl 1 k <> Ok r.
Proof.
  intros H r. unfold shl.
  destruct (Z.ltb_spec k 0); [discriminate|].
  destruct (Z.leb_spec 32 k); [discriminate|]. simpl.
  assert (k = 31) as -> by lia. discriminate.
Qed.

Lemma shr_Ok (x k : Z) : 0 <= k <= 31 -> shr x k = Ok (x / 2 ^ k).
Proof.
  intros H. unfold shr.
  destruct (Z.ltb_spec k 0); [lia|].
  destruct (Z.leb_spec 32 k); [lia|]. simpl.
  rewrite Z.shiftr_div_pow2 by lia. reflexivity.
Qed.

(** When is [(x + (1 << (a-1))) >> a] defined, and what is it. *)
Lemma add_half_shr_spec (x a : Z) :
  - 2 ^ 31 <= x < 2 ^ 31 -> - 2 ^ 31 <= a < 2 ^ 31 ->
  forall r,
    add_half_shr x a = Ok r <->
    1 <= a <= 31 /\ x + 2 ^ (a - 1) < 2 ^ 31 /\ r = (x + 2 ^ (a - 1)) / 2 ^ a.
Proof.
  intros Hx Ha r. unfold add_half_shr.
  destruct (Z.eq_dec a (- 2 ^ 31)) as [->|Hmin].
  { rewrite int_op_overflow by lia. simpl. split; [discriminate | lia]. }
  rewrite int_op_Ok by lia. simpl.
  destruct (Z.le_gt_cases 1 a) as [H1|H1];
    [destruct (Z.le_gt_cases a 31) as [H31|H31]|].
  - rewrite shl_one by lia. simpl.
    assert (0 < 2 ^ (a - 1)) by (apply Z.pow_pos_nonneg; lia).
    destruct (Z.lt_ge_cases (x + 2 ^ (a - 1)) (2 ^ 31)) as [Hfit|Hover].
    + rewrite int_op_Ok by lia. simpl. rewrite shr_Ok by lia.
      split; [intros [= <-]; auto | intros (_ & _ & ->); reflexivity].
    + rewrite int_op_overflow by lia. simpl. split; [discriminate | lia].
  - pose proof (shl_one_undefined (a - 1) ltac:(lia)) as Hno.
    destruct (shl 1 (a - 1)) eqn:E; simpl;
      [exfalso; eapply Hno; reflexivity | |]; (split; [discriminate | lia]).
  - pose proof (shl_one_undefined (a - 1) ltac:(lia)) as Hno.
    destruct (shl 1 (a - 1)) eqn:E; simpl;
      [exfalso; eapply Hno; reflexivity | |]; (split; [discriminate | lia]).
Qed.

Lemma half_shift_nearest (x a : Z) :
  1 <= a ->
  let r := (x + 2 ^ (a - 1)) / 2 ^ a in
  - 2 ^ (a - 1) <= x - r * 2 ^ a < 2 ^ (a - 1).
Proof.
  intros Ha r.
  assert (0 < 2 ^ (a - 1)) by (apply Z.pow_pos_nonneg; lia).
  assert (2 ^ a = 2 * 2 ^ (a - 1)) as Hpow.
  { replace a with (Z.succ (a - 1)) at 1 by lia. apply Z.pow_succ_r. lia. }
  pose proof (Z.div_mod (x + 2 ^ (a - 1)) (2 ^ a) ltac:(lia)) as Hdm.
  pose proof (Z.mod_pos_bound (x + 2 ^ (a - 1)) (2 ^ a) ltac:(lia)) as Hm.
  fold r in Hdm. lia.
Qed.

(** X5. [rshift_rnd_sf(x, a)] is defined exactly when [1 <= a <= 31] and
    [x + 2^(a-1)] is an [int]; its result [r] is then the integer nearest
    to [x / 2^a], a tie going up: [-2^(a-1) <= x - r * 2^a < 2^(a-1)].
    For [a > 0], [rshift_rnd(x, a)] is the same. *)
Theorem rshift_rnd_sf_nearest (x a : Z)
    (Hx : - 2 ^ 31 <= x < 2 ^ 31) (Ha : - 2 ^ 31 <= a < 2 ^ 31) :
  ((exists r, rshift_rnd_sf x a = Ok r) <->
     1 <= a <= 31 /\ x + 2 ^ (a - 1) < 2 ^ 31) /\
  (forall r, rshift_rnd_sf x a = Ok r ->
     - 2 ^ (a - 1) <= x - r * 2 ^ a < 2 ^ (a - 1)) /\
  (0 < a -> rshift_rnd x a = rshift_rnd_sf x a).
Proof.
  unfold rshift_rnd_sf. split; [|split].
  - split.
    + intros [r Hr]. apply (add_half_shr_spec x a Hx Ha) in Hr. tauto.
    + intros [H1 H2]. eexists. apply (add_half_shr_spec x a Hx Ha). eauto.
  - intros r Hr. apply (add_half_shr_spec x a Hx Ha) in Hr as (H1 & _ & ->).
    apply half_shift_nearest. lia.
  - intros H0. unfold rshift_rnd. destruct (Z.gtb_spec a 0); [reflexivity|lia].
Qed.

(** For [a <= 0], [rshift_rnd(x, a)] is the left shift by [-a]: it is
    defined exactly when [-a <= 31], [x >= 0] and [x * 2^(-a)] is an
    [int], and is then that product. *)
Lemma rshift_rnd_left (x a : Z)
    (Hx : - 2 ^ 31 <= x < 2 ^ 31) (Ha : - 2 ^ 31 <= a <= 0) :
  forall r,
    rshift_rnd x a = Ok r <->
    - 31 <= a /\ 0 <= x /\ x * 2 ^ (- a) < 2 ^ 31 /\ r = x * 2 ^ (- a).
Proof.
  intros r. unfold rshift_rnd.
  destruct (Z.gtb_spec a 0); [lia|].
  destruct (Z.eq_dec a (- 2 ^ 31)) as [Hmin|Hmin].
  { rewrite int_op_overflow by lia. simpl. split; [discriminate | lia]. }
  rewrite int_op_Ok by lia. simpl. unfold shl.
  destruct (Z.ltb_spec (- a) 0); [lia|].
  destruct (Z.leb_spec 32 (- a)); simpl; [split; [discriminate | lia]|].
  destruct (Z.ltb_spec x 0); simpl; [split; [discriminate | lia]|].
  assert (0 < 2 ^ (- a)) by (apply Z.pow_pos_nonneg; lia).
  destruct (Z.lt_ge_cases (x * 2 ^ (- a)) (2 ^ 31)).
  - rewrite int_op_Ok by nia.
    split; [intros [= <-]; repeat split; lia | intros (_ & _ & _ & ->); reflexivity].
  - rewrite int_op_overflow by lia. split; [discriminate | lia].
Qed.

(** X6. [rshift_rnd_sign(x, a)] rounds [x / 2^a] to the nearest integer, a
    tie going away from zero: it is odd in [x], and its result [r] has
    the sign of [x] and [|x| - 2^(a-1) < |r| * 2^a <= |x| + 2^(a-1)].  It
    is defined when [1 <= a <= 31] and [|x| + 2^(a-1)] is an [int]. *)
Theorem rshift_rnd_sign_odd (x a : Z)
    (Ha : 1 <= a <= 31) (Hx : Z.abs x + 2 ^ (a - 1) < 2 ^ 31) :
  exists r,
    rshift_rnd_sign x a = Ok r /\
    rshift_rnd_sign (- x) a = Ok (- r) /\
    Z.sgn r * Z.sgn x >= 0 /\
    Z.abs x - 2 ^ (a - 1) < Z.abs r * 2 ^ a <= Z.abs x + 2 ^ (a - 1).
Proof.
  assert (0 < 2 ^ (a - 1)) as Hh by (apply Z.pow_pos_nonneg; lia).
  assert (0 < 2 ^ a) as Hp by (apply Z.pow_pos_nonneg; lia).
  assert (forall y, 0 <= y -> y + 2 ^ (a - 1) < 2 ^ 31 ->
            add_half_shr y a = Ok ((y + 2 ^ (a - 1)) / 2 ^ a)) as Hrun.
  { intros y Hy0 Hy. apply add_half_shr_spec; lia. }
  assert (forall y, 0 <= y -> y + 2 ^ (a - 1) < 2 ^ 31 ->
            0 <= (y + 2 ^ (a - 1)) / 2 ^ a < 2 ^ 31) as Hq.
  { intros y Hy0 Hy. split; [apply Z.div_pos; lia|].
    apply Z.div_lt_upper_bound; nia. }
  assert (forall y, y <= 0 -> Z.abs y + 2 ^ (a - 1) < 2 ^ 31 ->
            rshift_rnd_sign y a = Ok (- ((Z.abs y + 2 ^ (a - 1)) / 2 ^ a)))
    as Hneg.
  { intros y Hy0 Hy. unfold rshift_rnd_sign.
    destruct (Z.gtb_spec y 0); [lia|].
    rewrite iabs_spec by lia.
    rewrite (proj2 (Z.eqb_neq y (- 2 ^ 31))) by lia. simpl.
    rewrite Hrun by lia. simpl. apply int_op_Ok.
    pose proof (Hq (Z.abs y) ltac:(lia) Hy). lia. }
  assert (forall y, 0 < y -> y + 2 ^ (a - 1) < 2 ^ 31 ->
            rshift_rnd_sign y a = Ok ((y + 2 ^ (a - 1)) / 2 ^ a)) as Hpos.
  { intros y Hy0 Hy. unfold rshift_rnd_sign.
    destruct (Z.gtb_spec y 0); [|lia]. apply Hrun; lia. }
  pose proof (half_shift_nearest (Z.abs x) a ltac:(lia)) as Hnear.
  pose proof (Hq (Z.abs x) ltac:(lia) Hx) as Hq0.
  cbv zeta in Hnear.
  set (q := (Z.abs x + 2 ^ (a - 1)) / 2 ^ a) in *.
  destruct (Z.lt_trichotomy x 0) as [Hlt|[->|Hgt]].
  - exists (- q). rewrite (Hneg x) by lia. fold q.
    rewrite (Hpos (- x)) by lia.
    replace (- x) with (Z.abs x) by lia. fold q.
    rewrite Z.opp_involutive. repeat split; try reflexivity; lia.
  - assert (2 ^ a = 2 * 2 ^ (a - 1)) as Hpow.
    { replace a with (Z.succ (a - 1)) at 1 by lia. apply Z.pow_succ_r. lia. }
    assert (q = 0) as Hzero by (simpl Z.abs in Hnear; nia).
    exists 0. change (- 0) with 0. rewrite (Hneg 0) by (simpl; lia).
    fold q. rewrite Hzero. simpl. repeat split; lia.
  - exists q. rewrite (Hpos x) by lia.
    replace x with (Z.abs x) at 1 by lia. fold q.
    rewrite (Hneg (- x)) by lia.
    replace (Z.abs (- x)) with (Z.abs x) by lia. fold q.
    repeat split; try reflexivity; lia.
Qed.

(** X7. [rshift_rnd_us(x, a)] on [unsigned int], for [1 <= a <= 31]: the sum
    [x + 2^(a-1)] wraps, so the result is the integer nearest to
    [x / 2^a] only as long as [x + 2^(a-1) < 2^32]; for the [2^(a-1)]
    largest values of [x] it is 0.  For [a == 0] it is [x]. *)
Theorem rshift_rnd_us_wraps (x a : Z)
    (Hx : 0 <= x < 2 ^ 32) (Ha : 0 <= a <= 31) :
  exists r,
    rshift_rnd_us x a = Ok r /\
    (a = 0 -> r = x) /\
    (0 < a -> x + 2 ^ (a - 1) < 2 ^ 32 ->
       - 2 ^ (a - 1) <= x - r * 2 ^ a < 2 ^ (a - 1)) /\
    (0 < a -> 2 ^ 32 <= x + 2 ^ (a - 1) -> r = 0).
Proof.
  unfold rshift_rnd_us.
  destruct (Z.gtb_spec a 0) as [H0|H0].
  2:{ exists x. split; [reflexivity|]. repeat split; intros; lia. }
  unfold rshift_rnd_us_sf.
  assert (0 < 2 ^ (a - 1)) as Hh by (apply Z.pow_pos_nonneg; lia).
  assert (2 ^ (a - 1) <= 2 ^ 30) as Hh30 by (apply Z.pow_le_mono_r; lia).
  assert (0 < 2 ^ a) as Hp by (apply Z.pow_pos_nonneg; lia).
  rewrite (uint32_small (a - 1)) by lia.
  rewrite shl_one by lia. simpl. unfold ushr.
  destruct (Z.leb_spec 32 a); [lia|].
  rewrite Z.shiftr_div_pow2 by lia.
  eexists. split; [reflexivity|]. split; [lia|]. split.
  - intros _ Hfit. rewrite uint32_small by lia.
    apply half_shift_nearest. lia.
  - intros _ Hwrap. unfold uint32.
    rewrite <- (Z.mod_add _ (- 1) (2 ^ 32)) by lia.
    rewrite Z.mod_small by lia.
    apply Z.div_small. split; [lia|].
    assert (2 ^ a = 2 * 2 ^ (a - 1)) as Hpow.
    { replace a with (Z.succ (a - 1)) at 1 by lia. apply Z.pow_succ_r. lia. }
    lia.
Qed.

(** [iClip1_YCbCr(x, BitDepth)] is defined exactly for a depth in
    [0, 30]; its result is then in [0, 2^BitDepth - 1], and is [x] when
    [x] is a sample value of that depth. *)
Lemma iClip1_YCbCr_range (x BitDepth : Z) :
  ((exists r, iClip1_YCbCr x BitDepth = Ok r) <-> 0 <= BitDepth <= 30) /\
  (forall r, iClip1_YCbCr x BitDepth = Ok r ->
     0 <= r < 2 ^ BitDepth /\ (0 <= x < 2 ^ BitDepth -> r = x)).
Proof.
  unfold iClip1_YCbCr.
  destruct (Z.le_gt_cases 0 BitDepth) as [H0|H0];
    [destruct (Z.le_gt_cases BitDepth 30) as [H30|H30]|].
  - rewrite shl_one by lia. simpl.
    assert (0 < 2 ^ BitDepth) by (apply Z.pow_pos_nonneg; lia).
    assert (2 ^ BitDepth <= 2 ^ 30) by (apply Z.pow_le_mono_r; lia).
    rewrite int_op_Ok by lia. simpl.
    split; [split; [lia | eauto]|].
    intros r [= <-].
    unfold iClip3. rewrite !imin_min, !imax_max.
    split; [lia|]. intros Hx. lia.
  - pose proof (shl_one_undefined BitDepth ltac:(lia)) as Hno.
    destruct (shl 1 BitDepth) eqn:E; simpl;
      [exfalso; eapply Hno; reflexivity | |];
      (split; [split; [intros [r Hr]; discriminate | lia]
              | intros r Hr; discriminate]).
  - pose proof (shl_one_undefined BitDepth ltac:(lia)) as Hno.
    destruct (shl 1 BitDepth) eqn:E; simpl;
      [exfalso; eapply Hno; reflexivity | |];
      (split; [split; [intros [r Hr]; discriminate | lia]
              | intros r Hr; discriminate]).
Qed.

(* ================================================================== *)
(** * utils.c: the helpers on [double] *)

Lemma CompOpp_cont (c : comparison) (p q : positive) :
  Pos.compare_cont (CompOpp c) q p = CompOpp (Pos.compare_cont c p q).
Proof. symmetry. apply Pos.compare_cont_antisym. Qed.

(** Swapping the operands of a comparison of two [double] swaps "less"
    and "greater". *)
Lemma SFcompare_swap (x y : spec_float) :
  SFcompare y x = CompOpp <$> SFcompare x y.
Proof.
  destruct x as [sx|sx| |sx mx ex], y as [sy|sy| |sy my ey];
    try reflexivity;
    try (destruct sx; reflexivity); try (destruct sy; reflexivity);
    try (destruct sx, sy; reflexivity).
  simpl. f_equal.
  rewrite (Z.compare_antisym ex ey).
  destruct sx, sy; try reflexivity;
    destruct (ex ?= ey); simpl; try reflexivity;
    rewrite <- (CompOpp_cont Eq mx my); simpl; reflexivity.
Qed.

Lemma SFcompare_refl (x : spec_float) :
  is_nan x = false -> SFcompare x x = Some Eq.
Proof.
  destruct x as [s|s| |s m e]; simpl; try discriminate; intros _.
  - reflexivity.
  - destruct s; reflexivity.
  - rewrite Z.compare_refl.
    change (Pos.compare_cont Eq m m) with (m ?= m)%positive.
    rewrite Pos.compare_refl. destruct s; reflexivity.
Qed.

Lemma SFcompare_nan (x y : spec_float) :
  is_nan x = true \/ is_nan y = true -> SFcompare x y = None.
Proof.
  intros [H|H]; destruct x, y; try discriminate; reflexivity.
Qed.

Lemma SFcompare_not_nan (x y : spec_float) :
  is_nan x = false -> is_nan y = false -> is_Some (SFcompare x y).
Proof.
  intros Hx Hy. destruct x, y; try discriminate; simpl; eauto.
Qed.

Lemma dgt_ltb (a b : spec_float) : dgt a b = Double.ltb b a.
Proof.
  unfold dgt, Double.ltb, SFltb. rewrite (SFcompare_swap a b).
  destruct (SFcompare a b) as [[]|]; reflexivity.
Qed.

Lemma ltb_irrefl (x : spec_float) : Double.ltb x x = false.
Proof.
  unfold Double.ltb, SFltb. destruct (is_nan x) eqn:E.
  - rewrite SFcompare_nan by auto. reflexivity.
  - rewrite SFcompare_refl by exact E. reflexivity.
Qed.

Lemma ltb_asym (x y : spec_float) :
  Double.ltb x y = true -> Double.ltb y x = false.
Proof.
  unfold Double.ltb, SFltb. rewrite (SFcompare_swap x y).
  destruct (SFcompare x y) as [[]|]; simpl; congruence.
Qed.

Lemma ltb_not_nan (x y : spec_float) :
  Double.ltb x y = true -> is_nan x = false /\ is_nan y = false.
Proof.
  unfold Double.ltb, SFltb. intros H.
  destruct (is_nan x) eqn:Ex; [rewrite SFcompare_nan in H by auto; discriminate|].
  destruct (is_nan y) eqn:Ey; [rewrite SFcompare_nan in H by auto; discriminate|].
  auto.
Qed.

(** X8. [dmin] and [dmax] return their second argument as soon as one of
    the two is a NaN: a NaN given first is dropped, a NaN given second is
    returned.  Otherwise the result is one of the two arguments, not
    above (not below) either. *)
Theorem dmin_dmax_nan (a b : spec_float) :
  (is_nan a = true \/ is_nan b = true -> dmin a b = b /\ dmax a b = b) /\
  (is_nan a = false -> is_nan b = false ->
     (dmin a b = a \/ dmin a b = b) /\
     Double.ltb a (dmin a b) = false /\ Double.ltb b (dmin a b) = false /\
     (dmax a b = a \/ dmax a b = b) /\
     Double.ltb (dmax a b) a = false /\ Double.ltb (dmax a b) b = false).
Proof.
  unfold dmin, dmax. rewrite dgt_ltb. split.
  - intros H. unfold Double.ltb, SFltb.
    rewrite (SFcompare_nan a b) by exact H.
    rewrite (SFcompare_nan b a) by tauto. auto.
  - intros Ha Hb.
    destruct (Double.ltb a b) eqn:Eab, (Double.ltb b a) eqn:Eba;
      try (pose proof (ltb_asym _ _ Eab); congruence);
      rewrite ?ltb_irrefl, ?Eab, ?Eba; repeat split; auto.
Qed.

(** X9. [dClip3(low, high, x)] with bounds that are numbers and
    [low <= high] is never a NaN and is never outside the bounds,
    whatever [x] is, a NaN or an infinity included; for a NaN it compares
    equal to [low]; and an [x] strictly between the bounds is returned as
    it is. *)
Theorem dClip3_within_bounds (low high x : spec_float)
    (Hlow : is_nan low = false) (Hhigh : is_nan high = false)
    (Hordered : Double.ltb high low = false) :
  is_nan (dClip3 low high x) = false /\
  Double.ltb (dClip3 low high x) low = false /\
  Double.ltb high (dClip3 low high x) = false /\
  (is_nan x = true -> SFcompare (dClip3 low high x) low = Some Eq) /\
  (Double.ltb low x = true -> Double.ltb x high = true ->
     dClip3 low high x = x).
Proof.
  unfold dClip3, dmin, dmax. rewrite dgt_ltb.
  destruct (Double.ltb low x) eqn:Elx.
  - destruct (ltb_not_nan _ _ Elx) as [_ Hx].
    destruct (Double.ltb x high) eqn:Exh.
    + repeat split; auto using ltb_asym. intros Hn. congruence.
    + rewrite ltb_irrefl. repeat split; auto; intros; congruence.
  - destruct (Double.ltb low high) eqn:Elh.
    + rewrite ltb_irrefl.
      repeat split; auto using ltb_asym, SFcompare_refl; discriminate.
    + rewrite ltb_irrefl. repeat split; auto; try discriminate.
      intros _. unfold Double.ltb, SFltb in Hordered, Elh.
      rewrite (SFcompare_swap high low) in Elh.
      destruct (SFcompare_not_nan high low Hhigh Hlow) as [c Hc].
      rewrite Hc in *. destruct c; simpl in *; congruence.
Qed.

(** [cneg] and [cabs] are the negation and the absolute value of
    [spec_float] on the values. *)
Lemma value_of_cneg (x : cdouble) : value_of (cneg x) = SFopp (value_of x).
Proof. destruct x; reflexivity. Qed.

Lemma value_of_cabs (x : cdouble) : value_of (cabs x) = SFabs (value_of x).
Proof. destruct x; reflexivity. Qed.

(** X10. [dabs(x)] is never below zero, and it is the absolute value of
    IEEE 754 (the argument with its sign bit cleared) for every [x] but
    two: the comparison [x < 0] is false for [-0.0] and for a NaN, so
    [-0.0] and a NaN whose sign bit is set are returned as they are.
    They are the only results with the sign bit set. *)
Theorem dabs_keeps_sign_of_zero_and_nan (x : cdouble) :
  Double.ltb (value_of (dabs x)) dzero = false /\
  (dabs x = cabs x <-> x <> CZero true /\ x <> CNaN true) /\
  (sign_bit (dabs x) = true <-> x = CZero true \/ x = CNaN true) /\
  dabs (CZero true) = CZero true /\
  dabs (CNaN true) = CNaN true.
Proof.
  split; [|split; [|split; [|split; reflexivity]]].
  - destruct x as [[]|[]|[]|[] m e]; reflexivity.
  - destruct x as [[]|[]|[]|[] m e];
      change (dabs (CFinite true m e)) with (CFinite false m e) || cbn;
      (split;
       [ intros H; first [discriminate H | split; discriminate]
       | intros [H1 H2];
         first [reflexivity | contradiction H1; reflexivity
               | contradiction H2; reflexivity] ]).
  - destruct x as [[]|[]|[]|[] m e];
      change (dabs (CFinite true m e)) with (CFinite false m e) || cbn;
      (split;
       [ intros H; first [discriminate H | left; reflexivity
                          | right; reflexivity]
       | intros [H|H]; first [reflexivity | discriminate H] ]).
Qed.

(* ================================================================== *)
(** * bitstream_map.c: allocation and release together *)

(** The maps that are allocated, in the order of the heap. *)
Lemma live_maps_snoc_dead (ms : list (option BitstreamMap_t)) :
  omap id (ms ++ [None]) = omap id ms.
Proof. rewrite omap_app. simpl. apply app_nil_r. Qed.

(** X11. [free_bitstream_map] on a handle that is NULL or points to an
    allocated map: the map is freed, the handle is NULL afterwards, no
    other handle and no other map is written, and a second call changes
    nothing. *)
Theorem free_bitstream_map_twice (h : nat) (m : memory) (cur : option nat)
    (Hhandle : handles m !! h = Some cur)
    (Hlive : forall l, cur = Some l -> exists obj, maps m !! l = Some (Some obj)) :
  exists m',
    free_bitstream_map h m = Done m' /\
    free_bitstream_map h m' = Done m' /\
    handles m' = <[h := None]> (handles m) /\
    maps m' = match cur with
              | Some l => <[l := None]> (maps m)
              | None => maps m
              end /\
    calloc_plan m' = calloc_plan m.
Proof.
  unfold free_bitstream_map.
  rewrite (proj2 (load_handle_Done _ _ _) Hhandle). simpl.
  destruct cur as [l|].
  - destruct (Hlive l eq_refl) as [obj Hobj].
    unfold free_map. rewrite Hobj. simpl.
    unfold store_handle. simpl. rewrite Hhandle. simpl.
    eexists. split; [reflexivity|].
    unfold load_handle. simpl.
    rewrite list_lookup_insert_eq by (apply lookup_lt_is_Some; eauto).
    simpl. auto.
  - exists m. rewrite (proj2 (load_handle_Done _ _ _) Hhandle). simpl.
    repeat split; try reflexivity.
    symmetry. apply list_insert_id. exact Hhandle.
Qed.

(** X12. [free_bitstream_map] clears the one handle it is given.  A second
    handle to the same map keeps its value and dangles; releasing the
    map through it is a second [free] of the same object. *)
Theorem free_bitstream_map_alias (h1 h2 l : nat) (obj : BitstreamMap_t)
    (m : memory)
    (Hdistinct : h1 <> h2)
    (Hfirst : handles m !! h1 = Some (Some l))
    (Hsecond : handles m !! h2 = Some (Some l))
    (Hlive : maps m !! l = Some (Some obj)) :
  exists m',
    free_bitstream_map h1 m = Done m' /\
    handles m' !! h2 = Some (Some l) /\
    maps m' !! l = Some None /\
    free_bitstream_map h2 m' = Undefined DanglingPointer.
Proof.
  assert (exists m',
            free_bitstream_map h1 m = Done m' /\
            handles m' = <[h1 := None]> (handles m) /\
            maps m' = <[l := None]> (maps m)) as (m' & Hrun & Hh & Hm).
  { unfold free_bitstream_map.
    rewrite (proj2 (load_handle_Done _ _ _) Hfirst). simpl.
    unfold free_map. rewrite Hlive. simpl.
    unfold store_handle. simpl. rewrite Hfirst. simpl.
    eexists. split; [reflexivity|]. split; reflexivity. }
  exists m'. split; [exact Hrun|].
  assert (handles m' !! h2 = Some (Some l)) as Hh2.
  { rewrite Hh, list_lookup_insert_ne by exact Hdistinct. exact Hsecond. }
  assert (maps m' !! l = Some None) as Hl.
  { rewrite Hm. apply list_lookup_insert_eq. apply lookup_lt_is_Some. eauto. }
  split; [exact Hh2|]. split; [exact Hl|].
  unfold free_bitstream_map.
  rewrite (proj2 (load_handle_Done _ _ _) Hh2). simpl.
  unfold free_map. rewrite Hl. reflexivity.
Qed.

(** X13. A map that [init_bitstream_map] has allocated is released by
    [free_bitstream_map]: after the two calls every handle has the value
    it had, no map is allocated that was not, and the handle can be
    initialised again. *)
Theorem init_then_free_bitstream_map (p : nat) (entries : Z) (m : memory)
    (Hnull : handles m !! p = Some None)
    (Hentries : entries <> 0)
    (Halloc : six_callocs_succeed m = true) :
  exists m1 m2,
    init_bitstream_map p entries m = Done (SUCCESS, m1) /\
    free_bitstream_map p m1 = Done m2 /\
    handles m2 = handles m /\
    maps m2 = maps m ++ [None] /\
    omap id (maps m2) = omap id (maps m) /\
    (six_callocs_succeed m2 = true ->
       exists m3, init_bitstream_map p entries m2 = Done (SUCCESS, m3)).
Proof.
  rewrite (init_bitstream_map_success p entries m Hnull Hentries Halloc).
  eexists. eexists. split; [reflexivity|].
  assert (p < length (handles m))%nat as Hp
    by (apply lookup_lt_is_Some; eauto).
  unfold free_bitstream_map, load_handle. simpl.
  rewrite list_lookup_insert_eq by exact Hp. simpl.
  unfold free_map. simpl. rewrite lookup_snoc_new. simpl.
  unfold store_handle. simpl.
  rewrite list_lookup_insert_eq by exact Hp. simpl.
  rewrite insert_snoc_new, list_insert_insert_eq.
  rewrite (list_insert_id (handles m) p None Hnull).
  split; [reflexivity|]. simpl.
  split; [reflexivity|]. split; [reflexivity|].
  split; [apply live_maps_snoc_dead|].
  intros Hok.
  match goal with
  | |- context [init_bitstream_map p entries ?m2] =>
      rewrite (init_bitstream_map_success p entries m2 Hnull Hentries Hok)
  end.
  eauto.
Qed.

(** X14. [init_bitstream_map] on a valid handle always returns, SUCCESS
    exactly when the handle is NULL, [entries] is not 0 and the six
    allocations succeed.  When it returns FAILURE it has written no
    handle and has left no new map allocated: the handle it was given
    still has its value, NULL or not. *)
Theorem init_bitstream_map_failure_keeps_memory (p : nat) (entries : Z)
    (m : memory) (cur : option nat)
    (Hhandle : handles m !! p = Some cur) :
  exists r m',
    init_bitstream_map p entries m = Done (r, m') /\
    (r = SUCCESS \/ r = FAILURE) /\
    (r = SUCCESS <->
       cur = None /\ entries <> 0 /\ six_callocs_succeed m = true) /\
    (r = FAILURE ->
       handles m' = handles m /\ omap id (maps m') = omap id (maps m)).
Proof.
  assert (is_Some cur \/ entries = 0 ->
          init_bitstream_map p entries m = Done (FAILURE, m)) as Hfail.
  { intros H. unfold init_bitstream_map.
    rewrite (proj2 (load_handle_Done _ _ _) Hhandle). simpl.
    destruct cur as [l|]; simpl; [reflexivity|].
    destruct H as [[x Hx]|He]; [discriminate | rewrite He; reflexivity]. }
  destruct cur as [l|].
  { exists FAILURE, m. rewrite Hfail by (left; eauto).
    split; [reflexivity|]. split; [auto|].
    split; [split; [discriminate | intros [? _]; discriminate] | auto]. }
  destruct (Z.eq_dec entries 0) as [He|He].
  { exists FAILURE, m. rewrite Hfail by auto.
    split; [reflexivity|]. split; [auto|].
    split; [split; [discriminate | intros (_ & ? & _); contradiction] | auto]. }
  destruct (init_bitstream_map_alloc p entries m Hhandle He)
    as (m' & Hrun & Hother & Hlen & _ & _ & Hres).
  destruct (six_callocs_succeed m) eqn:Hok.
  - exists SUCCESS, m'. split; [exact Hrun|]. split; [auto|].
    split; [tauto | discriminate].
  - exists FAILURE, m'. split; [exact Hrun|]. split; [auto|].
    split; [split; [discriminate | intros (_ & _ & ?); discriminate]|].
    intros _. destruct Hres as [Hp Hmaps]. split.
    + apply list_eq. intros h.
      destruct (decide (h = p)) as [->|Hne]; [congruence | auto].
    + destruct Hmaps as [->| ->]; [reflexivity | apply live_maps_snoc_dead].
Qed.

(* ================================================================== *)
(** * demuxer/filter.c: the other paths of [idr_filtering] *)

(** ** Nothing to filter *)

(** X15. [idr_filtering] returns FAILURE and writes nothing for a NULL
    argument and for a NULL handle.  In the mode UNFILTERED, for an
    [int picture_number] that is not negative and a map whose number of
    IDR samples fits an [int], it writes nothing either and returns the
    wanted number of pictures, cut down to the number of IDR samples of
    the map (0 when there is none).  A negative [picture_number] is
    not returned: the comparison with the unsigned counter takes it for
    a large number, and the number of IDR samples is returned. *)
Theorem idr_filtering_without_filter (n : Z) (mode : picture_extraction_mode)
    (m : memory) (Hint : - 2 ^ 31 <= n < 2 ^ 31) :
  idr_filtering None n mode m = Done (FAILURE, m) /\
  (forall h, handles m !! h = Some None ->
     idr_filtering (Some h) n mode m = Done (FAILURE, m)) /\
  (forall h l map,
     handles m !! h = Some (Some l) -> maps m !! l = Some (Some map) ->
     0 <= sample_count_idr map < 2 ^ 31 ->
     exists r,
       idr_filtering (Some h) n PICTURE_UNFILTERED m = Done (r, m) /\
       (sample_count_idr map = 0 -> r = 0) /\
       (0 <= n -> r = Z.min n (sample_count_idr map)) /\
       (n < 0 -> r = sample_count_idr map)).
Proof.
  split; [reflexivity|]. split.
  - intros h Hh. unfold idr_filtering, idr_filtering_frame.
    rewrite (proj2 (load_handle_Done _ _ _) Hh). reflexivity.
  - intros h l map Hh Hl Hidr. unfold idr_filtering, idr_filtering_frame.
    rewrite (proj2 (load_handle_Done _ _ _) Hh). simpl.
    unfold load_map. rewrite Hl. simpl.
    eexists. split; [reflexivity|]. unfold clamp_to_idr.
    rewrite int32_small by lia.
    assert (0 <= n -> uint32 n = n) as Hpos
      by (intros; apply uint32_small; lia).
    assert (n < 0 -> uint32 n = n + 2 ^ 32) as Hneg.
    { intros Hlt. unfold uint32. symmetry.
      apply (Z.mod_unique n (2 ^ 32) (- 1)); lia. }
    destruct (Z.eqb_spec (sample_count_idr map) 0);
      destruct (Z.ltb_spec (sample_count_idr map) (uint32 n));
      repeat split; intros; lia.
Qed.

(** ** The first statements of the filter *)

(** The filter on a valid map with IDR samples, in the modes ORDERED and
    DISTRIBUTED, up to the first cut: the goal is left at
    [first_cut ... ≫= ...]. *)
Ltac filter_prologue h l map n mode m Hhandle Hmap Hvalid Hidr Hmode :=
  let Ht := fresh "Ht" in let Htr := fresh "Htr" in
  let Hb := fresh "Hb" in let Hbr := fresh "Hbr" in
  let Hsum := fresh "Hsum" in let Hsp := fresh "Hsp" in
  destruct (filter_values map Hvalid Hidr) as (Ht & Htr & Hb & Hbr);
  destruct (sum_payload_valid map Hvalid) as [Hsum _];
  pose proof (valid_idr map Hvalid);
  pose proof (valid_count map Hvalid);
  pose proof (survivors_length map Hvalid ltac:(lia));
  assert (int32 (sample_count map - sample_count_idr map) = spspps_of map)
    as Hsp by (unfold spspps_of; apply int32_small; lia);
  assert (0 <= spspps_of map) by (unfold spspps_of; lia);
  assert (spspps_of map + Z.of_nat (length (survivors map))
          <= sample_count map) by (unfold spspps_of; lia);
  unfold idr_filtering_frame;
  rewrite (proj2 (load_handle_Done _ _ _) Hhandle); simpl;
  unfold load_map at 1; rewrite Hmap; simpl;
  replace (match mode with
           | PICTURE_UNFILTERED => Done (clamp_to_idr map n, None, m)
           | _ => idr_filtering_else h map (clamp_to_idr map n) mode m
           end)
    with (idr_filtering_else h map (clamp_to_idr map n) mode m)
    by (destruct mode; [contradiction | reflexivity | reflexivity]);
  unfold idr_filtering_else; rewrite Hsum; simpl; rewrite Hsp;
  rewrite Ht; simpl; rewrite Hb; simpl.

(** ** One picture *)

(** X16. When the number of pictures comes down to exactly 1 (one picture is
    asked, or one IDR sample survives the first cut), the computation of
    [frame_jump] divides by [picture_number - 1], which is 0: the
    behaviour of [idr_filtering] is undefined, in both modes. *)
Theorem idr_filtering_one_picture_divides_by_zero (h l : nat)
    (map : BitstreamMap_t) (n : Z) (mode : picture_extraction_mode)
    (m : memory)
    (Hhandle : handles m !! h = Some (Some l))
    (Hmap : maps m !! l = Some (Some map))
    (Hvalid : valid_map map) (Hidr : 0 < sample_count_idr map)
    (Hmode : mode <> PICTURE_UNFILTERED)
    (Hfit : (length (survivors map) <= 999)%nat)
    (Hone : Z.min n (Z.of_nat (length (survivors map))) = 1) :
  idr_filtering (Some h) n mode m = Undefined DivisionByZero.
Proof.
  unfold idr_filtering.
  filter_prologue h l map n mode m Hhandle Hmap Hvalid Hidr Hmode.
  rewrite (first_cut_spec map Hvalid (proj1 Hbr) Htr) by lia. simpl.
  rewrite (clamp_twice map n _ Hidr) by lia.
  rewrite Hone. reflexivity.
Qed.

(** ** The filtered map cannot be allocated *)

Lemma take_snoc_handles (hs hs' : list (option nat)) :
  length hs' = length (hs ++ [None]) ->
  (forall h, h <> length hs -> hs' !! h = (hs ++ [None]) !! h) ->
  take (length hs) hs' = hs.
Proof.
  intros Hlen Hsame. apply list_eq. intros h.
  rewrite length_app in Hlen. simpl in Hlen.
  destruct (decide (h < length hs)%nat) as [Hlt|Hge].
  - rewrite lookup_take_lt by exact Hlt. rewrite Hsame by lia.
    apply lookup_app_l. exact Hlt.
  - rewrite lookup_take_ge by lia. symmetry. apply lookup_ge_None. lia.
Qed.

(** X17. When the filtered map cannot be built, because it would have no
    entry or because an allocation fails, [idr_filtering] returns 0, and
    the caller still has its map: no handle is written, the map is
    neither freed nor changed, and nothing new is left allocated. *)
Theorem idr_filtering_allocation_failure (h l : nat) (map : BitstreamMap_t)
    (n : Z) (mode : picture_extraction_mode) (m : memory)
    (Hhandle : handles m !! h = Some (Some l))
    (Hmap : maps m !! l = Some (Some map))
    (Hvalid : valid_map map) (Hidr : 0 < sample_count_idr map)
    (Hmode : mode <> PICTURE_UNFILTERED) (Hn : 0 <= n)
    (Hfit : (length (survivors map) <= 999)%nat)
    (Hjump : Z.min n (Z.of_nat (length (survivors map))) <> 1)
    (Hfail : six_callocs_succeed m = false \/
             spspps_of map + Z.of_nat (length (survivors map)) = 0) :
  exists m',
    idr_filtering (Some h) n mode m = Done (0, m') /\
    handles m' = handles m /\
    maps m' !! l = Some (Some map) /\
    omap id (maps m') = omap id (maps m).
Proof.
  unfold idr_filtering.
  filter_prologue h l map n mode m Hhandle Hmap Hvalid Hidr Hmode.
  rewrite (first_cut_spec map Hvalid (proj1 Hbr) Htr) by lia. simpl.
  rewrite (clamp_twice map n _ Hidr) by lia.
  unfold frame_jump_of.
  rewrite (proj2 (Z.eqb_neq _ 0)) by lia. simpl.
  rewrite uint32_small by lia.
  set (total := Z.of_nat (length (survivors map))) in *.
  set (m0 := set_handles (handles m ++ [None]) m).
  assert (handles m0 !! length (handles m) = Some None) as Hnew
    by apply lookup_snoc_new.
  destruct (Z.eq_dec (spspps_of map + total) 0) as [Hzero|Hentries].
  - unfold init_bitstream_map.
    rewrite (proj2 (load_handle_Done _ _ _) Hnew). simpl.
    rewrite Hzero. simpl.
    rewrite take_app_length.
    exists m. destruct m; auto.
  - destruct Hfail as [Hfail|Hfail]; [|contradiction].
    destruct (init_bitstream_map_alloc (length (handles m))
                (spspps_of map + total) m0 Hnew Hentries)
      as (m1 & Hrun & Hother & Hlen & Hold & _ & Hres).
    change (six_callocs_succeed m0) with (six_callocs_succeed m) in *.
    rewrite Hfail in *. rewrite Hrun. simpl.
    destruct Hres as [_ Hmaps].
    eexists. split; [reflexivity|]. simpl. split; [|split].
    + apply take_snoc_handles; [exact Hlen | exact Hother].
    + rewrite Hold by (apply lookup_lt_is_Some; simpl; eauto). exact Hmap.
    + destruct Hmaps as [->| ->]; [reflexivity | apply live_maps_snoc_dead].
Qed.

(** ** The caller's handle after a successful filter *)

(** After a filter that succeeds, whatever the map: the caller's handle
    is NULL and its map is freed; the filtered map is allocated, and no
    handle of the memory points to it.  (The handles of a memory point
    into its heap.) *)
Lemma idr_filtering_loses_filtered_map (h l : nat) (map : BitstreamMap_t)
    (n : Z) (mode : picture_extraction_mode) (m : memory)
    (Hhandle : handles m !! h = Some (Some l))
    (Hmap : maps m !! l = Some (Some map))
    (Hvalid : valid_map map) (Hidr : 0 < sample_count_idr map)
    (Hmode : mode <> PICTURE_UNFILTERED) (Hn : 0 <= n)
    (Halloc : six_callocs_succeed m = true)
    (Hfit : (length (survivors map) < 999)%nat)
    (Hjump : Z.min n (Z.of_nat (length (survivors map))) <> 1)
    (Hslots : 0 < spspps_of map + Z.of_nat (length (survivors map)))
    (Hheap : forall h' l', handles m !! h' = Some (Some l') ->
                           (l' < length (maps m))%nat) :
  exists m' filtered,
    idr_filtering (Some h) n mode m
      = Done (Z.min n (Z.of_nat (length (survivors map))), m') /\
    handles m' !! h = Some None /\
    maps m' !! l = Some None /\
    maps m' !! length (maps m) = Some (Some filtered) /\
    sample_count_idr filtered = Z.of_nat (length (survivors map)) /\
    (forall h', handles m' !! h' <> Some (Some (length (maps m)))) /\
    (forall h', h' <> h -> handles m' !! h' = handles m !! h').
Proof.
  destruct (idr_filtering_spec h l map n mode m Hhandle Hmap Hvalid Hidr
              Hmode Hn Halloc Hfit Hjump Hslots)
    as (filtered & Hrun & _ & _ & Hcount & _).
  assert (h < length (handles m))%nat as Hh by (apply lookup_lt_is_Some; eauto).
  assert (l < length (maps m))%nat as Hl by (apply lookup_lt_is_Some; eauto).
  eexists. exists filtered. unfold idr_filtering. rewrite Hrun. simpl.
  split; [reflexivity|]. simpl.
  split; [apply list_lookup_insert_eq; exact Hh|].
  split; [apply list_lookup_insert_eq; rewrite length_app; lia|].
  split; [rewrite list_lookup_insert_ne by lia; apply lookup_snoc_new|].
  split; [exact Hcount|]. split.
  - intros h' Hh'.
    destruct (decide (h' = h)) as [->|Hne].
    + rewrite list_lookup_insert_eq in Hh' by exact Hh. discriminate.
    + rewrite list_lookup_insert_ne in Hh' by congruence.
      apply Hheap in Hh'. lia.
  - intros h' Hne. apply list_lookup_insert_ne. congruence.
Qed.

(** ** The mode DISTRIBUTED *)

Lemma quot_last_index (total d : Z) :
  0 <= total -> 0 < d ->
  d * Z.quot total d = total - total mod d.
Proof.
  intros Ht Hd. rewrite Z.quot_div_nonneg by lia.
  pose proof (Z.div_mod total d ltac:(lia)). lia.
Qed.

(** X18. In the mode DISTRIBUTED with [p >= 2] pictures out of [N] survivors,
    picture [i] is the survivor of rank [i * (N / (p - 1))] for every
    picture but possibly the last.  The last picture reads the rank
    [N - N % (p - 1)]: when [p - 1] divides [N] that is [N], one past the
    survivors, and the sample that is copied is sample 0 of the original
    map. *)
Theorem idr_filtering_distributed_picks (h l : nat) (map : BitstreamMap_t)
    (n : Z) (m : memory)
    (Hhandle : handles m !! h = Some (Some l))
    (Hmap : maps m !! l = Some (Some map))
    (Hvalid : valid_map map) (Hidr : 0 < sample_count_idr map)
    (Halloc : six_callocs_succeed m = true)
    (Hfit : (length (survivors map) < 999)%nat)
    (Hpictures : 2 <= Z.min n (Z.of_nat (length (survivors map)))) :
  let total := Z.of_nat (length (survivors map)) in
  let p := Z.min n total in
  let jump := Z.quot total (p - 1) in
  exists l' m' filtered,
    idr_filtering_frame (Some h) n PICTURE_DISTRIBUTED m
      = Done (p, Some l', m') /\
    maps m' !! l' = Some (Some filtered) /\
    1 <= jump /\
    (forall i, 0 <= i < p - 1 ->
       exists id, survivors map !! Z.to_nat (i * jump) = Some id /\
                  sample_at filtered (spspps_of map + i) = sample_at map id) /\
    (total mod (p - 1) <> 0 ->
       exists id, survivors map !! Z.to_nat ((p - 1) * jump) = Some id /\
                  sample_at filtered (spspps_of map + (p - 1))
                  = sample_at map id) /\
    (total mod (p - 1) = 0 ->
       (p - 1) * jump = total /\
       sample_at filtered (spspps_of map + (p - 1)) = sample_at map 0).
Proof.
  intros total p jump.
  pose proof (valid_idr map Hvalid) as Hi.
  assert (0 <= spspps_of map) as Hsp0 by (unfold spspps_of; lia).
  destruct (idr_filtering_spec h l map n PICTURE_DISTRIBUTED m Hhandle Hmap
              Hvalid Hidr ltac:(discriminate) ltac:(lia) Halloc Hfit
              ltac:(lia) ltac:(lia))
    as (filtered & Hrun & _ & _ & _ & _ & Hpick & _).
  fold total p in Hrun, Hpick.
  assert (l < length (maps m))%nat as Hl by (apply lookup_lt_is_Some; eauto).
  exists (length (maps m)). eexists. exists filtered.
  split; [exact Hrun|]. simpl.
  split; [rewrite list_lookup_insert_ne by lia; apply lookup_snoc_new|].
  assert (0 <= total) as Htot by (unfold total; lia).
  assert (p <= total) as Hpt by (unfold p; lia).
  pose proof (quot_last_index total (p - 1) Htot ltac:(lia)) as Hlast.
  fold jump in Hlast.
  pose proof (Z.mod_pos_bound total (p - 1) ltac:(lia)) as Hmod.
  assert (1 <= jump) as Hjump1.
  { unfold jump. rewrite Z.quot_div_nonneg by lia.
    apply Z.div_le_lower_bound; lia. }
  split; [exact Hjump1|].
  assert (forall i, 0 <= i < p -> i * jump < total ->
            exists id, survivors map !! Z.to_nat (i * jump) = Some id /\
                       sample_at filtered (spspps_of map + i) = sample_at map id)
    as Hin.
  { intros i Hi' Hlt.
    destruct (lookup_lt_is_Some_2 (survivors map) (Z.to_nat (i * jump)))
      as [id Hid]; [unfold total in Hlt; nia|].
    exists id. split; [exact Hid|].
    rewrite (Hpick i Hi'). unfold picked. fold total jump.
    rewrite lookup_app_l by (unfold total in Hlt; nia).
    rewrite Hid. reflexivity. }
  split; [|split].
  - intros i Hi'. apply Hin; [lia | nia].
  - intros Hrem. apply Hin; [lia | nia].
  - intros Hrem. split; [lia|].
    rewrite (Hpick (p - 1)) by lia. unfold picked. fold total jump.
    replace ((p - 1) * jump) with total by lia.
    unfold total. rewrite Nat2Z.id.
    rewrite lookup_app_r by lia. rewrite Nat.sub_diag.
    rewrite lookup_replicate_2 by lia. reflexivity.
Qed.

(** ** More survivors than [temporary_sample_id] can hold *)

Lemma for_loop_app {S} (n1 n2 : nat) (a : Z) (body : Z -> S -> outcome S)
    (s : S) :
  for_loop (n1 + n2) a body s
  = for_loop n1 a body s ≫= for_loop n2 (a + Z.of_nat n1) body.
Proof.
  revert a s. induction n1 as [|n1 IH]; intros a s.
  - simpl. rewrite Z.add_0_r. reflexivity.
  - cbn [for_loop Nat.add]. destruct (body a s) as [s1|why]; simpl; [|reflexivity].
    rewrite IH. replace (a + 1 + Z.of_nat n1) with (a + Z.of_nat (Datatypes.S n1)) by lia.
    reflexivity.
Qed.

Lemma for_range_split {S} (a b c : Z) (body : Z -> S -> outcome S) (s : S) :
  a <= b <= c ->
  for_range a c body s = for_range a b body s ≫= for_range b c body.
Proof.
  intros H. unfold for_range.
  replace (Z.to_nat (c - a)) with (Z.to_nat (b - a) + Z.to_nat (c - b))%nat by lia.
  rewrite for_loop_app. replace (a + Z.of_nat (Z.to_nat (b - a))) with b by lia.
  reflexivity.
Qed.

(** The first cut, stopped before sample [e]. *)
Lemma first_cut_prefix (map : BitstreamMap_t) (e : Z) :
  valid_map map ->
  0 <= borders_of map -> 0 <= threshold_of map < 2 ^ 31 ->
  borders_of map <= e <= sample_count_idr map - borders_of map ->
  let kept := above_threshold map (spspps_of map + borders_of map)
                (spspps_of map + e) in
  (length kept <= 999)%nat ->
  for_range (borders_of map) e
    (first_cut_body map (spspps_of map) (threshold_of map))
    {| temporary_sample_id := replicate 999 0;
       temporary_totalsamples_idr := 0 |}
  = Done {| temporary_sample_id := kept ++ replicate (999 - length kept) 0;
            temporary_totalsamples_idr := Z.of_nat (length kept) |}.
Proof.
  intros Hv Hb Ht He kept Hlen.
  destruct (valid_map_sizes map Hv) as (sizes & Hsz & Hslen & Hall).
  pose proof (valid_idr map Hv) as Hidr.
  pose proof (valid_count map Hv) as Hcount.
  set (sp := spspps_of map) in *. set (b := borders_of map) in *.
  assert (sp = sample_count map - sample_count_idr map) as Hsp by reflexivity.
  set (I := fun (i : Z) (c : first_cut_state) =>
              c = {| temporary_sample_id :=
                       above_threshold map (sp + b) (sp + i)
                       ++ replicate
                            (999 - length (above_threshold map (sp + b) (sp + i))) 0;
                     temporary_totalsamples_idr :=
                       Z.of_nat (length (above_threshold map (sp + b) (sp + i))) |}).
  destruct (for_range_inv I (first_cut_body map sp (threshold_of map)) b e
              {| temporary_sample_id := replicate 999 0;
                 temporary_totalsamples_idr := 0 |})
    as (c & Hrun & Hend).
  - lia.
  - unfold I. rewrite above_threshold_empty by lia. reflexivity.
  - intros i c Hi ->. unfold first_cut_body.
    rewrite Hsz. simpl.
    destruct (lookup_lt_is_Some_2 sizes (Z.to_nat (i + sp))) as [sz Hsz']; [lia|].
    rewrite (proj2 (aget_Done sizes (i + sp) sz)) by (split; [lia | exact Hsz']).
    simpl. rewrite uint32_small by lia.
    assert (size_at map (sp + i) = sz) as Hsize.
    { unfold size_at, array_of. rewrite Hsz. simpl.
      replace (sp + i) with (i + sp) by lia. rewrite Hsz'. reflexivity. }
    pose proof (above_threshold_step map (sp + b) (sp + i) ltac:(lia)) as Hstep.
    rewrite Hsize in Hstep.
    replace (sp + i + 1) with (sp + (i + 1)) in Hstep by lia.
    assert (kept = above_threshold map (sp + b) (sp + (i + 1))
                   ++ above_threshold map (sp + (i + 1)) (sp + e))
      as Hsplit by (apply above_threshold_app; lia).
    assert (length (above_threshold map (sp + b) (sp + (i + 1))) <= 999)%nat
      as Hle.
    { rewrite Hsplit in Hlen. rewrite length_app in Hlen. lia. }
    set (S0 := above_threshold map (sp + b) (sp + i)) in *.
    destruct (Z.ltb_spec (threshold_of map) sz) as [Hpass|Hfail].
    + rewrite decide_True in Hstep by exact Hpass.
      rewrite Hstep, length_app in Hle. simpl in Hle.
      rewrite aset_in_range
        by (rewrite length_app, length_replicate; lia).
      rewrite Nat2Z.id. simpl. eexists. split; [reflexivity|].
      unfold I. rewrite Hstep.
      rewrite insert_after_prefix by lia.
      replace (i + sp) with (sp + i) by lia.
      f_equal. rewrite length_app. simpl. lia.
    + rewrite decide_False in Hstep by lia.
      rewrite app_nil_r in Hstep.
      eexists. split; [reflexivity|]. unfold I. rewrite Hstep. reflexivity.
  - rewrite Hrun. f_equal. exact Hend.
Qed.

(** Among 1000 samples that pass there is one with 999 before it. *)
Lemma thousandth_above_threshold (map : BitstreamMap_t) (from : Z) (n : nat) :
  (1000 <= length (above_threshold map from (from + Z.of_nat n)))%nat ->
  exists e, from <= e < from + Z.of_nat n /\
            length (above_threshold map from e) = 999%nat /\
            threshold_of map < size_at map e.
Proof.
  induction n as [|n IH]; intros Hlen.
  - rewrite above_threshold_empty in Hlen by lia. simpl in Hlen. lia.
  - replace (from + Z.of_nat (S n)) with (from + Z.of_nat n + 1) in Hlen by lia.
    rewrite above_threshold_step, length_app in Hlen by lia.
    destruct (decide (1000 <= length (above_threshold map from (from + Z.of_nat n)))%nat)
      as [Hmore|Hless].
    + destruct (IH Hmore) as (e & He & Hcount & Hpass).
      exists e. split; [lia | auto].
    + destruct (decide (threshold_of map < size_at map (from + Z.of_nat n)))
        as [Hpass|Hfail]; simpl in Hlen; [|lia].
      exists (from + Z.of_nat n). split; [lia|]. split; [lia | exact Hpass].
Qed.

Lemma first_cut_overflow (map : BitstreamMap_t) :
  valid_map map ->
  0 <= borders_of map -> 0 <= threshold_of map < 2 ^ 31 ->
  (1000 <= length (survivors map))%nat ->
  first_cut map (spspps_of map) (threshold_of map) (borders_of map)
  = Undefined OutOfBounds.
Proof.
  intros Hv Hb Ht Hlen.
  destruct (valid_map_sizes map Hv) as (sizes & Hsz & Hslen & Hall).
  pose proof (valid_idr map Hv) as Hidr.
  pose proof (valid_count map Hv) as Hcount.
  set (sp := spspps_of map) in *. set (b := borders_of map) in *.
  assert (sp = sample_count map - sample_count_idr map) as Hsp by reflexivity.
  assert (b < sample_count_idr map - b) as Hrange.
  { destruct (Z.lt_ge_cases b (sample_count_idr map - b)); [assumption|].
    unfold survivors in Hlen. fold sp b in Hlen.
    rewrite above_threshold_empty in Hlen by lia. simpl in Hlen. lia. }
  unfold survivors in Hlen. fold sp b in Hlen.
  replace (sample_count map - b)
    with (sp + b + Z.of_nat (Z.to_nat (sample_count_idr map - b - b)))
    in Hlen by lia.
  destruct (thousandth_above_threshold map (sp + b) _ Hlen)
    as (k & Hk & Hcount999 & Hpass).
  set (e := k - sp).
  assert (b <= e < sample_count_idr map - b) as He by (unfold e; lia).
  replace k with (sp + e) in * by (unfold e; lia).
  unfold first_cut.
  rewrite (for_range_split b e (sample_count_idr map - b)) by lia.
  fold sp b.
  pose proof (first_cut_prefix map e Hv Hb Ht ltac:(fold b; lia)) as Hprefix.
  cbv zeta in Hprefix. fold sp b in Hprefix.
  rewrite Hprefix by lia. simpl.
  rewrite for_range_step by lia.
  match goal with
  | |- ?head ≫= _ = _ =>
      assert (head = Undefined OutOfBounds) as ->; [|reflexivity]
  end.
  unfold first_cut_body. rewrite Hsz. simpl.
  destruct (lookup_lt_is_Some_2 sizes (Z.to_nat (e + sp))) as [sz Hsz']; [lia|].
  rewrite (proj2 (aget_Done sizes (e + sp) sz)) by (split; [lia | exact Hsz']).
  simpl. rewrite uint32_small by lia.
  assert (size_at map (sp + e) = sz) as Hsize.
  { unfold size_at, array_of. rewrite Hsz. simpl.
    replace (sp + e) with (e + sp) by lia. rewrite Hsz'. reflexivity. }
  rewrite Hsize in Hpass.
  destruct (Z.ltb_spec (threshold_of map) sz); [|lia].
  rewrite Hcount999. unfold aset.
  rewrite length_app, length_replicate, Hcount999. simpl.
  reflexivity.
Qed.

(** X19. [temporary_sample_id] has 999 slots and the first cut does not count
    them: on a map of which 1000 IDR samples or more survive, the first
    cut writes past the end of the array, and the behaviour of
    [idr_filtering] is undefined, in both modes and whatever the number
    of pictures asked. *)
Theorem idr_filtering_overflows_sample_ids (h l : nat) (map : BitstreamMap_t)
    (n : Z) (mode : picture_extraction_mode) (m : memory)
    (Hhandle : handles m !! h = Some (Some l))
    (Hmap : maps m !! l = Some (Some map))
    (Hvalid : valid_map map) (Hidr : 0 < sample_count_idr map)
    (Hmode : mode <> PICTURE_UNFILTERED)
    (Hmany : (1000 <= length (survivors map))%nat) :
  idr_filtering (Some h) n mode m = Undefined OutOfBounds.
Proof.
  unfold idr_filtering.
  filter_prologue h l map n mode m Hhandle Hmap Hvalid Hidr Hmode.
  rewrite (first_cut_overflow map Hvalid (proj1 Hbr) Htr Hmany).
  reflexivity.
Qed.

(* ================================================================== *)
(** * decoder/h264/h264.c: more on the context and on the loop *)

(** ** [initDecodingContext] and [checkDecodingContext] together *)

Lemma cached_replicate_None {A} (n : nat) (i : Z) :
  cached (replicate n (@None A)) i = None.
Proof.
  unfold cached. destruct (i <? 0); [reflexivity|].
  destruct (replicate n None !! Z.to_nat i) as [x|] eqn:E; [|reflexivity].
  apply lookup_replicate in E as [-> _]. reflexivity.
Qed.

(** [initDecodingContext] gives a context exactly when the video is not
    NULL and its three allocations succeed.  The context it gives has
    its counters at 0 and no parameter set in any slot, and
    [checkDecodingContext] refuses it: a slice cannot be decoded before an
    SPS, a PPS and a slice header have been. *)
Lemma initDecodingContext_is_not_ready {V : Type} (video : option V)
    (calloc_ok : bool) (bs : option Bitstream_t) (nalu : option nalu_t) :
  (is_Some (initDecodingContext video calloc_ok bs nalu) <->
     is_Some video /\ calloc_ok = true /\ is_Some bs /\ is_Some nalu) /\
  (forall dc,
     initDecodingContext video calloc_ok bs nalu = Some dc ->
     checkDecodingContext dc = Done FAILURE /\
     (forall i, cached (sps_array dc) i = None) /\
     (forall i, cached (pps_array dc) i = None) /\
     active_slice dc = None /\
     decoderRunning dc = false /\
     idrCounter dc = 0 /\ frameCounter dc = 0 /\ errorCounter dc = 0).
Proof.
  unfold initDecodingContext. split.
  - destruct video, calloc_ok, bs, nalu; simpl; split;
      try (intros [x Hx]; discriminate);
      try (intros (H1 & H2 & H3 & H4);
           first [destruct H1; discriminate | discriminate
                 | destruct H3; discriminate | destruct H4; discriminate]);
      intros; repeat split; eauto.
  - intros dc.
    destruct video, calloc_ok, bs, nalu; cbn [negb]; try discriminate.
    intros H. injection H as <-.
    split; [reflexivity|].
    split; [intros i; apply (cached_replicate_None MAX_SPS)|].
    split; [intros i; apply (cached_replicate_None MAX_PPS)|].
    repeat split; reflexivity.
Qed.

Lemma aget_defined {A} (a : list A) (i : Z) :
  defined (aget a i) <-> 0 <= i < Z.of_nat (length a).
Proof.
  unfold aget. destruct (Z.ltb_spec i 0); simpl; [split; [tauto | lia]|].
  destruct (a !! Z.to_nat i) eqn:E; simpl.
  - apply lookup_lt_Some in E. split; [lia | auto].
  - apply lookup_ge_None in E. split; [tauto | lia].
Qed.

Lemma aget_out_of_bounds {A} (a : list A) (i : Z) :
  ~ 0 <= i < Z.of_nat (length a) -> aget a i = Undefined OutOfBounds.
Proof.
  intros H. unfold aget. destruct (Z.ltb_spec i 0); [reflexivity|].
  destruct (a !! Z.to_nat i) eqn:E; [|reflexivity].
  apply lookup_lt_Some in E. lia.
Qed.

(** X20. [checkDecodingContext] checks no index: it is defined exactly when
    [active_sps], [active_pps], the PPS index of the slice and the SPS
    index of the PPS of the slice are within the two arrays, and reads
    out of the bounds of an array otherwise. *)
Theorem checkDecodingContext_checks_no_index (dc : DecodingContext_t) :
  (defined (checkDecodingContext dc) <-> indices_in_range dc) /\
  (~ indices_in_range dc ->
     checkDecodingContext dc = Undefined OutOfBounds).
Proof.
  assert (indices_in_range dc \/
          (~ indices_in_range dc /\
           checkDecodingContext dc = Undefined OutOfBounds)) as Hcases.
  { unfold indices_in_range, checkDecodingContext.
    destruct (decide (0 <= active_sps dc < Z.of_nat (length (sps_array dc))))
      as [Hsps|Hsps].
    2:{ right. split; [tauto|]. rewrite (aget_out_of_bounds _ _ Hsps).
        reflexivity. }
    destruct (decide (0 <= active_pps dc < Z.of_nat (length (pps_array dc))))
      as [Hpps|Hpps].
    2:{ right. split; [tauto|].
        rewrite (aget_cached _ _ Hsps), (aget_out_of_bounds _ _ Hpps).
        reflexivity. }
    rewrite (aget_cached _ _ Hsps), (aget_cached _ _ Hpps). simpl.
    destruct (active_slice dc) as [slice|]; simpl.
    2:{ left. split; [exact Hsps|]. split; [exact Hpps|].
        intros s Hs. discriminate. }
    destruct (decide (0 <= slice_pic_parameter_set_id slice
                      < Z.of_nat (length (pps_array dc)))) as [Hid|Hid].
    2:{ right. split.
        - intros (_ & _ & H). destruct (H slice eq_refl) as [H' _]. lia.
        - rewrite (aget_out_of_bounds _ _ Hid). reflexivity. }
    rewrite (aget_cached _ _ Hid). simpl.
    destruct (cached (pps_array dc) (slice_pic_parameter_set_id slice))
      as [p|] eqn:Ep; simpl.
    2:{ left. split; [exact Hsps|]. split; [exact Hpps|].
        intros s Hs. injection Hs as <-. split; [exact Hid|].
        intros p Hp. congruence. }
    destruct (decide (0 <= seq_parameter_set_id p
                      < Z.of_nat (length (sps_array dc)))) as [Hs|Hs].
    - left. split; [exact Hsps|]. split; [exact Hpps|].
      intros s Hs'. injection Hs' as <-. split; [exact Hid|].
      intros p' Hp'. rewrite Ep in Hp'. injection Hp' as <-. exact Hs.
    - right. split.
      + intros (_ & _ & H). destruct (H slice eq_refl) as [_ H'].
        specialize (H' p Ep). lia.
      + rewrite (aget_out_of_bounds _ _ Hs). reflexivity. }
  split.
  - split.
    + intros Hdef. destruct Hcases as [H|[_ H]]; [exact H|].
      rewrite H in Hdef. contradiction.
    + intros Hin. destruct Hcases as [_|[H _]]; [|contradiction].
      destruct Hin as (Hsps & Hpps & Hslice).
      unfold checkDecodingContext.
      rewrite (aget_cached _ _ Hsps), (aget_cached _ _ Hpps). simpl.
      destruct (active_slice dc) as [slice|]; simpl; [|exact I].
      destruct (Hslice slice eq_refl) as [Hid Hp].
      rewrite (aget_cached _ _ Hid). simpl.
      destruct (cached (pps_array dc) (slice_pic_parameter_set_id slice))
        as [p|] eqn:Ep; simpl; [|exact I].
      rewrite (aget_cached _ _ (Hp p eq_refl)). simpl.
      destruct (cached (sps_array dc) (seq_parameter_set_id p)); exact I.
  - intros Hout. destruct Hcases as [H|[_ H]]; [contradiction | exact H].
Qed.

(** ** [computeNormAdjust] *)

Lemma filled_dims : table_dims 6 4 4 filled4x4 /\ table_dims 6 8 8 filled8x8.
Proof.
  split; (split; [reflexivity|]);
    repeat (constructor; [split; [reflexivity|]; repeat constructor|]);
    constructor.
Qed.

(** X21. [computeNormAdjust] returns FAILURE for a NULL context.  On a
    context it writes the two tables and nothing else, what it writes
    does not depend on what the tables held, and a second call changes
    nothing. *)
Theorem computeNormAdjust_writes_tables_only (dc : DecodingContext_t)
    (H4 : table_dims 6 4 4 (normAdjust4x4 dc))
    (H8 : table_dims 6 8 8 (normAdjust8x8 dc)) :
  computeNormAdjust None = Done (FAILURE, None) /\
  exists dc',
    computeNormAdjust (Some dc) = Done (SUCCESS, Some dc') /\
    computeNormAdjust (Some dc') = Done (SUCCESS, Some dc') /\
    dc' = set_normAdjust8x8 (normAdjust8x8 dc')
            (set_normAdjust4x4 (normAdjust4x4 dc') dc) /\
    (forall other,
       table_dims 6 4 4 (normAdjust4x4 other) ->
       table_dims 6 8 8 (normAdjust8x8 other) ->
       exists other',
         computeNormAdjust (Some other) = Done (SUCCESS, Some other') /\
         normAdjust4x4 other' = normAdjust4x4 dc' /\
         normAdjust8x8 other' = normAdjust8x8 dc').
Proof.
  split; [reflexivity|].
  eexists. split; [apply computeNormAdjust_fills; assumption|].
  split; [|split].
  - rewrite computeNormAdjust_fills by apply filled_dims. reflexivity.
  - reflexivity.
  - intros other Ho4 Ho8. eexists.
    split; [apply computeNormAdjust_fills; assumption|]. auto.
Qed.

(** X22. The tables that [computeNormAdjust] leaves are symmetric,
    [t[q][i][j] == t[q][j][i]], and periodic: an entry of the 4x4 table
    depends on the parities of [i] and [j] only, an entry of the 8x8 table
    on [i % 4] and [j % 4] only. *)
Theorem computeNormAdjust_tables_symmetric (dc : DecodingContext_t)
    (H4 : table_dims 6 4 4 (normAdjust4x4 dc))
    (H8 : table_dims 6 8 8 (normAdjust8x8 dc)) :
  exists dc',
    computeNormAdjust (Some dc) = Done (SUCCESS, Some dc') /\
    (forall q i j : nat, (q < 6)%nat -> (i < 4)%nat -> (j < 4)%nat ->
       tlookup (normAdjust4x4 dc') q i j = tlookup (normAdjust4x4 dc') q j i /\
       tlookup (normAdjust4x4 dc') q i j
       = tlookup (normAdjust4x4 dc') q (i mod 2) (j mod 2)) /\
    (forall q i j : nat, (q < 6)%nat -> (i < 8)%nat -> (j < 8)%nat ->
       tlookup (normAdjust8x8 dc') q i j = tlookup (normAdjust8x8 dc') q j i /\
       tlookup (normAdjust8x8 dc') q i j
       = tlookup (normAdjust8x8 dc') q (i mod 4) (j mod 4)).
Proof.
  eexists. split; [apply computeNormAdjust_fills; assumption|].
  split; intros q i j Hq Hi Hj; simpl.
  - destruct q as [|[|[|[|[|[|q]]]]]]; try lia;
    destruct i as [|[|[|[|i]]]]; try lia;
    destruct j as [|[|[|[|j]]]]; try lia; split; reflexivity.
  - destruct q as [|[|[|[|[|[|q]]]]]]; try lia;
    destruct i as [|[|[|[|[|[|[|[|i]]]]]]]]; try lia;
    destruct j as [|[|[|[|[|[|[|[|j]]]]]]]]; try lia; split; reflexivity.
Qed.

(** ** The dispatch loop *)

(** What holds before every iteration holds when the loop is left. *)
Lemma decode_loop_inv (I : nat -> DecodingContext_t -> Z -> Prop)
    (number : Z) (env : nat -> Event) :
  (forall k dc r, decoderRunning dc = true -> I k dc r ->
     I (S k) (fst (iteration number (env k) dc))
       (snd (iteration number (env k) dc))) ->
  forall (fuel k : nat) dc r dc' r' k',
    I k dc r ->
    decode_loop fuel number env k dc r = Some (dc', r', k') ->
    I k' dc' r' /\ decoderRunning dc' = false.
Proof.
  intros Hstep. induction fuel as [|fuel IH]; intros k dc r dc' r' k' HI;
    simpl; destruct (decoderRunning dc) eqn:Hrun; try discriminate;
    try (intros [= <- <- <-]; auto).
  specialize (Hstep k dc r Hrun HI).
  destruct (iteration number (env k) dc) as [dc1 r1]. simpl in Hstep.
  apply IH. exact Hstep.
Qed.

Lemma load_and_dispatch_frames (ev : Event) (dc : DecodingContext_t) :
  let dc1 := fst (load_and_dispatch ev dc) in
  (idrCounter dc1 = idrCounter dc /\ frameCounter dc1 = frameCounter dc) \/
  (idrCounter dc1 = idrCounter dc + 1 /\
   frameCounter dc1 = frameCounter dc + 1).
Proof.
  unfold load_and_dispatch, dispatch.
  repeat case_match; simplify_eq; unfold_setters; lia.
Qed.

Lemma closing_tests_frames (number : Z) (s : DecodingContext_t * Z) :
  idrCounter (fst (closing_tests number s)) = idrCounter (fst s) /\
  frameCounter (fst (closing_tests number s)) = frameCounter (fst s) /\
  errorCounter (fst (closing_tests number s)) = errorCounter (fst s).
Proof.
  destruct s as [dc r]. unfold closing_tests.
  repeat case_match; simplify_eq; unfold_setters; auto.
Qed.

(** X23. The counters when [h264_decode] leaves its loop, for one picture or
    more: [frameCounter] equals [idrCounter], which is at most the number
    of pictures asked and at most the number of samples read, and
    [errorCounter] is at most 65. *)
Theorem decode_loop_counters (number : Z) (env : nat -> Event) (fuel : nat)
    (dc dc' : DecodingContext_t) (retcode r' : Z) (k' : nat)
    (Hnumber : 1 <= number)
    (Hidr : idrCounter dc = 0) (Hframe : frameCounter dc = 0)
    (Herr : errorCounter dc = 0)
    (Hrun : decoderRunning dc = true)
    (Hexit : decode_loop fuel number env 0 dc retcode = Some (dc', r', k')) :
  frameCounter dc' = idrCounter dc' /\
  0 <= idrCounter dc' <= number /\
  idrCounter dc' <= Z.of_nat k' /\
  0 <= errorCounter dc' <= 65 /\
  decoderRunning dc' = false.
Proof.
  set (I := fun (k : nat) (d : DecodingContext_t) (r : Z) =>
              frameCounter d = idrCounter d /\
              0 <= idrCounter d <= number /\
              idrCounter d <= Z.of_nat k /\
              0 <= errorCounter d <= 65 /\
              (decoderRunning d = true ->
               idrCounter d < number /\ errorCounter d <= 64)).
  assert (I k' dc' r' /\ decoderRunning dc' = false)
    as [(H1 & H2 & H3 & H4 & _) H5]; [|auto 6].
  refine (decode_loop_inv I number env _ fuel 0%nat dc retcode dc' r' k' _ Hexit).
  - intros k d r Hd (Hf & Hi & Hk & He & Hlive).
    destruct (Hlive Hd) as [Hlt He64].
    unfold iteration.
    pose proof (load_and_dispatch_running (env k) d) as Hr1.
    pose proof (load_and_dispatch_counters (env k) d) as Hc.
    pose proof (load_and_dispatch_frames (env k) d) as Hfr.
    destruct (load_and_dispatch (env k) d) as [d1 r1] eqn:E1.
    cbn [fst snd] in *. rewrite Hd in Hr1.
    pose proof (closing_tests_frames number (d1, r1)) as (Hci & Hcf & Hce).
    destruct (closing_tests_spec number d1 r1 Hr1)
      as (d2 & r2 & E2 & Hiff & _ & _ & _ & _ & _).
    rewrite E2 in *. cbn [fst snd] in *.
    unfold I. rewrite Hci, Hcf, Hce.
    split; [lia|]. split; [lia|]. split; [lia|]. split; [lia|].
    intros Hlive2.
    assert (~ (idrCounter d1 = number \/ 64 < errorCounter d1 \/ r1 = FAILURE))
      as Hno by (intros Hx; apply Hiff in Hx; congruence).
    lia.
  - unfold I. rewrite Hidr, Hframe, Herr.
    split; [lia|]. split; [lia|]. split; [lia|]. split; [lia|].
    intros _. lia.
Qed.

(** *** No picture asked *)

Lemma iteration_first_idr (ev : Event) (dc : DecodingContext_t) :
  decodes_idr ev = true ->
  idrCounter (fst (load_and_dispatch ev dc)) = idrCounter dc + 1 /\
  errorCounter (fst (load_and_dispatch ev dc)) = 0 /\
  snd (load_and_dispatch ev dc) = SUCCESS.
Proof.
  unfold decodes_idr, load_and_dispatch, dispatch. intros H.
  apply andb_true_iff in H as [H Hh]. apply andb_true_iff in H as [Hhd Ht].
  rewrite Hhd, Hh. apply Z.eqb_eq in Ht. rewrite Ht. simpl.
  unfold_setters. auto.
Qed.

Lemma iteration_no_idr (ev : Event) (dc : DecodingContext_t) :
  decodes_idr ev = false ->
  idrCounter (fst (load_and_dispatch ev dc)) = idrCounter dc /\
  errorCounter dc <= errorCounter (fst (load_and_dispatch ev dc))
                  <= errorCounter dc + 1.
Proof.
  unfold decodes_idr, load_and_dispatch, dispatch. intros H.
  destruct (ev_header ev); simpl in H; [|unfold_setters; lia].
  destruct (Z.eqb_spec (ev_type ev) NALU_TYPE_SLICE) as [Hs|Hs];
    [simpl; lia|].
  destruct (Z.eqb_spec (ev_type ev) NALU_TYPE_IDR) as [Hi|Hi].
  - simpl in H. rewrite H. unfold_setters. lia.
  - repeat case_match; simplify_eq; unfold_setters; lia.
Qed.

(** X24. With no picture asked ([picture_number] 0) the loop still runs: it
    reads one sample.  If that sample is not an IDR slice that decodes,
    the loop stops there and [retcode] is SUCCESS, even when nothing
    could be read; if it is, [idrCounter] has passed 0 for good, and the
    loop can only be left with FAILURE. *)
Theorem decode_loop_no_picture_asked (env : nat -> Event)
    (dc : DecodingContext_t) (retcode : Z)
    (Hrun : decoderRunning dc = true)
    (Hidr : idrCounter dc = 0) (Herr : errorCounter dc = 0) :
  (decodes_idr (env 0%nat) = false ->
     forall fuel, exists dc',
       decode_loop (S fuel) 0 env 0 dc retcode = Some (dc', SUCCESS, 1%nat) /\
       idrCounter dc' = 0) /\
  (decodes_idr (env 0%nat) = true ->
     forall fuel dc' r' k',
       decode_loop fuel 0 env 0 dc retcode = Some (dc', r', k') ->
       r' = FAILURE /\ 1 <= idrCounter dc' /\ (2 <= k')%nat).
Proof.
  split.
  - intros Hno fuel. simpl. rewrite Hrun. unfold iteration.
    pose proof (load_and_dispatch_running (env 0%nat) dc) as Hr1.
    pose proof (iteration_no_idr (env 0%nat) dc Hno) as [Hi He].
    destruct (load_and_dispatch (env 0%nat) dc) as [d1 r1].
    cbn [fst snd] in *. rewrite Hrun in Hr1.
    pose proof (closing_tests_frames 0 (d1, r1)) as (Hci & _ & _).
    destruct (closing_tests_spec 0 d1 r1 Hr1)
      as (d2 & r2 & E2 & Hiff & Hok & _ & _ & _ & _).
    rewrite E2 in *. cbn [fst snd] in *.
    assert (decoderRunning d2 = false) as Hstop by (apply Hiff; left; lia).
    rewrite decode_loop_stopped by exact Hstop.
    exists d2. rewrite (Hok ltac:(lia) ltac:(lia)). split; [reflexivity | lia].
  - intros Hyes fuel dc' r' k' Hexit.
    destruct fuel as [|fuel]; simpl in Hexit; rewrite Hrun in Hexit;
      [discriminate|].
    unfold iteration in Hexit.
    pose proof (load_and_dispatch_running (env 0%nat) dc) as Hr1.
    pose proof (iteration_first_idr (env 0%nat) dc Hyes) as (Hi & He & Hr).
    destruct (load_and_dispatch (env 0%nat) dc) as [d1 r1].
    cbn [fst snd] in *. rewrite Hrun in Hr1.
    pose proof (closing_tests_frames 0 (d1, r1)) as (Hci & _ & Hce).
    destruct (closing_tests_spec 0 d1 r1 Hr1)
      as (d2 & r2 & E2 & Hiff & _ & Hko & Hsame & _ & _).
    rewrite E2 in *. cbn [fst snd] in *.
    destruct (decoderRunning d2) eqn:Hrun2.
    2:{ rewrite decode_loop_stopped in Hexit by exact Hrun2.
        injection Hexit as <- <- <-.
        destruct (proj1 Hiff eq_refl) as [?|[?|?]]; try lia.
        subst r1. discriminate. }
    set (I := fun (k : nat) (d : DecodingContext_t) (r : Z) =>
                1 <= idrCounter d /\ (1 <= k)%nat /\
                0 <= errorCounter d <= 65 /\
                (decoderRunning d = true -> errorCounter d <= 64) /\
                (decoderRunning d = false -> r = FAILURE /\ (2 <= k)%nat)).
    assert (I k' dc' r' /\ decoderRunning dc' = false)
      as [(H1 & H2 & H3 & H4 & H5) H6];
      [|destruct (H5 H6); auto].
    refine (decode_loop_inv I 0 env _ fuel 1%nat d2 r2 dc' r' k' _ Hexit).
    + intros k d r Hd (Hi1 & Hk1 & He1 & Hlive & _).
      specialize (Hlive Hd). unfold iteration.
      pose proof (load_and_dispatch_running (env k) d) as Hr1'.
      pose proof (load_and_dispatch_counters (env k) d) as Hc.
      destruct (load_and_dispatch (env k) d) as [d1' r1'].
      cbn [fst snd] in *. rewrite Hd in Hr1'.
      pose proof (closing_tests_frames 0 (d1', r1')) as (Hci' & _ & Hce').
      destruct (closing_tests_spec 0 d1' r1' Hr1')
        as (d2' & r2' & E2' & Hiff' & _ & Hko' & _ & _ & _).
      rewrite E2' in *. cbn [fst snd] in *.
      unfold I. rewrite Hci', Hce'.
      split; [lia|]. split; [lia|]. split; [lia|].
      split; [|intros Hdead; split; [|lia]].
      * intros Hlive2.
        assert (~ (idrCounter d1' = 0 \/ 64 < errorCounter d1' \/ r1' = FAILURE))
          as Hno by (intros Hx; apply Hiff' in Hx; congruence).
        lia.
      * apply Hko'.
        destruct (proj1 Hiff' Hdead) as [?|[?|?]];
          [lia | auto | right; split; [lia | auto]].
    + unfold I. rewrite Hci, Hce.
      split; [lia|]. split; [lia|]. split; [lia|].
      split; [|intros Hdead; congruence].
      intros _.
      assert (~ (idrCounter d1 = 0 \/ 64 < errorCounter d1 \/ r1 = FAILURE))
        as Hno by (intros Hx; apply Hiff in Hx; congruence).
      lia.
Qed.

(** *** Inputs that only count errors, inputs that count nothing *)

Lemma iteration_counts_error (number : Z) (ev : Event) (dc : DecodingContext_t) :
  counts_error ev = true ->
  idrCounter (fst (load_and_dispatch ev dc)) = idrCounter dc /\
  errorCounter (fst (load_and_dispatch ev dc)) = errorCounter dc + 1 /\
  snd (load_and_dispatch ev dc) = ev_feed ev.
Proof.
  unfold counts_error, load_and_dispatch, dispatch. intros H.
  destruct (ev_header ev); [|unfold_setters; auto].
  destruct (ev_type ev =? NALU_TYPE_SLICE); [discriminate|].
  destruct (ev_type ev =? NALU_TYPE_IDR) eqn:Ei; simpl in H.
  { apply negb_true_iff in H. rewrite H. unfold_setters. auto. }
  destruct ((ev_type ev =? NALU_TYPE_SEI) || (ev_type ev =? NALU_TYPE_SPS)
            || (ev_type ev =? NALU_TYPE_PPS)) eqn:Eo; simpl in H.
  { apply negb_true_iff in H. rewrite H. unfold_setters. auto. }
  unfold_setters. auto.
Qed.

Lemma decode_loop_errors (number : Z) (env : nat -> Event) :
  (forall k, ev_feed (env k) = SUCCESS /\ counts_error (env k) = true) ->
  forall (todo fuel k : nat) (dc : DecodingContext_t) (r : Z),
    decoderRunning dc = true -> idrCounter dc <> number ->
    errorCounter dc = 65 - Z.of_nat todo -> (1 <= todo)%nat ->
    (todo <= fuel)%nat ->
    exists dc',
      decode_loop fuel number env k dc r = Some (dc', FAILURE, (k + todo)%nat) /\
      errorCounter dc' = 65 /\ idrCounter dc' = idrCounter dc.
Proof.
  intros Henv. induction todo as [|todo IH]; intros fuel k dc r Hrun Hidr Herr H1 Hfuel;
    [lia|].
  destruct fuel as [|fuel]; [lia|]. simpl. rewrite Hrun.
  unfold iteration.
  destruct (Henv k) as [Hfeed Hce].
  pose proof (load_and_dispatch_running (env k) dc) as Hr1.
  pose proof (iteration_counts_error number (env k) dc Hce) as (Hi & He & Hrc).
  destruct (load_and_dispatch (env k) dc) as [d1 r1].
  cbn [fst snd] in *. rewrite Hrun in Hr1. rewrite Hfeed in Hrc.
  pose proof (closing_tests_frames number (d1, r1)) as (Hci & _ & Hcerr).
  destruct (closing_tests_spec number d1 r1 Hr1)
    as (d2 & r2 & E2 & Hiff & _ & Hko & Hsame & _ & _).
  rewrite E2 in *. cbn [fst snd] in *.
  destruct (decide (todo = 0)%nat) as [->|Hmore].
  - assert (decoderRunning d2 = false) as Hstop by (apply Hiff; right; left; lia).
    rewrite decode_loop_stopped by exact Hstop.
    exists d2. rewrite (Hko ltac:(left; lia)).
    replace (k + 1)%nat with (S k) by lia.
    split; [reflexivity | lia].
  - destruct (decoderRunning d2) eqn:Hrun2.
    + destruct (Hsame eq_refl) as [-> ->].
      destruct (IH fuel (S k) d1 r1 Hrun2 ltac:(lia) ltac:(lia) ltac:(lia)
                  ltac:(lia)) as (dc' & Hloop & He' & Hi').
      exists dc'. rewrite Hloop.
      replace (S k + todo)%nat with (k + S todo)%nat by lia.
      split; [reflexivity | lia].
    + exfalso. destruct (proj1 Hiff eq_refl) as [?|[?|?]]; try lia.
      subst r1. discriminate.
Qed.

(** X25. The loop gives up at the 65th error counted since the last IDR
    slice that decoded.  On an input that is read without error but of
    which every sample only counts an error (no header, a type that is
    not supported, a handler that fails), it runs exactly 65 iterations
    and leaves with FAILURE, when the number of pictures asked is not the
    number already decoded. *)
Theorem decode_loop_gives_up_after_65_errors (number : Z)
    (env : nat -> Event) (dc : DecodingContext_t) (retcode : Z) (fuel : nat)
    (Henv : forall k, ev_feed (env k) = SUCCESS /\ counts_error (env k) = true)
    (Hrun : decoderRunning dc = true)
    (Hidr : idrCounter dc <> number) (Herr : errorCounter dc = 0)
    (Hfuel : (65 <= fuel)%nat) :
  exists dc',
    decode_loop fuel number env 0 dc retcode = Some (dc', FAILURE, 65%nat) /\
    errorCounter dc' = 65 /\
    idrCounter dc' = idrCounter dc /\
    (64 <= fuel)%nat /\
    decode_loop 64 number env 0 dc retcode = None.
Proof.
  destruct (decode_loop_errors number env Henv 65 fuel 0 dc retcode Hrun Hidr)
    as (dc' & Hloop & He & Hi); [lia | lia | lia|].
  exists dc'. split; [exact Hloop|]. split; [exact He|]. split; [exact Hi|].
  split; [lia|].
  destruct (decode_loop 64 number env 0 dc retcode) as [[[d r] k]|] eqn:E;
    [|reflexivity].
  exfalso.
  assert (forall f1 f2 k0 d0 r0 res,
            decode_loop f1 number env k0 d0 r0 = Some res -> (f1 <= f2)%nat ->
            decode_loop f2 number env k0 d0 r0 = Some res) as Hmono.
  { induction f1 as [|f1 IHf]; intros f2 k0 d0 r0 res Hres Hle.
    - simpl in Hres. destruct (decoderRunning d0) eqn:Hd; [discriminate|].
      rewrite decode_loop_stopped by exact Hd. exact Hres.
    - destruct f2 as [|f2]; [lia|]. simpl in *.
      destruct (decoderRunning d0); [|exact Hres].
      destruct (iteration number (env k0) d0) as [d1 r1].
      apply IHf; [exact Hres | lia]. }
  pose proof (Hmono 64%nat fuel _ _ _ _ E ltac:(lia)) as E'.
  rewrite Hloop in E'. injection E' as <- <- <-.
  clear -E Hloop. 
  assert (forall f k0 d0 r0 d1 r1 k1,
            decode_loop f number env k0 d0 r0 = Some (d1, r1, k1) ->
            (k1 <= k0 + f)%nat) as Hbound.
  { induction f as [|f IHf]; intros k0 d0 r0 d1 r1 k1 Hres; simpl in Hres.
    - destruct (decoderRunning d0); [discriminate|].
      injection Hres as <- <- <-. lia.
    - destruct (decoderRunning d0).
      + destruct (iteration number (env k0) d0) as [d2 r2].
        apply IHf in Hres. lia.
      + injection Hres as <- <- <-. lia. }
  apply Hbound in E. lia.
Qed.

(** X26. A slice that is not an IDR slice is neither decoded nor counted as
    an error: as long as such slices are read without error, and the
    number of pictures asked is not reached, the loop does not stop. *)
Theorem decode_loop_skips_slices_forever (number : Z) (env : nat -> Event)
    (dc : DecodingContext_t) (retcode : Z) (k0 : nat)
    (Henv : forall k, (k0 <= k)%nat -> skipped_slice (env k) = true)
    (Hrun : decoderRunning dc = true)
    (Hidr : idrCounter dc <> number) (Herr : errorCounter dc <= 64) :
  forall fuel, decode_loop fuel number env k0 dc retcode = None.
Proof.
  intros fuel. revert k0 retcode Henv.
  induction fuel as [|fuel IH]; intros k0 retcode Henv; simpl; rewrite Hrun;
    [reflexivity|].
  assert (iteration number (env k0) dc = (dc, SUCCESS)) as ->.
  { specialize (Henv k0 (le_n k0)). unfold skipped_slice in Henv.
    apply andb_true_iff in Henv as [Henv Ht].
    apply andb_true_iff in Henv as [Hf Hh].
    apply Z.eqb_eq in Hf.
    unfold iteration, load_and_dispatch, dispatch, closing_tests.
    rewrite Hh, Ht, Hf.
    rewrite (proj2 (Z.eqb_neq _ _) Hidr).
    rewrite (proj2 (Z.ltb_ge _ _) Herr). reflexivity. }
  apply IH. intros k Hk. apply Henv. lia.
Qed.

(* ================================================================== *)
(** * utils.c: [calloc2d] and [free2d] *)

Lemma load_table_Done (t : nat) (h : heap2d) (slots : list (option nat)) :
  tables h !! t = Some (Some slots) -> load_table t h = Done slots.
Proof. intros H. unfold load_table. rewrite H. reflexivity. Qed.

Lemma store_slot_Done (t : nat) (i : Z) (v : option nat) (h : heap2d)
    (slots : list (option nat)) :
  tables h !! t = Some (Some slots) -> 0 <= i < Z.of_nat (length slots) ->
  store_slot t i v h
  = Done (set_tables (<[t := Some (<[Z.to_nat i := v]> slots)]> (tables h)) h).
Proof.
  intros Ht Hi. unfold store_slot. rewrite (load_table_Done t h slots Ht).
  simpl. rewrite aset_in_range by exact Hi. reflexivity.
Qed.

Lemma aget_first {A} (a : list A) (v : A) :
  a !! 0%nat = Some v -> aget a 0 = Done v.
Proof. intros H. apply aget_Done. split; [lia | exact H]. Qed.

(** ** [free2d] *)

(** Row 0 is NULL: nothing is done. *)
Lemma free2d_null_row (t : nat) (slots : list (option nat))
    (x : Z) (h : heap2d) :
  tables h !! t = Some (Some slots) -> slots !! 0%nat = Some None ->
  free2d (Some t) x h = Done h.
Proof.
  intros Htable H0. unfold free2d. simpl.
  rewrite (load_table_Done t h slots Htable). simpl.
  rewrite (aget_first _ _ H0). reflexivity.
Qed.

(** Row 0 is allocated: it is freed, and the loop goes past the
    variable at its second iteration. *)
Lemma free2d_live_row (t : nat) (slots : list (option nat))
    (x : Z) (h : heap2d) (r : nat) (row : list Z) :
  tables h !! t = Some (Some slots) -> (1 <= length slots)%nat ->
  slots !! 0%nat = Some (Some r) -> rows h !! r = Some (Some row) ->
  (x <= 1 ->
     free2d (Some t) x h
     = Done {| tables := <[t := Some (<[0%nat := None]> slots)]> (tables h);
               rows := <[r := None]> (rows h);
               alloc_plan := alloc_plan h |}) /\
  (2 <= x -> free2d (Some t) x h = Undefined OutOfBounds).
Proof.
  intros Htable Hslots H0 Hrow.
  - assert (t < length (tables h))%nat as Ht
      by (apply lookup_lt_is_Some; eauto).
    set (h1 := {| tables := <[t := Some (<[0%nat := None]> slots)]> (tables h);
                  rows := <[r := None]> (rows h);
                  alloc_plan := alloc_plan h |}).
    assert (tables h1 !! t = Some (Some (<[0%nat := None]> slots))) as Htable1
      by (apply list_lookup_insert_eq; exact Ht).
    assert (<[0%nat := None]> slots !! 0%nat = Some None) as H01
      by (apply list_lookup_insert_eq; lia).
    (* the statements that free row 0 and clear the slot *)
    assert (forall p : option nat,
              p = Some r ->
              free_row p h ≫= store_slot t 0 None = Done h1) as Hfree.
    { intros p ->. unfold free_row. rewrite Hrow. simpl.
      rewrite (store_slot_Done t 0 None _ slots) by first [exact Htable | lia].
      reflexivity. }
    assert (free_row None h1 ≫= store_slot t 0 None = Done h1) as Hagain.
    { simpl.
      rewrite (store_slot_Done t 0 None h1 _ Htable1)
        by (rewrite length_insert; lia).
      unfold h1, set_tables. simpl.
      rewrite list_insert_insert_eq. simpl.
      rewrite list_insert_insert_eq. reflexivity. }
    (* one iteration of the loop, for i = 0 *)
    assert ((p ← index_variable (Some t) 0;
             t0 ← deref p;
             slots0 ← load_table t0 h;
             r0 ← aget slots0 0;
             if is_null r0 then Done h
             else h' ← free_row r0 h; store_slot t0 0 None h') = Done h1)
      as Hiter.
    { simpl. rewrite (load_table_Done t h slots Htable). simpl.
      rewrite (aget_first _ _ H0). simpl. exact (Hfree _ eq_refl). }
    unfold free2d. simpl.
    rewrite (load_table_Done t h slots Htable). simpl.
    rewrite (aget_first _ _ H0). simpl.
    split; intros Hx.
    + destruct (Z.le_gt_cases x 0) as [Hle|Hgt].
      * rewrite for_range_empty by exact Hle. simpl.
        rewrite (load_table_Done t h slots Htable). simpl.
        rewrite (aget_first _ _ H0). simpl. exact (Hfree _ eq_refl).
      * rewrite for_range_step by lia. rewrite Hiter. simpl.
        rewrite for_range_empty by lia. simpl.
        rewrite (load_table_Done t h1 _ Htable1). simpl.
        rewrite (aget_first _ _ H01). simpl. exact Hagain.
    + rewrite for_range_step by lia. rewrite Hiter. simpl.
      rewrite for_range_step by lia. reflexivity.
Qed.

(** X27. [free2d(&array2d, x)] on a table of one slot or more.  It tests and
    frees row 0 only: when [array2d[0]] is NULL it does nothing, whatever
    the other rows are; otherwise it frees row 0, sets [array2d[0]] to
    NULL and, for [x >= 2], reads past the variable [array2d], which is
    undefined.  In no case does it free the table or write the
    variable. *)
Theorem free2d_frees_row_0_only (t : nat) (slots : list (option nat))
    (x : Z) (h : heap2d)
    (Htable : tables h !! t = Some (Some slots))
    (Hslots : (1 <= length slots)%nat) :
  free2d None x h = Undefined NullDereference /\
  (slots !! 0%nat = Some None -> free2d (Some t) x h = Done h) /\
  (forall r row,
     slots !! 0%nat = Some (Some r) -> rows h !! r = Some (Some row) ->
     (x <= 1 ->
        free2d (Some t) x h
        = Done {| tables := <[t := Some (<[0%nat := None]> slots)]> (tables h);
                  rows := <[r := None]> (rows h);
                  alloc_plan := alloc_plan h |}) /\
     (2 <= x -> free2d (Some t) x h = Undefined OutOfBounds)).
Proof.
  split; [reflexivity|]. split.
  - intros H0. exact (free2d_null_row t slots x h Htable H0).
  - intros r row H0 Hrow.
    exact (free2d_live_row t slots x h r row Htable Hslots H0 Hrow).
Qed.

(** ** [calloc2d] *)

Lemma alloc2d_ok (n : nat) (h : heap2d) :
  allocations_succeed (S n) h = true ->
  alloc2d h = (true, set_alloc_plan (drop 1 (alloc_plan h)) h) /\
  allocations_succeed n (set_alloc_plan (drop 1 (alloc_plan h)) h) = true.
Proof.
  unfold allocations_succeed, alloc2d.
  destruct h as [ts rs [|b plan]]; simpl.
  - intros _. split; [reflexivity|]. rewrite take_nil. reflexivity.
  - intros H. apply andb_true_iff in H as [Hb Hrest].
    destruct b; [|discriminate]. rewrite ?drop_0. auto.
Qed.

Lemma forallb_take_le {A} (f : A -> bool) (n m : nat) (l : list A) :
  (n <= m)%nat -> forallb f (take m l) = true -> forallb f (take n l) = true.
Proof.
  revert n m. induction l as [|a l IH]; intros n m Hle H.
  - rewrite take_nil. reflexivity.
  - destruct n as [|n]; [reflexivity|]. destruct m as [|m]; [lia|].
    simpl in *. apply andb_true_iff in H as [-> H]. simpl.
    apply (IH n m); [lia | exact H].
Qed.

Lemma alloc2d_fails (h : heap2d) :
  alloc_plan h !! 0%nat = Some false ->
  alloc2d h = (false, set_alloc_plan (drop 1 (alloc_plan h)) h).
Proof.
  unfold alloc2d. destruct (alloc_plan h) as [|b plan]; [discriminate|].
  intros [= ->]. rewrite ?drop_0. reflexivity.
Qed.

Lemma fresh_rows_S (r n : nat) :
  fresh_rows r (S n) = Some r :: fresh_rows (S r) n.
Proof.
  unfold fresh_rows. simpl. rewrite Nat.add_0_r. f_equal.
  rewrite <- seq_shift, <- list_fmap_compose.
  apply list_fmap_ext. intros _ k _. simpl. f_equal. lia.
Qed.

Lemma length_fresh_rows (r n : nat) : length (fresh_rows r n) = n.
Proof. unfold fresh_rows. rewrite length_fmap. apply length_seq. Qed.

Lemma lookup_fresh_rows (r n k : nat) :
  (k < n)%nat -> fresh_rows r n !! k = Some (Some (r + k)%nat).
Proof.
  intros H. unfold fresh_rows. rewrite list_lookup_fmap.
  rewrite lookup_seq_lt by exact H. reflexivity.
Qed.

(** The iterations of the loop of [calloc2d] whose allocation
    succeeds. *)
Lemma calloc2d_rows (t : nat) (x y : Z) (n : nat) :
  forall (a : Z) (h : heap2d) (pre : list (option nat)) (free : nat),
    0 <= a -> Z.to_nat a = length pre ->
    tables h !! t = Some (Some (pre ++ replicate (n + free) None)) ->
    allocations_succeed n h = true ->
    for_loop n a (calloc2d_row t x y) h
    = Done {| tables :=
                <[t := Some (pre ++ fresh_rows (length (rows h)) n
                             ++ replicate free None)]> (tables h);
              rows := rows h
                      ++ replicate n (Some (replicate (Z.to_nat y) 0));
              alloc_plan := drop n (alloc_plan h) |}.
Proof.
  induction n as [|n IH]; intros a h pre free Ha Hpre Ht Hplan.
  - simpl. rewrite app_nil_r, drop_0. rewrite list_insert_id by exact Ht.
    destruct h; reflexivity.
  - destruct (alloc2d_ok n h Hplan) as (Halloc & Hplan1).
    assert (t < length (tables h))%nat as Htlt
      by (apply lookup_lt_is_Some; eauto).
    set (h1 := set_tables
                 (<[t := Some (<[Z.to_nat a := Some (length (rows h))]>
                                 (pre ++ replicate (S n + free) None))]>
                    (tables h))
                 (set_rows (rows h ++ [Some (replicate (Z.to_nat y) 0)])
                    (set_alloc_plan (drop 1 (alloc_plan h)) h))).
    assert (calloc2d_row t x y a h = Done h1) as Hhead.
    { unfold calloc2d_row. rewrite Halloc.
      cbn [rows set_alloc_plan set_rows].
      rewrite (store_slot_Done t a _ _ (pre ++ replicate (S n + free) None));
        [reflexivity | exact Ht |].
      rewrite length_app, length_replicate. lia. }
    cbn [for_loop]. rewrite Hhead. simpl mbind.
    rewrite (IH (a + 1) h1 (pre ++ [Some (length (rows h))]) free).
    + unfold h1. cbn [tables rows alloc_plan set_tables set_rows set_alloc_plan].
      f_equal. f_equal.
      * rewrite list_insert_insert_eq.
        apply (f_equal (fun l => <[t := Some l]> (tables h))).
        rewrite length_app, fresh_rows_S, <- app_assoc. simpl.
        replace (length (rows h) + 1)%nat with (S (length (rows h))) by lia.
        reflexivity.
      * rewrite <- app_assoc. reflexivity.
      * rewrite drop_drop. reflexivity.
    + lia.
    + rewrite length_app. simpl. lia.
    + unfold h1. simpl. rewrite list_lookup_insert_eq by exact Htlt.
      f_equal. f_equal. rewrite Hpre.
      rewrite insert_app_r_alt by lia. rewrite Nat.sub_diag.
      rewrite <- app_assoc. reflexivity.
    + exact Hplan1.
Qed.

Lemma cell2d_fresh (h : heap2d) (t : nat) (slots : list (option nat))
    (old : list (option (list Z))) (n : nat) (base : nat) (y i j : Z) :
  tables h !! t = Some (Some slots) ->
  rows h = old ++ replicate n (Some (replicate (Z.to_nat y) 0)) ->
  0 <= i -> 0 <= j < y ->
  slots !! Z.to_nat i = Some (Some (length old + base)%nat) ->
  (base < n)%nat ->
  cell2d h t i j = Some 0.
Proof.
  intros Ht Hrows Hi Hj Hslot Hbase. unfold cell2d.
  destruct (Z.ltb_spec i 0); [lia|]. destruct (Z.ltb_spec j 0); [lia|].
  simpl. rewrite Ht. simpl. rewrite Hslot. simpl.
  rewrite Hrows. rewrite lookup_app_r by lia.
  replace (length old + base - length old)%nat with base by lia.
  rewrite lookup_replicate_2 by exact Hbase. simpl.
  apply lookup_replicate_2. lia.
Qed.

(** X28. When its allocations succeed, [calloc2d(x, y)] returns a table of
    [x] rows of [y] entries, all 0; the rows are distinct blocks, and the
    blocks that were allocated before are as they were. *)
Theorem calloc2d_zeroed (x y : Z) (h : heap2d)
    (Hx : 1 <= x) (Hy : 1 <= y)
    (Halloc : allocations_succeed (S (Z.to_nat x)) h = true) :
  exists t h',
    calloc2d x y h = Done (Some t, h') /\
    (forall i j, 0 <= i < x -> 0 <= j < y -> cell2d h' t i j = Some 0) /\
    (forall i i' r, slot2d h' t i = Some (Some r) ->
                    slot2d h' t i' = Some (Some r) -> i = i') /\
    (forall i r, slot2d h' t i = Some (Some r) -> rows h !! r = None) /\
    tables h !! t = None /\
    (forall t', t' <> t -> tables h' !! t' = tables h !! t') /\
    (forall r, (r < length (rows h))%nat -> rows h' !! r = rows h !! r).
Proof.
  unfold calloc2d.
  destruct (alloc2d_ok _ h Halloc) as (-> & Hplan0). simpl negb.
  cbn iota. cbn [tables set_alloc_plan].
  set (t := length (tables h)).
  set (h0 := set_tables _ _).
  pose proof (calloc2d_rows t x y (Z.to_nat x) 0 h0 [] 0%nat) as Hrun.
  unfold for_range. rewrite Z.sub_0_r, Hrun; clear Hrun.
  2:{ lia. }
  2:{ reflexivity. }
  2:{ unfold h0. simpl. unfold t. rewrite lookup_snoc_new.
      rewrite Nat.add_0_r. reflexivity. }
  2:{ exact Hplan0. }
  - simpl.
    exists t. eexists. split; [reflexivity|].
    unfold h0. simpl. unfold t. rewrite insert_snoc_new.
    rewrite app_nil_r.
    set (plan := drop (Z.to_nat x) (drop 1 (alloc_plan h))).
    assert (forall i r,
              slot2d {| tables := tables h
                                  ++ [Some (fresh_rows (length (rows h)) (Z.to_nat x))];
                        rows := rows h ++ replicate (Z.to_nat x)
                                            (Some (replicate (Z.to_nat y) 0));
                        alloc_plan := plan |} (length (tables h)) i
              = Some (Some r) ->
              0 <= i < x /\ r = (length (rows h) + Z.to_nat i)%nat) as Hslot.
    { intros i r. unfold slot2d. destruct (Z.ltb_spec i 0); [discriminate|].
      simpl. rewrite lookup_snoc_new. simpl. intros Hl.
      assert (Z.to_nat i < Z.to_nat x)%nat as Hlt.
      { apply lookup_lt_Some in Hl. rewrite length_fresh_rows in Hl. exact Hl. }
      rewrite lookup_fresh_rows in Hl by exact Hlt.
      injection Hl as <-. split; [lia | reflexivity]. }
    split; [|split; [|split; [|split; [|split]]]].
    + intros i j Hi Hj.
      apply (cell2d_fresh _ _ (fresh_rows (length (rows h)) (Z.to_nat x))
               (rows h) (Z.to_nat x) (Z.to_nat i) y); simpl;
        try lia; try reflexivity.
      * apply lookup_snoc_new.
      * apply lookup_fresh_rows. lia.
    + intros i i' r H1 H2.
      apply Hslot in H1 as [? ->]. apply Hslot in H2 as [? H2]. lia.
    + intros i r H1. apply Hslot in H1 as [? ->].
      apply lookup_ge_None. lia.
    + apply lookup_ge_None. lia.
    + intros t' Hne.
      destruct (decide (t' < length (tables h))%nat).
      * apply lookup_app_l. assumption.
      * rewrite !(proj2 (lookup_ge_None _ _)); [reflexivity | lia |].
        rewrite length_app. simpl. lia.
    + intros r Hr. apply lookup_app_l. exact Hr.
Qed.

(** X29. When the allocation of a row fails, [calloc2d] reports nothing.  If
    it is row 0, [free2d] finds [array2d[0]] NULL and does nothing, the
    loop goes on, and the value returned is a table whose row 0 is NULL
    and whose other rows are allocated.  If it is a later row, the table
    has two slots or more and row 0 is allocated: [free2d] reads past
    the variable, and the behaviour is undefined. *)
Theorem calloc2d_row_failure (x y : Z) (h : heap2d) (k : nat)
    (Hx : 1 <= x) (Hy : 1 <= y) (Hk : Z.of_nat k < x)
    (Hbefore : allocations_succeed (S k) h = true)
    (Hfails : alloc_plan h !! S k = Some false)
    (Hafter : forallb id (take (Z.to_nat x) (drop (S (S k)) (alloc_plan h)))
              = true) :
  (k = 0%nat ->
     exists t h',
       calloc2d x y h = Done (Some t, h') /\
       slot2d h' t 0 = Some None /\
       (forall i j, 1 <= i < x -> 0 <= j < y -> cell2d h' t i j = Some 0)) /\
  ((1 <= k)%nat -> calloc2d x y h = Undefined OutOfBounds).
Proof.
  unfold calloc2d.
  assert (allocations_succeed 1 h = true) as Hfirst.
  { unfold allocations_succeed in *.
    destruct (alloc_plan h) as [|b plan]; [reflexivity|].
    simpl in *. apply andb_true_iff in Hbefore as [-> _]. rewrite ?take_0.
    reflexivity. }
  destruct (alloc2d_ok 0 h Hfirst) as (-> & _). simpl negb. cbn iota.
  cbn [tables set_alloc_plan].
  set (t := length (tables h)).
  set (h0 := set_tables _ _).
  assert (tables h0 !! t = Some (Some (replicate (Z.to_nat x) None))) as Ht0
    by (unfold h0; simpl; apply lookup_snoc_new).
  assert (alloc_plan h0 = drop 1 (alloc_plan h)) as Hplan0 by reflexivity.
  split.
  - intros ->.
    (* row 0 *)
    assert (alloc2d h0 = (false, set_alloc_plan (drop 2 (alloc_plan h)) h0))
      as Halloc0.
    { rewrite alloc2d_fails; rewrite Hplan0.
      - rewrite drop_drop. reflexivity.
      - rewrite lookup_drop. exact Hfails. }
    set (h1 := set_alloc_plan (drop 2 (alloc_plan h)) h0).
    assert (<[0%nat := None]> (replicate (Z.to_nat x) (@None nat))
            = [None] ++ replicate (Z.to_nat x - 1 + 0) None) as Hsame.
    { replace (Z.to_nat x) with (S (Z.to_nat x - 1 + 0)) at 1 by lia.
      reflexivity. }
    assert (calloc2d_row t x y 0 h0
            = Done (set_tables
                      (<[t := Some ([None] ++ replicate (Z.to_nat x - 1 + 0) None)]>
                         (tables h1)) h1)) as Hhead.
    { unfold calloc2d_row. rewrite Halloc0. fold h1.
      rewrite (store_slot_Done t 0 None h1 _ Ht0)
        by (rewrite length_replicate; lia).
      simpl mbind. change (Z.to_nat 0) with 0%nat. rewrite Hsame.
      match goal with
      | |- free2d _ _ ?hh = _ =>
          apply (free2d_null_row t
                   ([None] ++ replicate (Z.to_nat x - 1 + 0) None) x hh)
      end.
      - simpl. unfold t. rewrite insert_snoc_new. apply lookup_snoc_new.
      - reflexivity. }
    rewrite for_range_step by lia. rewrite Hhead. simpl mbind.
    unfold for_range.
    replace (Z.to_nat (x - (0 + 1))) with (Z.to_nat x - 1)%nat by lia.
    rewrite (calloc2d_rows t x y (Z.to_nat x - 1) (0 + 1) _ [None] 0%nat).
    + simpl. exists t. eexists. split; [reflexivity|].
      unfold t. rewrite !insert_snoc_new. split.
      * unfold slot2d. simpl. rewrite lookup_snoc_new. reflexivity.
      * intros i j Hi Hj.
        apply (cell2d_fresh _ _
                 (None :: fresh_rows (length (rows h)) (Z.to_nat x - 1) ++ [])
                 (rows h) (Z.to_nat x - 1) (Z.to_nat i - 1) y).
        -- cbn [tables]. apply lookup_snoc_new.
        -- reflexivity.
        -- lia.
        -- lia.
        -- replace (Z.to_nat i) with (S (Z.to_nat i - 1)) at 1 by lia.
           rewrite lookup_cons, app_nil_r. apply lookup_fresh_rows. lia.
        -- lia.
    + lia.
    + reflexivity.
    + simpl. unfold t. rewrite insert_snoc_new. apply lookup_snoc_new.
    + unfold allocations_succeed. simpl.
      apply (forallb_take_le _ (Z.to_nat x - 1) (Z.to_nat x)); [lia | exact Hafter].
  - intros Hk1.
    rewrite (for_range_split 0 (Z.of_nat k) x) by lia.
    assert (for_range 0 (Z.of_nat k) (calloc2d_row t x y) h0
            = for_loop k 0 (calloc2d_row t x y) h0) as ->
      by (unfold for_range; f_equal; lia).
    rewrite (calloc2d_rows t x y k 0 h0 [] (Z.to_nat x - k)%nat).
    2:{ lia. }
    2:{ reflexivity. }
    2:{ rewrite Ht0. simpl. do 3 f_equal. lia. }
    2:{ unfold allocations_succeed in *. rewrite Hplan0.
        destruct (alloc_plan h) as [|b plan]; [rewrite drop_nil, take_nil; reflexivity|].
        simpl in Hbefore. apply andb_true_iff in Hbefore as [_ Hbefore].
        rewrite ?drop_0. exact Hbefore. }
    simpl mbind. rewrite for_range_step by lia.
    set (hk := {| tables := _; rows := _; alloc_plan := _ |}).
    assert (calloc2d_row t x y (Z.of_nat k) hk = Undefined OutOfBounds)
      as ->; [|reflexivity].
    assert (tables hk !! t
            = Some (Some (fresh_rows (length (rows h)) k
                          ++ replicate (Z.to_nat x - k) None))) as Htk.
    { unfold hk. simpl. unfold t. rewrite insert_snoc_new.
      apply lookup_snoc_new. }
    unfold calloc2d_row.
    rewrite alloc2d_fails.
    2:{ unfold hk. simpl. rewrite drop_drop, lookup_drop.
        replace (1 + k + 0)%nat with (S k) by lia. exact Hfails. }
    erewrite store_slot_Done;
      [ | exact Htk
        | rewrite length_app, length_fresh_rows, length_replicate; lia ].
    simpl mbind.
    match goal with
    | |- free2d _ _ ?hh = _ =>
        destruct (free2d_live_row t
                    (<[Z.to_nat (Z.of_nat k) := None]>
                       (fresh_rows (length (rows h)) k
                        ++ replicate (Z.to_nat x - k) None))
                    x hh (length (rows h)) (replicate (Z.to_nat y) 0))
          as [_ Hundef]
    end.
    + simpl. unfold t. rewrite insert_snoc_new.
      rewrite list_lookup_insert_eq; [reflexivity|].
      rewrite length_app. simpl. lia.
    + rewrite length_insert, length_app, length_fresh_rows. lia.
    + rewrite list_lookup_insert_ne by lia.
      rewrite lookup_app_l by (rewrite length_fresh_rows; lia).
      rewrite lookup_fresh_rows by lia. do 2 f_equal. lia.
    + simpl. rewrite lookup_app_r by lia. rewrite Nat.sub_diag.
      apply lookup_replicate_2. lia.
    + apply Hundef. lia.
Qed.

(* ================================================================== *)
(** * utils.c: what [is_prime] computes *)

(** ** The exponent of a square root *)

Lemma Zdigits2_53 (q : Z) : 2 ^ 52 <= q < 2 ^ 53 -> Zdigits2 q = 53.
Proof.
  intros H. destruct q as [|p|p]; try lia. cbn [Zdigits2].
  pose proof (digits_upper p 53 ltac:(lia) (proj2 H)).
  pose proof (digits_lower p 52 ltac:(lia) (proj1 H)). lia.
Qed.

(** Rounding a mantissa of 53 bits: the exponent is kept, or is one
    more when the mantissa is rounded up to [2^53]. *)
Lemma binary_round_aux_normal (q e : Z) (l : location) :
  2 ^ 52 <= q < 2 ^ 53 -> -1074 <= e <= 900 ->
  exists mr er,
    binary_round_aux Double.prec Double.emax false q e l
    = S754_finite false mr er /\ e <= er <= e + 1.
Proof.
  intros Hq He.
  destruct (shr_fexp_spec q e l ltac:(lia))
    as (mrs1 & n1 & E1 & Hn1 & He1 & Hm1 & Hrec1).
  rewrite (Zdigits2_53 q Hq), fexp_eq in He1.
  assert (n1 = 0) as -> by lia.
  rewrite (Hrec1 eq_refl) in *. clear Hrec1.
  rewrite Z.add_0_r in E1.
  assert (shr_m (shr_record_of_loc q l) = q) as Hrec
    by (destruct l as [|[]]; reflexivity).
  pose proof (round_nearest_even_bounds q
                (loc_of_shr_record (shr_record_of_loc q l))) as Hrne.
  set (m1 := round_nearest_even q (loc_of_shr_record (shr_record_of_loc q l)))
    in *.
  destruct (shr_fexp_spec m1 e loc_Exact ltac:(lia))
    as (mrs2 & n2 & E2 & Hn2 & He2 & Hm2 & _).
  assert (Zdigits2 m1 <= 54) as Hd
    by (apply Zdigits2_upper; [lia | lia |];
        change (2 ^ 54) with (2 * 2 ^ 53); lia).
  rewrite fexp_eq in He2.
  assert (n2 <= 1) as Hn2' by lia.
  assert (0 < shr_m mrs2) as Hpos.
  { rewrite Hm2. assert (n2 = 0 \/ n2 = 1) as [-> | ->] by lia.
    - rewrite Z.div_1_r. lia.
    - apply Z.div_str_pos. change (2 ^ 1) with 2. lia. }
  unfold binary_round_aux. rewrite E1, Hrec. fold m1. rewrite E2.
  destruct (shr_m mrs2) as [|mr|mr] eqn:Em; try lia.
  exists mr, (e + n2).
  replace (e + n2 <=? Double.emax - Double.prec) with true
    by (symmetry; apply Z.leb_le;
        change (Double.emax - Double.prec) with 971; lia).
  split; [reflexivity | lia].
Qed.

(** The square root of a normal number [m * 2^e]: a normal number whose
    exponent is [e / 2 - 26] or one more. *)
Lemma sqrt_exponent (m : positive) (e : Z) :
  2 ^ 52 <= Z.pos m < 2 ^ 53 -> -52 <= e <= 0 ->
  exists mr er,
    Double.sqrt (S754_finite false m e) = S754_finite false mr er /\
    e / 2 - 26 <= er <= e / 2 - 25.
Proof.
  intros Hm He. unfold Double.sqrt, SFsqrt, SFsqrt_core_binary.
  rewrite (Zdigits2_53 _ Hm), fexp_eq, !Z.div2_div.
  replace (53 + e + 1) with (e + 27 * 2) by lia.
  rewrite Z.div_add by lia.
  pose proof (Z.div_mod e 2 ltac:(lia)) as Hdm.
  pose proof (Z.mod_pos_bound e 2 ltac:(lia)) as Hmod.
  replace (Z.min (Z.max (e / 2 + 27 - 53) (-1074)) (e / 2))
    with (e / 2 - 26) by lia.
  set (s := e - 2 * (e / 2 - 26)).
  assert (s = 52 \/ s = 53) as Hs by (unfold s; lia).
  set (B := 2 ^ 52) in *.
  assert (2 ^ 53 = 2 * B) as H53 by reflexivity.
  assert (0 < B) as HB by reflexivity.
  match goal with
  | |- context [Z.sqrtrem ?a] => assert (a = Z.pos m * 2 ^ s) as ->
  end.
  { destruct s as [|p|p] eqn:Es; try lia.
    rewrite Z.shiftl_mul_pow2 by lia. reflexivity. }
  pose proof (Z.sqrtrem_spec (Z.pos m * 2 ^ s)) as Hspec.
  assert (B * B <= Z.pos m * 2 ^ s < 4 * (B * B)) as Hrange.
  { destruct Hs as [-> | ->].
    - change (2 ^ 52) with B. split; nia.
    - change (2 ^ 53) with (2 * B). split; nia. }
  destruct (Z.sqrtrem (Z.pos m * 2 ^ s)) as [q r].
  specialize (Hspec ltac:(lia)). destruct Hspec as [Hsq Hr].
  assert (B <= q < 2 * B) as Hq by (rewrite Hsq in Hrange; split; nia).
  rewrite <- H53 in Hq.
  match goal with
  | |- context [binary_round_aux _ _ _ q _ ?l] =>
      destruct (binary_round_aux_normal q (e / 2 - 26) l Hq ltac:(lia))
        as (mr & er & -> & Her)
  end.
  exists mr, er. split; [reflexivity | lia].
Qed.

(** [(double)c] for [0 < c < 2^53]: the exponent is the number of bits
    of [c] less 53, and the mantissa has 53 bits. *)
Lemma of_int_normal (c : Z) :
  0 < c < 2 ^ 53 ->
  exists m, Double.of_int c = S754_finite false m (Zdigits2 c - 53) /\
            2 ^ 52 <= Z.pos m < 2 ^ 53.
Proof.
  intros Hc. destruct c as [|p|p]; try lia. cbn [Zdigits2].
  unfold Double.of_int, binary_normalize, binary_round, shl_align.
  pose proof (digits_upper p 53 ltac:(lia) (proj2 Hc)) as Hd.
  assert (0 < Z.pos (digits2_pos p)) as Hd0 by lia.
  assert (Z.pos p < 2 ^ Z.pos (digits2_pos p)) as Hsize.
  { rewrite digits2_pos_size. pose proof (Pos.size_gt p).
    change 2 with (Z.pos 2). rewrite <- Pos2Z.inj_pow. lia. }
  assert (2 ^ Z.pos (digits2_pos p) <= 2 * Z.pos p) as Hsize2.
  { rewrite digits2_pos_size. pose proof (Pos.size_le p).
    change 2 with (Z.pos 2) at 1. rewrite <- Pos2Z.inj_pow. lia. }
  rewrite Z.add_0_r, fexp_eq.
  replace (Z.max (Z.pos (digits2_pos p) - 53) (-1074) - 0)
    with (Z.pos (digits2_pos p) - 53) by lia.
  destruct (Z.pos (digits2_pos p) - 53) as [|k|k] eqn:Ek; try lia.
  - exists p. rewrite binary_round_aux_exact; [|rewrite fexp_eq; lia|lia].
    split; [reflexivity|].
    replace (Z.pos (digits2_pos p)) with 53 in * by lia.
    change (2 ^ 53) with (2 * 2 ^ 52) in *. lia.
  - exists (Pos.iter xO p k).
    replace (Z.max (Z.neg k) (-1074)) with (Z.neg k) by lia.
    assert (Z.pos (Pos.iter xO p k) < 2 ^ 53) as Hlt.
    { rewrite pos_iter_xO.
      replace 53 with (Z.pos (digits2_pos p) + Z.pos k) by lia.
      rewrite Z.pow_add_r by lia.
      apply Z.mul_lt_mono_pos_r; [apply Z.pow_pos_nonneg; lia | exact Hsize]. }
    pose proof (digits_upper _ 53 ltac:(lia) Hlt) as Hd2.
    rewrite binary_round_aux_exact; [|rewrite fexp_eq; lia|lia].
    split; [reflexivity|]. split; [|exact Hlt].
    rewrite pos_iter_xO.
    assert (2 ^ 53 = 2 ^ Z.pos (digits2_pos p) * 2 ^ Z.pos k) as Hsplit.
    { rewrite <- Z.pow_add_r by lia. f_equal. lia. }
    assert (0 < 2 ^ Z.pos k) by (apply Z.pow_pos_nonneg; lia).
    change (2 ^ 53) with (2 * 2 ^ 52) in Hsplit. nia.
Qed.

(** [sqrt((double)n)] for an [n] of [d] bits. *)
Lemma sqrt_of_int_exponent (n : Z) :
  0 < n < 2 ^ 53 ->
  exists mr er,
    Double.sqrt (Double.of_int n) = S754_finite false mr er /\
    (Zdigits2 n - 53) / 2 - 26 <= er <= (Zdigits2 n - 53) / 2 - 25.
Proof.
  intros Hn. destruct (of_int_normal n Hn) as (m & -> & Hm).
  apply sqrt_exponent; [exact Hm|].
  assert (Zdigits2 n <= 53) by (apply Zdigits2_upper; lia).
  assert (0 < Zdigits2 n) by (destruct n; simpl; lia).
  lia.
Qed.

(** ** The test of the loop at 2 and at 256 *)

Lemma of_int_2 : Double.of_int 2 = S754_finite false (2 ^ 52) (-51).
Proof. reflexivity. Qed.

Lemma of_int_256 : Double.of_int 256 = S754_finite false (2 ^ 52) (-44).
Proof. reflexivity. Qed.

(** [256 < sqrt(n)] is false for every [n < 2^14]. *)
Lemma guard_false_at_256 (n : Z) :
  0 <= n < 2 ^ 14 ->
  Double.ltb (Double.of_int 256) (Double.sqrt (Double.of_int n)) = false.
Proof.
  intros Hn. destruct (Z.eq_dec n 0) as [->|Hne]; [reflexivity|].
  destruct (sqrt_of_int_exponent n ltac:(lia)) as (mr & er & -> & Her).
  assert (Zdigits2 n <= 14) by (apply Zdigits2_upper; lia).
  assert ((Zdigits2 n - 53) / 2 < -19)
    by (apply Z.div_lt_upper_bound; lia).
  rewrite of_int_256. unfold Double.ltb, SFltb, SFcompare.
  replace (-44 ?= er) with Gt by (symmetry; apply Z.compare_gt_iff; lia).
  reflexivity.
Qed.

(** [2 < sqrt(n)] is true for every [n] from 16 to [2^53]. *)
Lemma guard_true_at_2 (n : Z) :
  16 <= n < 2 ^ 53 ->
  Double.ltb (Double.of_int 2) (Double.sqrt (Double.of_int n)) = true.
Proof.
  intros Hn.
  destruct (sqrt_of_int_exponent n ltac:(lia)) as (mr & er & -> & Her).
  assert (5 <= Zdigits2 n).
  { destruct n as [|p|p]; try lia. cbn [Zdigits2].
    apply (digits_lower p 4); lia. }
  assert (-24 <= (Zdigits2 n - 53) / 2)
    by (apply Z.div_le_lower_bound; lia).
  rewrite of_int_2. unfold Double.ltb, SFltb, SFcompare.
  replace (-51 ?= er) with Lt by (symmetry; apply Z.compare_lt_iff; lia).
  reflexivity.
Qed.

(** ** The loop *)

Lemma odd_rem_even (n i : Z) :
  Z.odd n = true -> Z.even i = true -> (Z.rem n i =? 0) = false.
Proof.
  intros Hn Hi. apply Z.eqb_neq. intros Hrem.
  destruct (Z.eq_dec i 0) as [->|Hne].
  { rewrite Z.rem_0_r_ext in Hrem by reflexivity. subst n. discriminate. }
  pose proof (Z.quot_rem' n i) as Hq. rewrite Hrem, Z.add_0_r in Hq.
  rewrite Hq, Z.odd_mul in Hn.
  rewrite <- Z.negb_even, Hi in Hn. discriminate.
Qed.

(** For an odd [n] the loop rejects nothing, and it ends at 256 at the
    latest. *)
Lemma is_prime_loop_odd (n : Z) :
  0 <= n < 2 ^ 14 -> Z.odd n = true ->
  forall (fuel : nat) (i : Z),
    Z.even i = true -> 2 <= i <= 256 -> 256 - i < 2 * Z.of_nat fuel ->
    is_prime_loop fuel n i = Some 1.
Proof.
  intros Hn Hodd. induction fuel as [|fuel IH]; intros i Hi Hrange Hfuel;
    [lia|].
  simpl.
  destruct (Double.ltb (Double.of_int i) (Double.sqrt (Double.of_int n)))
    eqn:Hguard; [|reflexivity].
  rewrite (odd_rem_even n i Hodd Hi). simpl.
  assert (i <> 256) as Hne.
  { intros ->. rewrite guard_false_at_256 in Hguard by exact Hn.
    discriminate. }
  apply IH.
  - rewrite Z.even_add, Hi. reflexivity.
  - assert (i <> 255) by (intros ->; discriminate). lia.
  - lia.
Qed.

Lemma is_prime_loop_S (fuel : nat) (n i : Z) :
  is_prime_loop (S fuel) n i
  = if Double.ltb (Double.of_int i) (Double.sqrt (Double.of_int n)) then
      if (Z.rem n i =? 0) && negb (i =? n) then Some 0
      else is_prime_loop fuel n (i + 2)
    else Some 1.
Proof. reflexivity. Qed.

(** X30. What [is_prime] computes: for an [unsigned int n], [is_prime(n)] is
    1 exactly when [n <= 4] or [n] is odd and at most 9999.  Every odd
    number up to 9999 is reported prime, and of the even numbers 0, 2 and
    4. *)
Theorem is_prime_is_odd_or_small (n : Z) (Hn : 0 <= n) :
  is_prime n
  = Some (if (n <=? 4) || (Z.odd n && (n <=? 9999)) then 1 else 0).
Proof.
  destruct (Z.leb_spec n 4) as [H4|H4]; cbn [orb].
  { assert (n = 0 \/ n = 1 \/ n = 2 \/ n = 3 \/ n = 4) as Hcases by lia.
    destruct Hcases as [-> | [-> | [-> | [-> | ->]]]];
      exact (eq_refl (Some 1)). }
  unfold is_prime.
  destruct (Z.ltb_spec 9999 n) as [Hbig|Hsmall].
  { destruct (Z.leb_spec n 9999); [lia|]. rewrite andb_false_r. reflexivity. }
  destruct (Z.leb_spec n 9999); [|lia]. rewrite andb_true_r.
  destruct (Z.odd n) eqn:Hodd.
  - apply is_prime_loop_odd.
    + change (2 ^ 14) with 16384. lia.
    + exact Hodd.
    + reflexivity.
    + lia.
    + change (Z.of_nat 5000) with 5000. lia.
  - assert (exists k, n = 2 * k) as [k Hk].
    { rewrite <- Z.negb_even in Hodd. apply negb_false_iff in Hodd.
      apply Z.even_spec in Hodd. exact Hodd. }
    destruct (Z.lt_ge_cases n 16) as [Hlt|Hge].
    + assert (n = 6 \/ n = 8 \/ n = 10 \/ n = 12 \/ n = 14) as Hcases by lia.
      destruct Hcases as [-> | [-> | [-> | [-> | ->]]]];
        exact (eq_refl (Some 0)).
    + rewrite (is_prime_loop_S 4999 n 2).
      rewrite guard_true_at_2 by (change (2 ^ 53) with 9007199254740992; lia).
      assert (Z.rem n 2 = 0) as ->.
      { rewrite Hk, Z.mul_comm. apply Z.rem_mul. lia. }
      destruct (Z.eqb_spec 2 n); [lia | reflexivity].
Qed.

(* ================================================================== *)
(** * The theorems of the other functions on example data *)

Lemma isignab_spec_witness :
  isignab (-5) 3 = Ok 5 /\ isignab (-5) (-5) = Ok (-5) /\ iabs (-5) = Ok 5.
Proof. apply (isignab_spec (-5) 3). lia. Defined.

Lemma rshift_rnd_sf_nearest_witness :
  rshift_rnd_sf 5 1 = Ok 3 /\ - 2 ^ (1 - 1) <= 5 - 3 * 2 ^ 1 < 2 ^ (1 - 1).
Proof.
  split; [reflexivity|].
  apply (proj1 (proj2 (rshift_rnd_sf_nearest 5 1 ltac:(lia) ltac:(lia))) 3).
  reflexivity.
Defined.

Lemma rshift_rnd_sign_odd_witness :
  exists r,
    rshift_rnd_sign (-5) 1 = Ok r /\
    rshift_rnd_sign (- -5) 1 = Ok (- r) /\
    Z.sgn r * Z.sgn (-5) >= 0 /\
    Z.abs (-5) - 2 ^ (1 - 1) < Z.abs r * 2 ^ 1 <= Z.abs (-5) + 2 ^ (1 - 1).
Proof. apply (rshift_rnd_sign_odd (-5) 1); [lia | reflexivity]. Defined.

Lemma rshift_rnd_us_wraps_witness : rshift_rnd_us 4294967295 1 = Ok 0.
Proof.
  destruct (rshift_rnd_us_wraps 4294967295 1) as (r & Hr & _ & _ & Hwrap).
  - lia.
  - lia.
  - rewrite Hr. f_equal. apply Hwrap; [lia | vm_compute; discriminate].
Defined.

Lemma dClip3_within_bounds_witness :
  SFcompare (dClip3 (Double.of_int 0) (Double.of_int 255) S754_nan)
    (Double.of_int 0) = Some Eq.
Proof.
  destruct (dClip3_within_bounds (Double.of_int 0) (Double.of_int 255)
              S754_nan) as (_ & _ & _ & Hnan & _).
  - reflexivity.
  - reflexivity.
  - reflexivity.
  - apply Hnan. reflexivity.
Defined.

Lemma free_bitstream_map_twice_witness :
  exists m',
    free_bitstream_map 0 example_memory = Done m' /\
    free_bitstream_map 0 m' = Done m' /\
    handles m' = [None] /\ maps m' = [None].
Proof.
  destruct (free_bitstream_map_twice 0 example_memory (Some 0%nat) eq_refl)
    as (m' & Hfirst & Hsecond & Hh & Hm & _).
  - intros l Hl. injection Hl as <-. eexists. reflexivity.
  - exists m'. exact (conj Hfirst (conj Hsecond (conj Hh Hm))).
Defined.

Lemma free_bitstream_map_alias_witness :
  exists m',
    free_bitstream_map 0 aliased_memory = Done m' /\
    handles m' !! 1%nat = Some (Some 0%nat) /\
    maps m' !! 0%nat = Some None /\
    free_bitstream_map 1 m' = Undefined DanglingPointer.
Proof.
  apply (free_bitstream_map_alias 0 1 0 example_map aliased_memory).
  - discriminate.
  - reflexivity.
  - reflexivity.
  - reflexivity.
Defined.

Lemma init_then_free_bitstream_map_witness :
  exists m1 m2,
    init_bitstream_map 0 4 null_handle_memory = Done (SUCCESS, m1) /\
    free_bitstream_map 0 m1 = Done m2 /\
    handles m2 = [None] /\ maps m2 = [None].
Proof.
  destruct (init_then_free_bitstream_map 0 4 null_handle_memory)
    as (m1 & m2 & Hinit & Hfree & Hh & Hm & _).
  - reflexivity.
  - discriminate.
  - reflexivity.
  - exists m1, m2. exact (conj Hinit (conj Hfree (conj Hh Hm))).
Defined.

Lemma init_bitstream_map_failure_keeps_memory_witness :
  exists m',
    init_bitstream_map 0 4 example_memory = Done (FAILURE, m') /\
    handles m' = handles example_memory /\
    omap id (maps m') = omap id (maps example_memory).
Proof.
  destruct (init_bitstream_map_failure_keeps_memory 0 4 example_memory
              (Some 0%nat) eq_refl) as (r & m' & Hrun & Hr & Hiff & Hkeep).
  destruct Hr as [-> | ->].
  - destruct (proj1 Hiff eq_refl) as [Hnull _]. discriminate.
  - exists m'. split; [exact Hrun | exact (Hkeep eq_refl)].
Defined.

Lemma idr_filtering_without_filter_witness :
  idr_filtering (Some 0%nat) 9 PICTURE_UNFILTERED example_memory
    = Done (6, example_memory) /\
  idr_filtering (Some 0%nat) (-1) PICTURE_UNFILTERED example_memory
    = Done (6, example_memory).
Proof.
  assert (0 <= sample_count_idr example_map < 2 ^ 31) as Hidr
    by (vm_compute; split; [discriminate | reflexivity]).
  split.
  - destruct (proj2 (proj2 (idr_filtering_without_filter 9 PICTURE_UNFILTERED
                              example_memory ltac:(lia)))
                0%nat 0%nat example_map eq_refl eq_refl Hidr)
      as (r & Hrun & _ & Hpos & _).
    rewrite Hrun, (Hpos ltac:(lia)). reflexivity.
  - destruct (proj2 (proj2 (idr_filtering_without_filter (-1)
                              PICTURE_UNFILTERED example_memory ltac:(lia)))
                0%nat 0%nat example_map eq_refl eq_refl Hidr)
      as (r & Hrun & _ & _ & Hneg).
    rewrite Hrun, (Hneg ltac:(lia)). reflexivity.
Defined.

Lemma idr_filtering_one_picture_divides_by_zero_witness :
  idr_filtering (Some 0%nat) 1 PICTURE_ORDERED example_memory
  = Undefined DivisionByZero.
Proof.
  apply (idr_filtering_one_picture_divides_by_zero 0 0 example_map 1
           PICTURE_ORDERED example_memory).
  - reflexivity.
  - reflexivity.
  - prove_example_valid.
  - vm_compute. reflexivity.
  - discriminate.
  - vm_compute. lia.
  - vm_compute. reflexivity.
Defined.

Lemma idr_filtering_allocation_failure_witness :
  exists m',
    idr_filtering (Some 0%nat) 2 PICTURE_ORDERED exhausted_memory
      = Done (0, m') /\
    handles m' = handles exhausted_memory /\
    maps m' !! 0%nat = Some (Some example_map) /\
    omap id (maps m') = omap id (maps exhausted_memory).
Proof.
  apply (idr_filtering_allocation_failure 0 0 example_map 2 PICTURE_ORDERED
           exhausted_memory).
  - reflexivity.
  - reflexivity.
  - prove_example_valid.
  - vm_compute. reflexivity.
  - discriminate.
  - lia.
  - vm_compute. lia.
  - vm_compute. discriminate.
  - left. reflexivity.
Defined.

Lemma idr_filtering_distributed_picks_witness :
  exists l' m' filtered,
    idr_filtering_frame (Some 0%nat) 3 PICTURE_DISTRIBUTED example_memory
      = Done (3, Some l', m') /\
    maps m' !! l' = Some (Some filtered) /\
    sample_at filtered 4 = sample_at example_map 0.
Proof.
  pose proof (idr_filtering_distributed_picks 0 0 example_map 3
                example_memory) as Hpicks.
  cbv zeta in Hpicks.
  destruct Hpicks as (l' & m' & filtered & Hrun & Hf & _ & _ & _ & Hlast).
  - reflexivity.
  - reflexivity.
  - prove_example_valid.
  - vm_compute. reflexivity.
  - reflexivity.
  - vm_compute. lia.
  - vm_compute. discriminate.
  - exists l', m', filtered. split; [exact Hrun|]. split; [exact Hf|].
    exact (proj2 (Hlast eq_refl)).
Defined.

Lemma crowded_map_valid : valid_map crowded_map.
Proof.
  constructor.
  - vm_compute. split; discriminate.
  - vm_compute. reflexivity.
  - eexists _, _, _, _, _. vm_compute. repeat split; reflexivity.
  - change (array_of (sample_size crowded_map))
      with ([20; 8] ++ replicate 1100 100).
    apply Forall_app. split.
    + repeat (constructor; [lia|]). constructor.
    + apply Forall_replicate. lia.
  - vm_compute. reflexivity.
Qed.

Lemma idr_filtering_overflows_sample_ids_witness :
  idr_filtering (Some 0%nat) 5 PICTURE_ORDERED crowded_memory
  = Undefined OutOfBounds.
Proof.
  apply (idr_filtering_overflows_sample_ids 0 0 crowded_map 5 PICTURE_ORDERED
           crowded_memory).
  - reflexivity.
  - reflexivity.
  - exact crowded_map_valid.
  - vm_compute. reflexivity.
  - discriminate.
  - vm_compute. apply Nat.leb_le. vm_compute. reflexivity.
Defined.

Lemma computeNormAdjust_writes_tables_only_witness :
  exists dc',
    computeNormAdjust (Some example_context) = Done (SUCCESS, Some dc') /\
    computeNormAdjust (Some dc') = Done (SUCCESS, Some dc').
Proof.
  destruct (computeNormAdjust_writes_tables_only example_context)
    as (_ & dc' & Hrun & Hagain & _).
  - split; [reflexivity|]. repeat constructor.
  - split; [reflexivity|]. repeat constructor.
  - exists dc'. split; [exact Hrun | exact Hagain].
Defined.

Lemma computeNormAdjust_tables_symmetric_witness :
  exists dc',
    computeNormAdjust (Some example_context) = Done (SUCCESS, Some dc') /\
    tlookup (normAdjust4x4 dc') 2 1 3 = tlookup (normAdjust4x4 dc') 2 3 1.
Proof.
  destruct (computeNormAdjust_tables_symmetric example_context)
    as (dc' & Hrun & H4 & _).
  - split; [reflexivity|]. repeat constructor.
  - split; [reflexivity|]. repeat constructor.
  - exists dc'. split; [exact Hrun|].
    apply (H4 2%nat 1%nat 3%nat); lia.
Defined.

Lemma decode_loop_counters_witness :
  exists dc' r' k',
    decode_loop 4 1 example_env 0 example_context 0 = Some (dc', r', k') /\
    frameCounter dc' = idrCounter dc' /\
    0 <= idrCounter dc' <= 1 /\
    idrCounter dc' <= Z.of_nat k' /\
    0 <= errorCounter dc' <= 65 /\
    decoderRunning dc' = false.
Proof.
  assert (exists x, decode_loop 4 1 example_env 0 example_context 0 = Some x)
    as [[[dc' r'] k'] Hexit] by (vm_compute; eexists; reflexivity).
  exists dc', r', k'. split; [exact Hexit|].
  apply (decode_loop_counters 1 example_env 4 example_context dc' 0 r' k').
  - lia.
  - reflexivity.
  - reflexivity.
  - reflexivity.
  - reflexivity.
  - exact Hexit.
Defined.

Lemma decode_loop_no_picture_asked_witness :
  exists dc',
    decode_loop 1 0 example_env 0 example_context 0
      = Some (dc', SUCCESS, 1%nat) /\
    idrCounter dc' = 0.
Proof.
  apply (proj1 (decode_loop_no_picture_asked example_env example_context 0
                  eq_refl eq_refl eq_refl) eq_refl 0%nat).
Defined.

Lemma decode_loop_gives_up_after_65_errors_witness :
  exists dc',
    decode_loop 65 1 delimiters_env 0 example_context 0
      = Some (dc', FAILURE, 65%nat) /\
    errorCounter dc' = 65.
Proof.
  destruct (decode_loop_gives_up_after_65_errors 1 delimiters_env
              example_context 0 65) as (dc' & Hrun & Herr & _).
  - intros k. split; reflexivity.
  - reflexivity.
  - discriminate.
  - reflexivity.
  - lia.
  - exists dc'. split; [exact Hrun | exact Herr].
Defined.

Lemma decode_loop_skips_slices_forever_witness :
  decode_loop 1000 1 slices_env 0 example_context 0 = None.
Proof.
  apply (decode_loop_skips_slices_forever 1 slices_env example_context 0 0).
  - intros k _. reflexivity.
  - reflexivity.
  - discriminate.
  - vm_compute. discriminate.
Defined.

Lemma free2d_frees_row_0_only_witness :
  free2d (Some 0%nat) 3 example_heap2d = Undefined OutOfBounds.
Proof.
  destruct (free2d_frees_row_0_only 0 [Some 0%nat; Some 1%nat; Some 2%nat] 3
              example_heap2d) as (_ & _ & Hrow).
  - reflexivity.
  - simpl. lia.
  - apply (proj2 (Hrow 0%nat [1; 2] eq_refl eq_refl)). lia.
Defined.

Lemma calloc2d_zeroed_witness :
  exists t h',
    calloc2d 2 3 (empty_heap2d []) = Done (Some t, h') /\
    cell2d h' t 1 2 = Some 0.
Proof.
  destruct (calloc2d_zeroed 2 3 (empty_heap2d []))
    as (t & h' & Hrun & Hzero & _).
  - lia.
  - lia.
  - reflexivity.
  - exists t, h'. split; [exact Hrun | apply Hzero; lia].
Defined.

Lemma calloc2d_row_failure_witness :
  (exists t h',
     calloc2d 2 2 second_fails_heap2d = Done (Some t, h') /\
     slot2d h' t 0 = Some None) /\
  calloc2d 2 2 third_fails_heap2d = Undefined OutOfBounds.
Proof.
  split.
  - destruct (proj1 (calloc2d_row_failure 2 2 second_fails_heap2d 0
                       ltac:(lia) ltac:(lia) ltac:(lia)
                       eq_refl eq_refl eq_refl) eq_refl)
      as (t & h' & Hrun & Hslot & _).
    exists t, h'. split; [exact Hrun | exact Hslot].
  - apply (proj2 (calloc2d_row_failure 2 2 third_fails_heap2d 1
                    ltac:(lia) ltac:(lia) ltac:(lia)
                    eq_refl eq_refl eq_refl)).
    lia.
Defined.

Lemma is_prime_is_odd_or_small_witness :
  is_prime 9 = Some 1 /\ is_prime 7919 = Some 1 /\ is_prime 22 = Some 0.
Proof.
  split; [exact (is_prime_is_odd_or_small 9 ltac:(lia))|].
  split; [exact (is_prime_is_odd_or_small 7919 ltac:(lia))|].
  exact (is_prime_is_odd_or_small 22 ltac:(lia)).
Defined.
